(** * cesiumlang.org: workspace mirror, watcher and folder index pages

    A shallow embedding of the build script ([build.js]), the folder page
    emitter ([custom-folder-page]), the explorer comparator
    ([custom-explorer.inline.ts]) and the frontmatter index emitter
    ([frontmatter-index]), followed by the properties proved about them.

    Conventions.
    - A relative path or a slug is the list of its [/]-separated segments;
      the workspace root ([.]) and the empty slug are the empty list.
    - A finite JavaScript number that the code compares or subtracts (a sort
      order, a [Date] read through [getTime]) is an integer in [Z]. NaN and
      the infinities, which a sort order written in YAML can be, have
      constructors of their own. A [Date] is kept as its time value; an
      invalid date is not represented.
    - The file system is one store shared by the source tree and the build
      directory, as on disk: [build/] lives inside the workspace. *)

From stdpp Require Import gmap strings list fin_maps pretty.
From Stdlib Require Import ZArith Lia Ascii.

Local Open Scope string_scope.
Local Open Scope Z_scope.
Local Open Scope list_scope.

#[local] Set Warnings "-register-all".

Abbreviation path := (list string).

(** ** Strings and paths *)

(** [s.split(sep)] for a one-character separator. *)
Fixpoint splitOn (sep : ascii) (s : string) : list string :=
  match s with
  | EmptyString => [""]
  | String c rest =>
      if Ascii.eqb c sep then "" :: splitOn sep rest
      else match splitOn sep rest with
           | [] => [String c ""]
           | seg :: segs => String c seg :: segs
           end
  end.

(** [segments.join("/")], with [.] for the empty list. *)
Definition showPath (p : path) : string :=
  match p with
  | [] => "."
  | _ => String.concat "/" p
  end.

(** [path.dirname] on segment lists: drop the last segment. *)
Definition dirname (p : path) : path := removelast p.

Fixpoint isPrefix (p q : path) : bool :=
  match p, q with
  | [], _ => true
  | a :: p', b :: q' => String.eqb a b && isPrefix p' q'
  | _ :: _, [] => false
  end.

(** The proper, non-empty prefixes of a path: its ancestor directories,
    outermost first. *)
Fixpoint ancestors (p : path) : list path :=
  match p with
  | [] => []
  | s :: rest =>
      match rest with
      | [] => []
      | _ :: _ => [s] :: map (cons s) (ancestors rest)
      end
  end.

(** ** PathMatcher: the [ignore] package as the build script uses it

    The package is a dependency of the script, not part of it. This module
    follows the account the specification gives of an exclusion rule set
    (an ordered sequence of patterns, the last matching rule wins, a negated
    pattern re-includes) and the ignore-file grammar it refers to. *)

Module Ignore.

(** Modelled from the spec: one compiled rule, a pattern and whether it was
    written with a leading [!]. *)
Record Rule := mkRule { negative : bool; pattern : string }.

(** Modelled from the spec: a pattern line with a leading [!] is a negated
    rule. *)
Definition createRule (line : string) : Rule :=
  match line with
  | String "!"%char rest => mkRule true rest
  | _ => mkRule false line
  end.

Definition isBlank (s : string) : bool :=
  forallb (fun c => Ascii.eqb c " "%char || Ascii.eqb c "009"%char)
          (String.list_ascii_of_string s).

Definition stripCR (s : string) : string :=
  match last (String.list_ascii_of_string s) with
  | Some "013"%char => String.substring 0 (String.length s - 1) s
  | _ => s
  end.

(** Modelled from the spec: the lines of an ignore file that are patterns
    are those that are not blank and not a [#] comment. *)
Definition checkPattern (s : string) : bool :=
  negb (isBlank s) &&
  match s with String "#"%char _ => false | _ => true end.

(** Modelled from the spec: [ig.add(text)] splits the text into lines and
    every pattern line becomes a rule, in file order. *)
Definition parse (text : string) : list Rule :=
  map createRule (filter (fun l => Is_true (checkPattern l))
                         (map stripCR (splitOn "010"%char text))).

Section Matcher.
(** Modelled from the spec: the pattern language of the ignore-file
    grammar belongs to the external [ignore] package; [glob pat p isDir]
    says whether pattern [pat] matches path [p], where [isDir] tells
    that [p] is tested as a directory (the package tests the parents of
    a path with a trailing slash and the path itself as given). *)
Variable glob : string -> path -> bool -> bool.

(** Modelled from the spec: the last matching rule wins, a negated rule
    re-includes. *)
Definition testOne (rules : list Rule) (p : path) (isDir : bool) : bool :=
  fold_left
    (fun ignored r =>
       if glob (pattern r) p isDir then negb (negative r) else ignored)
    rules false.

(** Modelled from the spec: [ig.ignores(p)]. As the ignore-file grammar has
    it, a path below an ignored directory is ignored and cannot be
    re-included; otherwise the rules decide on the path. *)
Definition ignores (rules : list Rule) (p : path) : bool :=
  existsb (fun d => testOne rules d true) (ancestors p)
  || testOne rules p false.
End Matcher.

(** A reading of the wildcard-free patterns of the grammar, used to run
    the matcher on concrete rule sets: [**/x] and a pattern without a
    slash match a path whose last segment is [x]; [x/] does so for
    directories only; a pattern with an inner slash is anchored at the
    root. *)
Definition literalGlob (pat : string) (p : path) (isDir : bool) : bool :=
  let lastIs x := match last p with
                  | Some s => String.eqb s x
                  | None => false
                  end in
  match splitOn "/"%char pat with
  | ["**"; x] => lastIs x
  | [x; ""] => isDir && lastIs x
  | [x] => lastIs x
  | "" :: segs => bool_decide (p = segs)
  | segs => bool_decide (p = segs)
  end.

End Ignore.

(** ** The build script *)

Module Build.
Import Ignore.

Definition BUILD_DIR : string := "build".

(** *** The world: one file system and the console *)

Record Stats := mkStats { atime : Z; mtime : Z; mode : Z }.

Inductive Node :=
| File (st : Stats) (data : string)
| Dir (st : Stats)
| Link (target : string).

(** Who wrote a line to the terminal: [console.log], [console.warn],
    [console.error], or a child process that inherited the streams of the
    script. *)
Inductive Level := LOG | WARN | ERROR | CHILD.

(** The store maps a path (relative to the working directory, which is
    the workspace root and is stored at the empty path) to what is
    there. *)
Record World := mkWorld {
  fs : gmap path Node;
  console : list (Level * string)
}.

Definition setFs (m : gmap path Node) (w : World) : World :=
  mkWorld m (console w).

Definition print (l : Level) (msg : string) (w : World) : World :=
  mkWorld (fs w) (console w ++ [(l, msg)]).

Inductive Syscall :=
| SysRm (p : path)
| SysMkdir (p : path)
| SysCopyFile (src dest : path)
| SysStat (p : path)
| SysUtimes (p : path)
| SysChmod (p : path)
| SysReaddir (p : path)
| SysSymlink (p : path)
| SysReadFile (p : path)
| SysUnlink (p : path)
| SysAccess (p : path).

(** How a spawned child ended: the [close] event with its exit code
    ([null] when a signal killed it) or the [error] event. *)
Inductive SpawnResult :=
| Close (code : option Z)
| SpawnError (message : string).

(** A spawned child: what it wrote to its output streams and how it
    ended. *)
Record Child := mkChild { written : list string; ended : SpawnResult }.

(** What the script does not decide itself. *)
Record Env := mkEnv {
  (** command line flags *)
  serve : bool;
  watch : bool;
  noBuildDir : bool;
  verbose : bool;
  (** [process.platform === 'win32'] and [path.resolve('.git')] *)
  win32 : bool;
  gitTargetPath : string;
  (** the pattern matching of the [ignore] package *)
  glob : string -> path -> bool -> bool;
  (** system calls that fail although the store would allow them
      (locks, permissions, i/o errors) *)
  faulty : Syscall -> bool;
  (** the platform refuses paths of more than [maxDepth] segments *)
  maxDepth : nat;
  (** attributes of a node that was just created *)
  created : Stats;
  (** what a symbolic link leads to, if anything *)
  resolve : string -> option Node;
  (** what running a command with arguments in a directory gives *)
  spawn : string -> list string -> path -> Child
}.

(** *** Promises that resolve or reject, over the world *)

Inductive Res (A : Type) :=
| Ok (a : A) (w : World)
| Throw (message : string) (w : World).
Arguments Ok {A} a w.
Arguments Throw {A} message w.

Definition M (A : Type) := World -> Res A.

Definition ret {A} (a : A) : M A := fun w => Ok a w.

Definition bind {A B} (c : M A) (k : A -> M B) : M B :=
  fun w => match c w with
           | Ok a w' => k a w'
           | Throw e w' => Throw e w'
           end.

Definition throw {A} (message : string) : M A := fun w => Throw message w.

(** [try { body } catch (error) { handler(error.message) }] *)
Definition tryCatch {A} (body : M A) (handler : string -> M A) : M A :=
  fun w => match body w with
           | Ok a w' => Ok a w'
           | Throw e w' => handler e w'
           end.

Declare Scope script_scope.
Delimit Scope script_scope with script.
Notation "x <- c ;; k" := (bind c (fun x => k))
  (at level 100, c at next level, right associativity) : script_scope.
Notation "c ;; k" := (bind c (fun _ => k))
  (at level 100, right associativity) : script_scope.
Local Open Scope script_scope.

Definition consoleLog (msg : string) : M unit := fun w => Ok tt (print LOG msg w).
Definition consoleWarn (msg : string) : M unit := fun w => Ok tt (print WARN msg w).
Definition consoleError (msg : string) : M unit := fun w => Ok tt (print ERROR msg w).

(** [for (const x of l) { await f(x) }] *)
Fixpoint forEach {A} (l : list A) (f : A -> M unit) : M unit :=
  match l with
  | [] => ret tt
  | x :: rest => f x ;; forEach rest f
  end.

Definition when (b : bool) (c : M unit) : M unit := if b then c else ret tt.

Definition showCode (code : option Z) : string :=
  match code with
  | Some n => pretty n
  | None => "null"
  end.

Definition showSyscall (s : Syscall) : string :=
  match s with
  | SysRm p => "rm '" +:+ showPath p +:+ "'"
  | SysMkdir p => "mkdir '" +:+ showPath p +:+ "'"
  | SysCopyFile src dest =>
      "copyfile '" +:+ showPath src +:+ "' -> '" +:+ showPath dest +:+ "'"
  | SysStat p => "stat '" +:+ showPath p +:+ "'"
  | SysUtimes p => "utime '" +:+ showPath p +:+ "'"
  | SysChmod p => "chmod '" +:+ showPath p +:+ "'"
  | SysReaddir p => "scandir '" +:+ showPath p +:+ "'"
  | SysSymlink p => "symlink '" +:+ showPath p +:+ "'"
  | SysReadFile p => "open '" +:+ showPath p +:+ "'"
  | SysUnlink p => "unlink '" +:+ showPath p +:+ "'"
  | SysAccess p => "access '" +:+ showPath p +:+ "'"
  end.

Record Dirent := mkDirent { name : string; isDir : bool }.

Fixpoint stripPrefix (p k : path) : option path :=
  match p, k with
  | [], _ => Some k
  | a :: p', b :: k' => if String.eqb a b then stripPrefix p' k' else None
  | _ :: _, [] => None
  end.

Definition childName (p k : path) : option string :=
  match stripPrefix p k with
  | Some [n] => Some n
  | _ => None
  end.

Definition isDirectory (m : gmap path Node) (p : path) : bool :=
  match m !! p with
  | Some (Dir _) => true
  | _ => false
  end.

Definition entriesOf (m : gmap path Node) (p : path) : list Dirent :=
  omap (fun kn : path * Node =>
          (fun n => mkDirent n (match kn.2 with Dir _ => true | _ => false end))
            <$> childName p kn.1)
       (map_to_list m).

Definition setTimes (a m : Z) (n : Node) : Node :=
  match n with
  | File st d => File (mkStats a m (mode st)) d
  | Dir st => Dir (mkStats a m (mode st))
  | Link t => Link t
  end.

Definition setMode (md : Z) (n : Node) : Node :=
  match n with
  | File st d => File (mkStats (atime st) (mtime st) md) d
  | Dir st => Dir (mkStats (atime st) (mtime st) md)
  | Link t => Link t
  end.

Section Script.
Variable env : Env.

(** *** The [fs.promises] calls the script makes *)

Definition guard (s : Syscall) : M unit :=
  fun w => if faulty env s
           then Throw ("EIO: i/o error, " +:+ showSyscall s) w
           else Ok tt w.

Definition tooLong (p : path) : bool := (maxDepth env <? length p)%nat.

Fixpoint mkdirs (dirs : list path) (m : gmap path Node)
  : option (gmap path Node) :=
  match dirs with
  | [] => Some m
  | d :: rest =>
      match m !! d with
      | Some (Dir _) => mkdirs rest m
      | Some _ => None
      | None => mkdirs rest (<[d := Dir (created env)]> m)
      end
  end.

(** [fs.mkdir(p, { recursive: true })] *)
Definition fsMkdir (p : path) : M unit :=
  guard (SysMkdir p) ;;
  fun w =>
    if tooLong p
    then Throw ("ENAMETOOLONG: name too long, " +:+ showSyscall (SysMkdir p)) w
    else match mkdirs (ancestors p ++ [p]) (fs w) with
         | Some m => Ok tt (setFs m w)
         | None => Throw ("EEXIST: file already exists, "
                          +:+ showSyscall (SysMkdir p)) w
         end.

Definition readSource (m : gmap path Node) (src : path) : option string :=
  match m !! src with
  | Some (File _ data) => Some data
  | Some (Link t) =>
      match resolve env t with
      | Some (File _ data) => Some data
      | _ => None
      end
  | _ => None
  end.

(** [fs.copyFile(src, dest)]. Writing through a link at [dest] is
    outside the store and is reported as an error. Reading the source
    leaves its entry in the store as it is: the access time that the kernel
    may move on a read is not followed. *)
Definition fsCopyFile (src dest : path) : M unit :=
  guard (SysCopyFile src dest) ;;
  fun w =>
    let op := showSyscall (SysCopyFile src dest) in
    match readSource (fs w) src with
    | None => Throw ("ENOENT: no such file or directory, " +:+ op) w
    | Some data =>
        if tooLong dest then Throw ("ENAMETOOLONG: name too long, " +:+ op) w
        else if negb (isDirectory (fs w) (dirname dest))
        then Throw ("ENOENT: no such file or directory, " +:+ op) w
        else match fs w !! dest with
             | Some (Dir _) =>
                 Throw ("EISDIR: illegal operation on a directory, " +:+ op) w
             | Some (Link _) =>
                 Throw ("EPERM: operation not permitted, " +:+ op) w
             | _ => Ok tt (setFs (<[dest := File (created env) data]> (fs w)) w)
             end
    end.

(** [fs.stat(p)] *)
Definition fsStat (p : path) : M Stats :=
  guard (SysStat p) ;;
  fun w =>
    let missing :=
      Throw ("ENOENT: no such file or directory, " +:+ showSyscall (SysStat p)) w in
    match fs w !! p with
    | Some (File st _) => Ok st w
    | Some (Dir st) => Ok st w
    | Some (Link t) =>
        match resolve env t with
        | Some (File st _) => Ok st w
        | Some (Dir st) => Ok st w
        | _ => missing
        end
    | None => missing
    end.

Definition update (s : Syscall) (p : path) (f : Node -> Node) : M unit :=
  guard s ;;
  fun w =>
    match fs w !! p with
    | Some n => Ok tt (setFs (<[p := f n]> (fs w)) w)
    | None => Throw ("ENOENT: no such file or directory, " +:+ showSyscall s) w
    end.

(** [fs.utimes(p, atime, mtime)] and [fs.chmod(p, mode)] *)
Definition fsUtimes (p : path) (a m : Z) : M unit :=
  update (SysUtimes p) p (setTimes a m).
Definition fsChmod (p : path) (md : Z) : M unit :=
  update (SysChmod p) p (setMode md).

(** [fs.readdir(p, { withFileTypes: true })] *)
Definition fsReaddir (p : path) : M (list Dirent) :=
  guard (SysReaddir p) ;;
  fun w =>
    if isDirectory (fs w) p then Ok (entriesOf (fs w) p) w
    else match fs w !! p with
         | None =>
             Throw ("ENOENT: no such file or directory, "
                    +:+ showSyscall (SysReaddir p)) w
         | Some _ =>
             Throw ("ENOTDIR: not a directory, " +:+ showSyscall (SysReaddir p)) w
         end.

(** [fs.rm(p, { recursive: true, force: true })] *)
Definition fsRm (p : path) : M unit :=
  guard (SysRm p) ;;
  fun w =>
    Ok tt (setFs (filter (fun kn : path * Node => isPrefix p kn.1 = false) (fs w)) w).

(** [fs.symlink(target, p)] *)
Definition fsSymlink (target : string) (p : path) : M unit :=
  guard (SysSymlink p) ;;
  fun w =>
    let op := showSyscall (SysSymlink p) in
    match fs w !! p with
    | Some _ => Throw ("EEXIST: file already exists, " +:+ op) w
    | None =>
        if isDirectory (fs w) (dirname p)
        then Ok tt (setFs (<[p := Link target]> (fs w)) w)
        else Throw ("ENOENT: no such file or directory, " +:+ op) w
    end.

(** [fs.readFile(p, 'utf8')] *)
Definition fsReadFile (p : path) : M string :=
  guard (SysReadFile p) ;;
  fun w =>
    match readSource (fs w) p with
    | Some data => Ok data w
    | None => Throw ("ENOENT: no such file or directory, "
                     +:+ showSyscall (SysReadFile p)) w
    end.

(** [fs.unlink(p)] *)
Definition fsUnlink (p : path) : M unit :=
  guard (SysUnlink p) ;;
  fun w =>
    let op := showSyscall (SysUnlink p) in
    match fs w !! p with
    | Some (Dir _) => Throw ("EPERM: operation not permitted, " +:+ op) w
    | Some _ => Ok tt (setFs (delete p (fs w)) w)
    | None => Throw ("ENOENT: no such file or directory, " +:+ op) w
    end.

(** [fs.access(p)] *)
Definition fsAccess (p : path) : M unit :=
  guard (SysAccess p) ;;
  fun w =>
    match fs w !! p with
    | Some _ => Ok tt w
    | None => Throw ("ENOENT: no such file or directory, "
                     +:+ showSyscall (SysAccess p)) w
    end.

(** [stdio: 'inherit']: what the child writes goes to the terminal of the
    script as it is. *)
Definition inheritStdio (child : Child) : M unit :=
  fun w => Ok tt (mkWorld (fs w)
                          (console w ++ map (fun line => (CHILD, line)) (written child))).

(** [new Promise] around [spawn]: resolves when the child closes with
    code 0, rejects otherwise. *)
Definition awaitChild (what : string) (r : SpawnResult) : M unit :=
  match r with
  | Close (Some 0) => ret tt
  | Close code => throw (what +:+ " failed with code " +:+ showCode code)
  | SpawnError message => throw message
  end.

(** *** [createGitignoreFilter] *)

Definition staticRules : list Rule :=
  map createRule ["build"; "src/quartz"; ".git"; "**/.git"; "build.js"].

Definition createGitignoreFilter : M (list Rule) :=
  let ig := staticRules in
  tryCatch
    (gitignoreContent <- fsReadFile [".gitignore"] ;;
     ret (ig ++ parse gitignoreContent))
    (fun _ =>
       consoleWarn "Could not read .gitignore, using default exclusions" ;;
       ret ig).

(** [ignoreFilter && ignoreFilter.ignores(relativePath)] *)
Definition excluded (ignoreFilter : option (list Rule)) (relativePath : path) : bool :=
  match ignoreFilter with
  | Some ig => ignores (glob env) ig relativePath
  | None => false
  end.

(** *** [copyFile] *)

Definition copyFile (src dest : path) : M unit :=
  tryCatch
    (fsMkdir (dirname dest) ;;
     fsCopyFile src dest ;;
     stats <- fsStat src ;;
     fsUtimes dest (atime stats) (mtime stats) ;;
     fsChmod dest (mode stats) ;;
     when (verbose env) (consoleLog ("Copied " +:+ showPath src)))
    (fun message =>
       consoleWarn ("Warning: Could not copy " +:+ showPath src
                    +:+ ": " +:+ message)).

(** *** [copyDirectory] *)

Definition couldNotCopyDirectory (src : path) (message : string) : M unit :=
  consoleWarn ("Warning: Could not copy directory " +:+ showPath src
               +:+ ": " +:+ message).

(** [room] counts the directory levels the platform still accepts below
    [dest]. When there is none left, the call for a sub-directory fails
    in its first statement, [fs.mkdir], and its own [catch] logs the
    warning. *)
Fixpoint copyDirectoryIn (room : nat) (src dest : path)
         (ignoreFilter : option (list Rule)) : M unit :=
  tryCatch
    (fsMkdir dest ;;
     dirStats <- fsStat src ;;
     fsUtimes dest (atime dirStats) (mtime dirStats) ;;
     fsChmod dest (mode dirStats) ;;
     entries <- fsReaddir src ;;
     forEach entries (fun entry =>
       let srcPath := src ++ [name entry] in
       let relativePath := srcPath in
       if excluded ignoreFilter relativePath then ret tt
       else
         let destPath := dest ++ [name entry] in
         if isDir entry then
           match room with
           | S room' => copyDirectoryIn room' srcPath destPath ignoreFilter
           | O => tryCatch (fsMkdir destPath) (couldNotCopyDirectory srcPath)
           end
         else copyFile srcPath destPath))
    (couldNotCopyDirectory src).

Definition copyDirectory (src dest : path) (ignoreFilter : option (list Rule))
  : M unit :=
  copyDirectoryIn (maxDepth env - length dest) src dest ignoreFilter.

(** *** [mirrorWorkspace] *)

Definition createGitLink : M unit :=
  let gitSymlinkPath := [BUILD_DIR; ".git"] in
  if win32 env then
    match ended (spawn env "cmd"
                       ["/c"; "mklink"; "/J"; showPath gitSymlinkPath; gitTargetPath env]
                       []) with
    | Close (Some 0) =>
        fun w => Ok tt (setFs (<[gitSymlinkPath := Link (gitTargetPath env)]> (fs w)) w)
    | r => awaitChild "mklink" r
    end
  else fsSymlink "../.git" gitSymlinkPath.

Definition mirrorWorkspace : M unit :=
  consoleLog "Mirroring workspace to build directory..." ;;
  tryCatch (fsRm [BUILD_DIR]) (fun _ => ret tt) ;;
  fsMkdir [BUILD_DIR] ;;
  tryCatch
    (createGitLink ;;
     consoleLog "Created git symlink for accurate file dates")
    (fun message =>
       consoleWarn ("Warning: Could not create git symlink: " +:+ message)) ;;
  ignoreFilter <- createGitignoreFilter ;;
  copyDirectory [] [BUILD_DIR] (Some ignoreFilter) ;;
  consoleLog "Workspace mirrored to build/".

(** *** [copyCustomizations] *)

Definition copyCustomizations : M unit :=
  let targetMsg := if noBuildDir env then "quartz_repo" else "build/quartz_repo" in
  consoleLog ("Copying customizations from src/ to " +:+ targetMsg +:+ "...") ;;
  let srcDir := if noBuildDir env then ["src"] else [BUILD_DIR; "src"] in
  let quartzRepoDir :=
    if noBuildDir env then ["quartz_repo"] else [BUILD_DIR; "quartz_repo"] in
  tryCatch
    (srcEntries <- fsReaddir srcDir ;;
     forEach srcEntries (fun entry =>
       let srcPath := srcDir ++ [name entry] in
       if String.eqb (name entry) "quartz"
          || String.eqb (name entry) "quartz_overrides"
       then ret tt
       else if isDir entry then
         let destPath := quartzRepoDir ++ [name entry] in
         copyDirectory srcPath destPath None
       else
         let destPath := quartzRepoDir ++ [name entry] in
         copyFile srcPath destPath) ;;
     tryCatch
       (fsAccess (srcDir ++ ["quartz_overrides"]) ;;
        overridesEntries <- fsReaddir (srcDir ++ ["quartz_overrides"]) ;;
        forEach overridesEntries (fun entry =>
          let srcPath := srcDir ++ ["quartz_overrides"; name entry] in
          let destPath := quartzRepoDir ++ ["quartz"; name entry] in
          if isDir entry then copyDirectory srcPath destPath None
          else (fsMkdir (dirname destPath) ;; copyFile srcPath destPath)) ;;
        let overrideTarget :=
          if noBuildDir env then "quartz_repo/quartz/"
          else "build/quartz_repo/quartz/" in
        consoleLog ("Copied quartz_overrides/ to " +:+ overrideTarget))
       (fun _ => ret tt))
    (fun message =>
       consoleError ("Error copying customizations: " +:+ message) ;;
       throw message).

(** *** [installDependencies] and [runQuartzBuild] *)

Definition installDependencies (cwd : path) : M unit :=
  consoleLog ("Installing dependencies in " +:+ showPath cwd +:+ "...") ;;
  let child := spawn env "npm" ["install"] cwd in
  inheritStdio child ;;
  awaitChild "npm install" (ended child).

Definition runQuartzBuild : M unit :=
  consoleLog "
Running Quartz build..." ;;
  let cwd := if noBuildDir env then ["quartz_repo"] else [BUILD_DIR; "quartz_repo"] in
  installDependencies cwd ;;
  let contentDir := "../content" in
  let nodeCommand :=
    if serve env && watch env
    then ["quartz/bootstrap-cli.mjs"; "build"; "--serve"; "-d"; contentDir]
    else if serve env
    then ["quartz/bootstrap-cli.mjs"; "build"; "--serve"; "-d"; contentDir]
    else if watch env
    then ["quartz/bootstrap-cli.mjs"; "build"; "-d"; contentDir]
    else ["quartz/bootstrap-cli.mjs"; "build"; "-d"; contentDir] in
  let child := spawn env "node" nodeCommand cwd in
  inheritStdio child ;;
  awaitChild "Quartz build" (ended child).

(** *** [setupWatcher]: the change watcher *)

(** The events chokidar passes to the [all] listener. *)
Inductive FsEvent := EvAdd | EvAddDir | EvChange | EvUnlink | EvUnlinkDir.

Definition eventName (event : FsEvent) : string :=
  match event with
  | EvAdd => "add"
  | EvAddDir => "addDir"
  | EvChange => "change"
  | EvUnlink => "unlink"
  | EvUnlinkDir => "unlinkDir"
  end.

(** A pending [setTimeout]: when it is due (in milliseconds) and the
    [event] and [filePath] its closure captured. *)
Record Timer := mkTimer { due : nat; event : FsEvent; filePath : path }.

Record Watcher := mkWatcher {
  ignoreFilter : list Rule;
  isReady : bool;
  debounceTimer : option Timer
}.

Definition setupWatcher : M Watcher :=
  consoleLog "Setting up file watcher for workspace changes..." ;;
  ignoreFilter <- createGitignoreFilter ;;
  ret (mkWatcher ignoreFilter false None).

(** The [ignored] option given to chokidar. *)
Definition ignored (wt : Watcher) (p : path) : bool :=
  match p with
  | [] => false
  | _ => ignores (glob env) (ignoreFilter wt) p
  end.

(** [watcher.on('ready', ...)] *)
Definition onReady (wt : Watcher) : M Watcher :=
  consoleLog "File watcher ready - monitoring for changes..." ;;
  ret (mkWatcher (ignoreFilter wt) true (debounceTimer wt)).

(** [filePath.startsWith('src/')] *)
Definition startsWithSrc (filePath : path) : bool :=
  match filePath with
  | "src" :: _ :: _ => true
  | _ => false
  end.

(** The body of the debounced callback, for the [event] and [filePath]
    of the listener call that armed the timer. *)
Definition syncChanges (event : FsEvent) (filePath : path) : M unit :=
  tryCatch
    (consoleLog "Syncing workspace changes to build directory..." ;;
     match event with
     | EvChange | EvAdd =>
         let buildPath := BUILD_DIR :: filePath in
         copyFile filePath buildPath ;;
         when (startsWithSrc filePath)
              (consoleLog "Source file changed, updating customizations in quartz_repo..." ;;
               copyCustomizations)
     | EvUnlink =>
         let buildPath := BUILD_DIR :: filePath in
         tryCatch
           (fsUnlink buildPath ;;
            consoleLog ("Removed " +:+ showPath buildPath))
           (fun _ => ret tt) ;;
         when (startsWithSrc filePath)
              (consoleLog "Source file removed, updating customizations in quartz_repo..." ;;
               copyCustomizations)
     | _ => ret tt
     end)
    (fun message => consoleError ("Error syncing changes: " +:+ message)).

(** [watcher.on('all', (event, filePath) => ...)] called at time [now]:
    [clearTimeout] drops the pending timer, [setTimeout] arms a new one
    for this call's [event] and [filePath]. *)
Definition onAll (now : nat) (event : FsEvent) (filePath : path) (wt : Watcher)
  : M Watcher :=
  when (verbose env
        || (isReady wt
            && match event with
               | EvChange | EvAdd | EvUnlink => true
               | _ => false
               end))
       (consoleLog (eventName event +:+ ": " +:+ showPath filePath)) ;;
  if negb (isReady wt) then ret wt
  else ret (mkWatcher (ignoreFilter wt) (isReady wt)
                      (Some (mkTimer (now + 500) event filePath))).

(** What reaches the watcher: the end of the initial scan, or a file
    system event on a path. *)
Inductive Input :=
| ScanDone
| Changed (event : FsEvent) (filePath : path).

(** The event loop runs a timer that is due before it handles what
    arrives at time [now]. *)
Definition fireDue (now : nat) (wt : Watcher) : M Watcher :=
  match debounceTimer wt with
  | Some t =>
      if (due t <=? now)%nat
      then syncChanges (event t) (filePath t) ;;
           ret (mkWatcher (ignoreFilter wt) (isReady wt) None)
      else ret wt
  | None => ret wt
  end.

Definition deliver (now : nat) (i : Input) (wt : Watcher) : M Watcher :=
  wt' <- fireDue now wt ;;
  match i with
  | ScanDone => onReady wt'
  | Changed event filePath =>
      if ignored wt' filePath then ret wt'
      else onAll now event filePath wt'
  end.

Fixpoint runWatcher (inputs : list (nat * Input)) (wt : Watcher) : M Watcher :=
  match inputs with
  | [] => ret wt
  | (now, i) :: rest => wt' <- deliver now i wt ;; runWatcher rest wt'
  end.

(** Nothing more arrives: the pending timer, if any, expires. *)
Definition expire (wt : Watcher) : M Watcher :=
  match debounceTimer wt with
  | Some t =>
      syncChanges (event t) (filePath t) ;;
      ret (mkWatcher (ignoreFilter wt) (isReady wt) None)
  | None => ret wt
  end.

(** *** [main] *)

(** How the process stands when [main] is over: it called
    [process.exit(code)], or [main] returned. *)
Inductive Outcome :=
| Exited (code : Z)
| Returned.

Definition main (w : World) : World * Outcome :=
  match
    (when (negb (noBuildDir env)) mirrorWorkspace ;;
     copyCustomizations ;;
     when ((watch env || serve env) && negb (noBuildDir env))
          (_ <- setupWatcher ;; ret tt) ;;
     runQuartzBuild ;;
     when (negb (watch env) && negb (serve env))
          (consoleLog "
Build completed!")) w
  with
  | Ok _ w' => (w', Returned)
  | Throw message w' =>
      (print ERROR ("Build failed: " +:+ message) w', Exited 1)
  end.
End Script.
End Build.

(** ** Content nodes of the render pipeline *)

Module Quartz.

(** Frontmatter values, and what [JSON.stringify] is given. A finite number
    is [JNum]; [JNaN] and [JInfinity] are the numbers that a YAML document
    can hold ([.nan], [.inf], [-.inf]) and that JSON cannot. *)
Inductive Json :=
| JNull
| JBool (b : bool)
| JNum (n : Z)
| JNaN
| JInfinity (negative : bool)
| JStr (s : string)
| JArr (items : list Json)
| JObj (fields : list (string * Json)).

Record Dates := mkDates { created : Z; modified : Z; published : Z }.

Record TocEntry := mkTocEntry { depth : Z; text : string; anchor : string }.

Abbreviation Slug := (list string).

(** [QuartzPluginData], the [data] of a processed file. Every file of the
    collection carries its slug. *)
Record QuartzPluginData := mkData {
  slug : Slug;
  frontmatter : option (gmap string Json);
  dates : option Dates;
  toc : option (list TocEntry);
  description : option string
}.

Inductive DateType := DCreated | DModified | DPublished.

Record GlobalConfiguration := mkCfg {
  locale : string;
  defaultDateType : DateType
}.

(** [configuration] of [quartz.config.ts], as far as it is read here. *)
Definition configuration : GlobalConfiguration := mkCfg "en-US" DModified.

(** [data.dates?.[cfg.defaultDateType]], read through [getTime]. *)
Definition getDate (cfg : GlobalConfiguration) (d : Dates) : Z :=
  match defaultDateType cfg with
  | DCreated => created d
  | DModified => modified d
  | DPublished => published d
  end.

(** A node of the site trie; [D] is what the trie stores for a file. *)
Inductive FileTrieNode (D : Type) :=
  mkNode (isFolder : bool) (displayName : string) (nodeSlug : Slug)
         (data : option D) (children : list (FileTrieNode D)).
Arguments mkNode {D} isFolder displayName nodeSlug data children.

Definition isFolder {D} (n : FileTrieNode D) : bool :=
  let '(mkNode b _ _ _ _) := n in b.
Definition displayName {D} (n : FileTrieNode D) : string :=
  let '(mkNode _ s _ _ _) := n in s.
Definition nodeSlug {D} (n : FileTrieNode D) : Slug :=
  let '(mkNode _ _ s _ _) := n in s.
Definition data {D} (n : FileTrieNode D) : option D :=
  let '(mkNode _ _ _ d _) := n in d.
Definition children {D} (n : FileTrieNode D) : list (FileTrieNode D) :=
  let '(mkNode _ _ _ _ c) := n in c.

(** A number as the comparators subtract it: a finite value, NaN, or an
    infinity. *)
Inductive Number :=
| Finite (n : Z)
| NaN
| Infinity (negative : bool).

(** [typeof v === 'number'] on an optional field. *)
Definition asNumber (v : option Json) : option Number :=
  match v with
  | Some (JNum n) => Some (Finite n)
  | Some JNaN => Some NaN
  | Some (JInfinity negative) => Some (Infinity negative)
  | _ => None
  end.

(** [a - b] where a comparator returns it, as [Array.prototype.sort] reads
    the result: NaN counts as 0, and of an infinite difference the sign is
    kept. *)
Definition subtract (a b : Number) : Z :=
  match a, b with
  | Finite x, Finite y => x - y
  | NaN, _ => 0
  | _, NaN => 0
  | Infinity s, Infinity t => if Bool.eqb s t then 0 else if s then -1 else 1
  | Infinity s, Finite _ => if s then -1 else 1
  | Finite _, Infinity t => if t then 1 else -1
  end.

(** [JSON.parse(JSON.stringify(v))]: NaN and the infinities come back as
    null. *)
Fixpoint viaJson (v : Json) : Json :=
  match v with
  | JNaN => JNull
  | JInfinity _ => JNull
  | JArr items => JArr (map viaJson items)
  | JObj fields => JObj (map (fun '(key, value) => (key, viaJson value)) fields)
  | _ => v
  end.

Definition field (key : string) (fm : option (gmap string Json)) : option Json :=
  match fm with
  | Some m => m !! key
  | None => None
  end.

(** [frontmatter?.title]; a title is a string by the type of
    frontmatter. *)
Definition titleOf (fm : option (gmap string Json)) : option string :=
  match field "title" fm with
  | Some (JStr s) => Some s
  | _ => None
  end.

(** [array.sort(compare)]: the stable sort of the language. *)
Fixpoint insertSorted {A} (compare : A -> A -> Z) (x : A) (l : list A) : list A :=
  match l with
  | [] => [x]
  | y :: rest =>
      if compare x y <=? 0 then x :: y :: rest
      else y :: insertSorted compare x rest
  end.

Definition sort {A} (compare : A -> A -> Z) (l : list A) : list A :=
  foldr (insertSorted compare) [] l.

(** [set.add(x)] on a [Set] kept in insertion order. *)
Definition setAdd (set : list Slug) (x : Slug) : list Slug :=
  if bool_decide (x ∈ set) then set else set ++ [x].

(** [new Set(items)] *)
Definition newSet (items : list Slug) : list Slug := fold_left setAdd items [].

(** [object[key] = value] on an object whose properties are kept in the
    order in which they were created; [entries] below gives the order in
    which they are listed. *)
Fixpoint setKey {V} (key : Slug) (value : V) (object : list (Slug * V))
  : list (Slug * V) :=
  match object with
  | [] => [(key, value)]
  | (k, v) :: rest =>
      if bool_decide (k = key) then (k, value) :: rest
      else (k, v) :: setKey key value rest
  end.

(** [Object.fromEntries(entries)] *)
Definition fromEntries {V} (entries : list (Slug * V)) : list (Slug * V) :=
  fold_left (fun object kv => setKey kv.1 kv.2 object) entries [].

(** The value of a numeral: decimal digits, most significant first. *)
Fixpoint digitsValue (digits : string) (value : N) : option N :=
  match digits with
  | EmptyString => Some value
  | String c rest =>
      let code := N_of_ascii c in
      if ((48 <=? code) && (code <=? 57))%N
      then digitsValue rest (10 * value + (code - 48))%N
      else None
  end.

(** Whether a key is an array index, and which: the canonical numeral (no
    sign, no leading zero) of an integer from 0 to 2^32 - 2. A slug of more
    than one segment has a slash in it and is none. *)
Definition arrayIndex (key : Slug) : option N :=
  match key with
  | [String "0" EmptyString] => Some 0%N
  | [String c rest] =>
      if Ascii.eqb c "0" then None
      else match digitsValue (String c rest) 0 with
           | Some value => if (value <=? 4294967294)%N then Some value else None
           | None => None
           end
  | _ => None
  end.

(** [Object.entries(object)]: the keys that are array indices first, in
    ascending order, then the other keys in the order in which they were
    created. *)
Definition entries {V} (object : list (Slug * V)) : list (Slug * V) :=
  map snd
      (sort (fun a b : N * (Slug * V) => Z.of_N a.1 - Z.of_N b.1)
            (omap (fun kv : Slug * V => (fun i => (i, kv)) <$> arrayIndex kv.1) object))
  ++ filter (fun kv : Slug * V => arrayIndex kv.1 = None) object.

Fixpoint getKey {V} (key : Slug) (object : list (Slug * V)) : option V :=
  match object with
  | [] => None
  | (k, v) :: rest => if bool_decide (k = key) then Some v else getKey key rest
  end.

End Quartz.

(** ** The folder page emitter *)

Module FolderPage.
Import Quartz.

Section Sorting.
(** Helpers of the framework ([util/path]) and of the language runtime,
    taken as they come. *)
Variable isFolderPath : Slug -> bool.
Variable toLowerCase : string -> string.
Variable localeCompare : string -> string -> Z.

Definition bySortOrderAndAlphabetical (cfg : GlobalConfiguration)
           (f1 f2 : QuartzPluginData) : Z :=
  let f1SortOrder := field "sortorder" (frontmatter f1) in
  let f2SortOrder := field "sortorder" (frontmatter f2) in
  let f1IsFolder := isFolderPath (slug f1) in
  let f2IsFolder := isFolderPath (slug f2) in
  if f1IsFolder && negb f2IsFolder then -1
  else if negb f1IsFolder && f2IsFolder then 1
  else
    match asNumber f1SortOrder, asNumber f2SortOrder with
    | Some n1, Some n2 => subtract n1 n2
    | Some _, None => -1
    | None, Some _ => 1
    | None, None =>
        match dates f1, dates f2 with
        | Some d1, Some d2 => getDate cfg d2 - getDate cfg d1
        | Some _, None => -1
        | None, Some _ => 1
        | None, None =>
            let f1Title := default "" (toLowerCase <$> titleOf (frontmatter f1)) in
            let f2Title := default "" (toLowerCase <$> titleOf (frontmatter f2)) in
            localeCompare f1Title f2Title
        end
    end.

(** [allFiles.sort(sortFn)] of [CustomPageList], with the default
    comparator. *)
Definition sortedPages (cfg : GlobalConfiguration) (allFiles : list QuartzPluginData)
  : list QuartzPluginData :=
  sort (bySortOrderAndAlphabetical cfg) allFiles.
End Sorting.

(** *** The rows of a folder listing ([FolderContent]) *)

Definition later (a b : Z) : Z := if a >? b then a else b.

(** One turn of the loop of [getMostRecentDates]. *)
Definition mostRecentStep (maybeDates : option Dates)
           (child : FileTrieNode QuartzPluginData) : option Dates :=
  match data child with
  | Some d =>
      match dates d with
      | Some cd =>
          match maybeDates with
          | None => Some cd
          | Some md =>
              Some (mkDates (later (created cd) (created md))
                            (later (modified cd) (modified md))
                            (later (published cd) (published md)))
          end
      | None => maybeDates
      end
  | None => maybeDates
  end.

Section Rows.
(** [new Date()] on lines 190 to 192. In this file [Date] is the component
    imported on line 24 from the framework, the one the listing renders a
    date with, and not the constructor of the language: the call reads no
    clock. [newDate] is what constructing that component without props
    gives as a date, if anything; [None] when the call throws. *)
Variable newDate : option Z.

(** [maybeDates ?? { created: new Date(), modified: new Date(),
    published: new Date() }]; [None] when evaluating the fallback
    throws. *)
Definition getMostRecentDates (node : FileTrieNode QuartzPluginData) : option Dates :=
  match fold_left mostRecentStep (children node) None with
  | Some maybeDates => Some maybeDates
  | None =>
      created ← newDate;
      modified ← newDate;
      published ← newDate;
      Some (mkDates created modified published)
  end.

(** The synthetic file of a folder that has no data. *)
Definition syntheticFile (node : FileTrieNode QuartzPluginData)
  : option QuartzPluginData :=
  dates ← getMostRecentDates node;
  Some (mkData (nodeSlug node)
               (Some {[ "title" := JStr (displayName node); "tags" := JArr [] ]})
               (Some dates)
               None None).

(** [folder.children.map(...).filter((page) => page !== undefined)];
    [None] when making a row throws. *)
Definition allPagesInFolder (showSubfolders : bool)
           (folder : FileTrieNode QuartzPluginData) : option (list QuartzPluginData) :=
  pages ← mapM (fun node =>
                  match data node with
                  | Some d => Some (Some d)
                  | None =>
                      if isFolder node && showSubfolders
                      then Some <$> syntheticFile node
                      else Some None
                  end)
               (children folder);
  Some (omap id pages).
End Rows.

(** *** The emitter *)

(** The loop of [_getFolders]: every turn takes the parent once more;
    [turns] bounds the turns by the length of the folder name, which each
    turn shortens. *)
Fixpoint parentFolderNames (turns : nat) (folderName : Slug) : list Slug :=
  match turns, folderName with
  | S turns', _ :: _ =>
      let folderName' := dirname folderName in
      folderName' :: parentFolderNames turns' folderName'
  | _, _ => []
  end.

Definition _getFolders (slug : Slug) : list Slug :=
  let folderName := dirname slug in
  folderName :: parentFolderNames (length folderName) folderName.

(** [_getFolders(slug).filter(name => name !== "." && name !== "tags")] *)
Definition foldersOf (slug : Slug) : list Slug :=
  filter (fun folderName => folderName ≠ [] ∧ folderName ≠ ["tags"])
         (_getFolders slug).

Inductive ChangeType := Added | Changed | Deleted.

Record ChangeEvent := mkChange {
  changeType : ChangeType;
  changePath : string;
  file : option QuartzPluginData
}.

(** What [write] is asked to put on disk. *)
Record Page (Html : Type) := mkPage {
  pageSlug : Slug;
  ext : string;
  content : Html
}.
Arguments mkPage {Html} pageSlug ext content.
Arguments pageSlug {Html} _.
Arguments ext {Html} _.
Arguments content {Html} _.

Section Emitter.
Context {Tree Html : Type}.

(** Collaborators of the framework, taken as they come:
    [defaultProcessedContent], [stripSlashes (simplifySlug slug)],
    [joinSegments], the label [i18n(locale).pages.folderContent.folder]
    and the rendering of one page ([pageResources] and [renderPage] for
    the layout and resources of this emitter). *)
Variable defaultProcessedContent : QuartzPluginData -> Tree * QuartzPluginData.
Variable simplify : Slug -> Slug.
Variable joinSegments : Slug -> string -> Slug.
Variable folderLabel : string -> string.
Variable renderPage :
  GlobalConfiguration -> Slug -> Tree -> QuartzPluginData ->
  list QuartzPluginData -> Html.

Abbreviation ProcessedContent := (Tree * QuartzPluginData)%type.

(** The description of a folder that has no content of its own. *)
Definition defaultFolder (locale : string) (folder : Slug) : ProcessedContent :=
  defaultProcessedContent
    (mkData (joinSegments folder "index")
            (Some {[ "title" := JStr (folderLabel locale +:+ ": " +:+ showPath folder);
                     "tags" := JArr [] ]})
            None None None).

Definition computeFolderInfo (folders : list Slug) (content : list ProcessedContent)
           (locale : string) : list (Slug * ProcessedContent) :=
  let folderInfo :=
    fromEntries (map (fun folder => (folder, defaultFolder locale folder)) folders) in
  fold_left
    (fun folderInfo (c : ProcessedContent) =>
       let slug := simplify (slug c.2) in
       if bool_decide (slug ∈ folders) then setKey slug c folderInfo
       else folderInfo)
    content folderInfo.

Definition processFolderInfo (cfg : GlobalConfiguration)
           (folderInfo : list (Slug * ProcessedContent))
           (allFiles : list QuartzPluginData) : list (Page Html) :=
  map (fun entry : Slug * ProcessedContent =>
         let '(folder, (tree, file)) := entry in
         let slug := joinSegments folder "index" in
         mkPage slug ".html" (renderPage cfg slug tree file allFiles))
      (entries folderInfo).

(** The folder set of a full pass. *)
Definition allFolders (allFiles : list QuartzPluginData) : list Slug :=
  newSet (flat_map (fun data =>
                      match slug data with
                      | [] => []
                      | _ => foldersOf (slug data)
                      end)
                   allFiles).

Definition emit (cfg : GlobalConfiguration) (content : list ProcessedContent)
  : list (Page Html) :=
  let allFiles := map snd content in
  let folders := allFolders allFiles in
  let folderInfo := computeFolderInfo folders content (locale cfg) in
  processFolderInfo cfg folderInfo allFiles.

(** The folder set of an incremental pass. *)
Definition affectedFolders (changeEvents : list ChangeEvent) : list Slug :=
  fold_left
    (fun affected changeEvent =>
       match file changeEvent with
       | None => affected
       | Some f => fold_left setAdd (foldersOf (slug f)) affected
       end)
    changeEvents [].

Definition partialEmit (cfg : GlobalConfiguration) (content : list ProcessedContent)
           (changeEvents : list ChangeEvent) : list (Page Html) :=
  let allFiles := map snd content in
  let affected := affectedFolders changeEvents in
  if (0 <? length affected)%nat then
    let folderInfo := computeFolderInfo affected content (locale cfg) in
    processFolderInfo cfg folderInfo allFiles
  else [].
End Emitter.
End FolderPage.

(** ** The comparator of the navigation tree ([custom-explorer.inline.ts]) *)

Module Explorer.
Import Quartz.

Section Sorting.
Context {ContentDetails : Type}.

(** [frontmatterCache], filled from [static/frontmatterIndex.json]. *)
Variable frontmatterCache : gmap Slug (gmap string Json).
(** [localeCompare] with [numeric: true] and [sensitivity: "base"]. *)
Variable localeCompareBase : string -> string -> Z.
(** The subtraction of the language on operands that are not both
    finite numbers, as the sort reads its result. *)
Variable coerceMinus : Json -> Json -> Z.

Definition getSortOrder (node : FileTrieNode ContentDetails) : option Json :=
  if isFolder node then None
  else
    match field "sortorder" (frontmatterCache !! nodeSlug node) with
    | Some JNull => None
    | v => v
    end.

Definition minus (a b : Json) : Z :=
  match a, b with
  | JNum x, JNum y => x - y
  | _, _ => coerceMinus a b
  end.

Definition customSortFn (a b : FileTrieNode ContentDetails) : Z :=
  let aSortOrder := getSortOrder a in
  let bSortOrder := getSortOrder b in
  if (negb (isFolder a) && negb (isFolder b)) || (isFolder a && isFolder b) then
    match aSortOrder, bSortOrder with
    | Some x, Some y => minus x y
    | Some _, None => -1
    | None, Some _ => 1
    | None, None => localeCompareBase (displayName a) (displayName b)
    end
  else if negb (isFolder a) && isFolder b then 1
  else -1.
End Sorting.
End Explorer.

(** ** The frontmatter index emitter *)

Module FrontmatterIndex.
Import Quartz.

Definition tocJson (toc : list TocEntry) : Json :=
  JArr (map (fun e => JObj [("depth", JNum (depth e));
                            ("text", JStr (text e));
                            ("slug", JStr (anchor e))])
            toc).

(** What [write] is asked to put on disk; [content] is the object given
    to [JSON.stringify]. *)
Record IndexFile := mkIndexFile {
  fileSlug : Slug;
  ext : string;
  content : gmap Slug (gmap string Json)
}.

Section Emitter.
Context {Tree : Type}.
Variable joinSegments : string -> string -> Slug.

(** [Object.keys(frontmatter).length > 0 || toc.length > 0], with
    [frontmatter = file.data.frontmatter || {}] and
    [toc = file.data.toc || []]. *)
Definition included (file : QuartzPluginData) : bool :=
  let frontmatter := default ∅ (frontmatter file) in
  let toc := default [] (toc file) in
  (0 <? size frontmatter)%nat || (0 <? length toc)%nat.

(** [{ ...frontmatter, toc: toc }] *)
Definition entryOf (file : QuartzPluginData) : gmap string Json :=
  let frontmatter := default ∅ (frontmatter file) in
  let toc := default [] (toc file) in
  <["toc" := tocJson toc]> frontmatter.

(** One turn of the loop over [content]. *)
Definition indexStep (frontmatterIndex : gmap Slug (gmap string Json))
           (c : Tree * QuartzPluginData) : gmap Slug (gmap string Json) :=
  let file := c.2 in
  let slug := slug file in
  if included file
  then <[slug := entryOf file]> frontmatterIndex
  else frontmatterIndex.

(** The object the loop builds. *)
Definition frontmatterIndexOf (content : list (Tree * QuartzPluginData))
  : gmap Slug (gmap string Json) :=
  fold_left indexStep content ∅.

Definition emit (content : list (Tree * QuartzPluginData)) : list IndexFile :=
  let frontmatterIndex := frontmatterIndexOf content in
  let fp := joinSegments "static" "frontmatterIndex" in
  [mkIndexFile fp ".json" frontmatterIndex].
End Emitter.

(** What a reader of the written file gets:
    [JSON.parse(JSON.stringify(frontmatterIndex))]. *)
Definition served (frontmatterIndex : gmap Slug (gmap string Json))
  : gmap Slug (gmap string Json) :=
  (fun entry : gmap string Json => viaJson <$> entry) <$> frontmatterIndex.
End FrontmatterIndex.

(** ** Stand-ins for the framework helpers and the language runtime

    Used to run the definitions above on concrete inputs. *)

Module Runtime.
Import Quartz.

(** [isFolderPath] of [util/path] on segments: the slug ends in a slash
    (its last segment is empty) or in [index], [index.md],
    [index.html]. *)
Definition isFolderPath (s : Slug) : bool :=
  match last s with
  | Some seg =>
      String.eqb seg "" || String.eqb seg "index"
      || String.eqb seg "index.md" || String.eqb seg "index.html"
  | None => false
  end.

(** [stripSlashes (simplifySlug slug)]: a trailing [index] segment is
    dropped. *)
Definition simplify (s : Slug) : Slug :=
  match last s with
  | Some "index" => removelast s
  | _ => s
  end.

(** [joinSegments] on a list of segments and one more segment. *)
Definition joinSegments (folder : Slug) (segment : string) : Slug :=
  folder ++ [segment].

Definition joinTwo (a b : string) : Slug := [a; b].

(** [defaultProcessedContent]: an empty tree and a file with the given
    data; the tree is not looked at here. *)
Definition defaultProcessedContent (d : QuartzPluginData) : unit * QuartzPluginData :=
  (tt, d).

Definition folderLabel (locale : string) : string := "Folder".

(** A page as the list of what went into it. *)
Definition renderPage (cfg : GlobalConfiguration) (slug : Slug) (tree : unit)
           (file : QuartzPluginData) (allFiles : list QuartzPluginData)
  : Slug * QuartzPluginData * list QuartzPluginData :=
  (slug, file, allFiles).

Definition lowerChar (c : ascii) : ascii :=
  let n := nat_of_ascii c in
  if (65 <=? n)%nat && (n <=? 90)%nat then ascii_of_nat (n + 32) else c.

(** [toLowerCase] on ASCII text. *)
Fixpoint toLowerCase (s : string) : string :=
  match s with
  | EmptyString => EmptyString
  | String c rest => String (lowerChar c) (toLowerCase rest)
  end.

(** [localeCompare] as the comparison of code units. *)
Definition localeCompare (a b : string) : Z :=
  match String.compare a b with
  | Lt => -1
  | Eq => 0
  | Gt => 1
  end.

Definition coerceMinus (a b : Json) : Z := 0.

(** [new Date()] with the framework's [Date] component, which takes its
    props apart on entry: constructed without props it throws. *)
Definition newDate : option Z := None.
End Runtime.

(** ** The ordering, the folder dates and the folder pages in the words of
    the specification *)

Module Stated.
Import Quartz.

Section Chain.
Variable isFolderPath : Slug -> bool.
Variable toLowerCase : string -> string.
Variable localeCompare : string -> string -> Z.

Definition sortOrderOf (f : QuartzPluginData) : option Number :=
  asNumber (field "sortorder" (frontmatter f)).

Definition nameOf (f : QuartzPluginData) : string :=
  default "" (toLowerCase <$> titleOf (frontmatter f)).

(** Folders before files. *)
Definition byKind (f1 f2 : QuartzPluginData) : Z :=
  match isFolderPath (slug f1), isFolderPath (slug f2) with
  | true, false => -1
  | false, true => 1
  | _, _ => 0
  end.

(** Sort orders ascending; a node with a sort order before one
    without. *)
Definition bySortOrder (f1 f2 : QuartzPluginData) : Z :=
  match sortOrderOf f1, sortOrderOf f2 with
  | Some n1, Some n2 => subtract n1 n2
  | Some _, None => -1
  | None, Some _ => 1
  | None, None => 0
  end.

(** Among nodes without a sort order: dated before undated, the more
    recent [modified] date first. *)
Definition byDates (f1 f2 : QuartzPluginData) : Z :=
  match sortOrderOf f1, sortOrderOf f2 with
  | None, None =>
      match dates f1, dates f2 with
      | Some d1, Some d2 => modified d2 - modified d1
      | Some _, None => -1
      | None, Some _ => 1
      | None, None => 0
      end
  | _, _ => 0
  end.

(** Case-insensitive comparison of the names. *)
Definition byName (f1 f2 : QuartzPluginData) : Z :=
  localeCompare (nameOf f1) (nameOf f2).

(** [a] decides unless it ties; then [b] breaks the tie. *)
Definition orElse (a b : Z) : Z := if a =? 0 then b else a.

(** The precedence chain as stated: every criterion breaks the ties of
    the ones before it, the name being the final tie-break. *)
Definition precedenceChain (f1 f2 : QuartzPluginData) : Z :=
  orElse (byKind f1 f2)
         (orElse (bySortOrder f1 f2)
                 (orElse (byDates f1 f2) (byName f1 f2))).

(** The chain of the comparator: a criterion that applies to the pair
    decides alone, also when it ties; the name is compared only when
    neither node has a sort order or dates. *)
Definition decidingCriterion (f1 f2 : QuartzPluginData) : Z :=
  if negb (byKind f1 f2 =? 0) then byKind f1 f2
  else if bool_decide (is_Some (sortOrderOf f1) ∨ is_Some (sortOrderOf f2))
  then bySortOrder f1 f2
  else if bool_decide (is_Some (dates f1) ∨ is_Some (dates f2))
  then byDates f1 f2
  else byName f1 f2.
End Chain.

(** The sort order is a number when it is there, as the explorer
    declares it ([sortorder?: number]). *)
Definition sortOrderTyped (f : QuartzPluginData) : bool :=
  match field "sortorder" (frontmatter f) with
  | None | Some JNull | Some (JNum _) => true
  | Some _ => false
  end.

(** Folder dates as stated: the most recent values among the direct
    children, a child folder without dates of its own counting with its
    synthesized dates. [None] when no child carries dates. *)
Definition merge (a b : option Dates) : option Dates :=
  match a, b with
  | Some x, Some y =>
      Some (mkDates (Z.max (created x) (created y))
                    (Z.max (modified x) (modified y))
                    (Z.max (published x) (published y)))
  | Some x, None => Some x
  | None, y => y
  end.

Fixpoint recursiveDates (node : FileTrieNode QuartzPluginData) : option Dates :=
  let '(mkNode _ _ _ _ kids) := node in
  foldr (fun child acc =>
           let own :=
             match data child with
             | Some d => dates d
             | None => None
             end in
           let childDates :=
             match own with
             | Some d => Some d
             | None => if isFolder child then recursiveDates child else None
             end in
           merge childDates acc)
        None kids.

(** [child.data?.dates] *)
Definition ownDates (child : FileTrieNode QuartzPluginData) : option Dates :=
  match data child with
  | Some d => dates d
  | None => None
  end.

(** The most recent values among the children that carry dates
    themselves. *)
Definition directDates (node : FileTrieNode QuartzPluginData) : option Dates :=
  foldr (fun child acc => merge (ownDates child) acc) None (children node).

(** The page of one folder, as a full pass gives it: rendered from the
    content file whose simplified slug is the folder (the last one, should
    there be several), or else from the default description of the
    folder. *)
Section FolderPages.
Context {Tree Html : Type}.
Variable defaultProcessedContent : QuartzPluginData -> Tree * QuartzPluginData.
Variable simplify : Slug -> Slug.
Variable joinSegments : Slug -> string -> Slug.
Variable folderLabel : string -> string.
Variable renderPage :
  GlobalConfiguration -> Slug -> Tree -> QuartzPluginData ->
  list QuartzPluginData -> Html.

Definition folderContent (locale : string) (content : list (Tree * QuartzPluginData))
           (folder : Slug) : Tree * QuartzPluginData :=
  fold_left
    (fun current (c : Tree * QuartzPluginData) =>
       if bool_decide (simplify (slug c.2) = folder) then c else current)
    content
    (FolderPage.defaultFolder defaultProcessedContent joinSegments folderLabel
                              locale folder).

Definition folderPage (cfg : GlobalConfiguration)
           (content : list (Tree * QuartzPluginData)) (folder : Slug)
  : FolderPage.Page Html :=
  let c := folderContent (locale cfg) content folder in
  let slug := joinSegments folder "index" in
  FolderPage.mkPage slug ".html" (renderPage cfg slug c.1 c.2 (map snd content)).
End FolderPages.
End Stated.

(** ** Sample inputs *)

Module Samples.
Import Quartz.

(** 2024-01-01 and 2023-01-01, in milliseconds. *)
Definition jan2024 : Z := 1704067200000.
Definition jan2023 : Z := 1672531200000.

(** The files [a/x.md] (sortorder 2), [a/y.md] (sortorder 1) and [a/z.md]
    (no sortorder, modified 2024-01-01); [x] and [y] are older than
    [z]. *)
Definition fileX : QuartzPluginData :=
  mkData ["a"; "x"] (Some {[ "title" := JStr "x"; "sortorder" := JNum 2 ]})
         (Some (mkDates jan2023 jan2023 jan2023)) None None.
Definition fileY : QuartzPluginData :=
  mkData ["a"; "y"] (Some {[ "title" := JStr "y"; "sortorder" := JNum 1 ]})
         (Some (mkDates jan2023 jan2023 jan2023)) None None.
Definition fileZ : QuartzPluginData :=
  mkData ["a"; "z"] (Some {[ "title" := JStr "z" ]})
         (Some (mkDates jan2024 jan2024 jan2024)) None None.

(** Two files with the same sort order. *)
Definition tieB : QuartzPluginData :=
  mkData ["a"; "b"] (Some {[ "title" := JStr "B side"; "sortorder" := JNum 1 ]})
         None None None.
Definition tieA : QuartzPluginData :=
  mkData ["a"; "a"] (Some {[ "title" := JStr "A side"; "sortorder" := JNum 1 ]})
         None None None.

(** A folder [a] whose only child is the folder [a/b], neither with an
    index file; [a/b] holds the file [a/b/c]. *)
Definition leafC : FileTrieNode QuartzPluginData :=
  mkNode false "c" ["a"; "b"; "c"]
         (Some (mkData ["a"; "b"; "c"] (Some {[ "title" := JStr "c" ]})
                       (Some (mkDates jan2023 jan2024 jan2023)) None None))
         [].
Definition folderB : FileTrieNode QuartzPluginData :=
  mkNode true "b" ["a"; "b"; "index"] None [leafC].
Definition folderA : FileTrieNode QuartzPluginData :=
  mkNode true "a" ["a"; "index"] None [folderB].

(** Two files without sort order: [a/b] is the more recent, [a/a] comes
    first by name. *)
Definition newer : QuartzPluginData :=
  mkData ["a"; "b"] (Some {[ "title" := JStr "b" ]})
         (Some (mkDates jan2024 jan2024 jan2024)) None None.
Definition older : QuartzPluginData :=
  mkData ["a"; "a"] (Some {[ "title" := JStr "a" ]})
         (Some (mkDates jan2023 jan2023 jan2023)) None None.
Definition nodeNewer : FileTrieNode QuartzPluginData :=
  mkNode false "b" ["a"; "b"] (Some newer) [].
Definition nodeOlder : FileTrieNode QuartzPluginData :=
  mkNode false "a" ["a"; "a"] (Some older) [].
Definition twoFiles : list (unit * QuartzPluginData) := [(tt, newer); (tt, older)].

(** The sample files [x], [y], [z] as a collection and as trie nodes. *)
Definition threeFiles : list (unit * QuartzPluginData) :=
  [(tt, fileX); (tt, fileY); (tt, fileZ)].
Definition nodeX : FileTrieNode QuartzPluginData :=
  mkNode false "x" ["a"; "x"] (Some fileX) [].
Definition nodeZ : FileTrieNode QuartzPluginData :=
  mkNode false "z" ["a"; "z"] (Some fileZ) [].

(** A file whose frontmatter has a field named [toc]. *)
Definition heading : TocEntry := mkTocEntry 1 "Overview" "overview".
Definition tocFile : QuartzPluginData :=
  mkData ["guide"] (Some {[ "title" := JStr "Guide"; "toc" := JBool true ]})
         None (Some [heading]) None.

(** A collection of a file with frontmatter and headings and a file with
    neither. *)
Definition bare : QuartzPluginData := mkData ["bare"] None None None None.
Definition indexed : list (unit * QuartzPluginData) := [(tt, tocFile); (tt, bare)].

(** The last file of the folder [docs] was deleted: the collection is
    empty and the change event carries the deleted file. *)
Definition deleted : QuartzPluginData :=
  mkData ["docs"; "intro"] (Some {[ "title" := JStr "Intro" ]}) None None None.
Definition lastFileDeleted : list FolderPage.ChangeEvent :=
  [FolderPage.mkChange FolderPage.Deleted "docs/intro.md" (Some deleted)].

(** A collection with [docs/guide/intro] and [docs/index], and a change of
    the former. *)
Definition intro : QuartzPluginData :=
  mkData ["docs"; "guide"; "intro"] (Some {[ "title" := JStr "Intro" ]}) None None None.
Definition docsIndex : QuartzPluginData :=
  mkData ["docs"; "index"] (Some {[ "title" := JStr "Docs" ]}) None None None.
Definition docs : list (unit * QuartzPluginData) := [(tt, intro); (tt, docsIndex)].
Definition introChanged : list FolderPage.ChangeEvent :=
  [FolderPage.mkChange FolderPage.Changed "docs/guide/intro.md" (Some intro)].

(** A workspace whose ignore file re-includes the build directory. *)
Definition plain : Build.Stats := Build.mkStats 0 0 420.
Definition quiet : Build.Env :=
  Build.mkEnv false false false false false "/work/.git" Ignore.literalGlob
              (fun _ => false) 32%nat (Build.mkStats 7 7 493)
              (fun _ => None) (fun _ _ _ => Build.mkChild [] (Build.Close (Some 0))).
Definition reincluding : Build.World :=
  Build.mkWorld
    (list_to_map [([], Build.Dir plain);
                  ([".gitignore"], Build.File plain "!build
");
                  (["a.md"], Build.File plain "A")])
    [].

(** A workspace with an ignore file, two pages, a customization and a
    secret. *)
Definition workspace : Build.World :=
  Build.mkWorld
    (list_to_map [([], Build.Dir plain);
                  ([".git"], Build.Dir plain);
                  ([".git"; "HEAD"], Build.File plain "ref: refs/heads/main");
                  ([".gitignore"], Build.File plain "secrets
");
                  (["a.md"], Build.File plain "A");
                  (["b.md"], Build.File plain "B");
                  (["src"], Build.Dir plain);
                  (["src"; "x.ts"], Build.File plain "X");
                  (["secrets"], Build.Dir plain);
                  (["secrets"; "key.txt"], Build.File plain "K")])
    [].

(** [npm install] ends with exit code 2. *)
Definition npmFails : Build.Env :=
  Build.mkEnv false false false false false "/work/.git" Ignore.literalGlob
              (fun _ => false) 32%nat (Build.mkStats 7 7 493) (fun _ => None)
              (fun command _ _ =>
                 if String.eqb command "npm"
                 then Build.mkChild ["npm ERR! code E404"] (Build.Close (Some 2))
                 else Build.mkChild [] (Build.Close (Some 0))).

(** The ignore file cannot be read, the link cannot be made and [a.md] is
    locked. *)
Definition flaky : Build.Env :=
  Build.mkEnv false false false false false "/work/.git" Ignore.literalGlob
              (fun call =>
                 match call with
                 | Build.SysReadFile [".gitignore"] => true
                 | Build.SysSymlink _ => true
                 | Build.SysCopyFile ["a.md"] _ => true
                 | _ => false
                 end)
              32%nat (Build.mkStats 7 7 493) (fun _ => None)
              (fun _ _ _ => Build.mkChild [] (Build.Close (Some 0))).

(** The build directory cannot be cleaned. *)
Definition stuck : Build.Env :=
  Build.mkEnv false false false false false "/work/.git" Ignore.literalGlob
              (fun call =>
                 match call with
                 | Build.SysRm _ => true
                 | _ => false
                 end)
              32%nat (Build.mkStats 7 7 493) (fun _ => None)
              (fun _ _ _ => Build.mkChild [] (Build.Close (Some 0))).

(** A workspace with what an earlier pass left in the build directory. *)
Definition dirty : Build.World :=
  Build.mkWorld
    (list_to_map [([], Build.Dir plain);
                  ([".gitignore"], Build.File plain "secrets
");
                  (["a.md"], Build.File plain "A");
                  (["build"], Build.Dir plain);
                  (["build"; "secrets"], Build.Dir plain);
                  (["build"; "secrets"; "key.txt"], Build.File plain "K")])
    [].

(** A mirrored workspace in which [a.md] and [b.md] were edited since. *)
Definition edited : Build.World :=
  Build.mkWorld
    (list_to_map [([], Build.Dir plain);
                  (["a.md"], Build.File plain "A2");
                  (["b.md"], Build.File plain "B2");
                  (["build"], Build.Dir plain);
                  (["build"; "a.md"], Build.File plain "A1");
                  (["build"; "b.md"], Build.File plain "B1")])
    [].

Definition ready : Build.Watcher := Build.mkWatcher Build.staticRules true None.

(** Both files are saved within 100 milliseconds. *)
Definition twoSaves : list (nat * Build.Input) :=
  [(0%nat, Build.Changed Build.EvChange ["a.md"]);
   (100%nat, Build.Changed Build.EvChange ["b.md"])].
End Samples.

(** ** Reasoning about the script *)

Module Effects.
Import Build.
Local Open Scope script_scope.

(** The world a computation leaves, whether it resolved or rejected. *)
Definition worldOf {A} (r : Res A) : World :=
  match r with
  | Ok _ w => w
  | Throw _ w => w
  end.

(** Whatever [c] does to a world, the world it leaves is related to the one
    it found by [R]. *)
Definition respects {A} (R : relation World) (c : M A) : Prop :=
  forall w, R w (worldOf (c w)).

(** [c] never rejects. *)
Definition resolves {A} (c : M A) : Prop :=
  forall w, exists a w', c w = Ok a w'.

(** The store of [w'] differs from the store of [w] at most at the paths in
    [Q]. *)
Definition touches (Q : path -> Prop) (w w' : World) : Prop :=
  forall q, fs w' !! q = fs w !! q \/ Q q.

(** [if (verbose) console.log(msg)] as a change of the world. *)
Definition print_if (b : bool) (msg : string) (w : World) : World :=
  if b then print LOG msg w else w.

(** The console of [w'] continues the one of [w]. *)
Definition continues (w w' : World) : Prop :=
  exists lines, console w' = console w ++ lines.

(** What a walk from [src] to [dest] may write: [dest] and the directories
    above it, and below [dest] the copies of what the filter does not
    exclude. *)
Definition walked (env : Env) (ignoreFilter : option (list Ignore.Rule))
           (src dest : path) (q : path) : Prop :=
  isPrefix q dest = true
  \/ exists rel, rel ≠ [] /\ q = dest ++ rel
                 /\ excluded env ignoreFilter (src ++ rel) = false.

(** The world after [mirrorWorkspace] announced itself and cleaned the
    build directory, and the statements of [mirrorWorkspace] that follow. *)
Definition cleaned (w : World) : World :=
  mkWorld (filter (fun kn : path * Node => isPrefix [BUILD_DIR] kn.1 = false) (fs w))
          (console w ++ [(LOG, "Mirroring workspace to build directory...")]).

Definition linkStep (env : Env) : M unit :=
  tryCatch
    (createGitLink env ;;
     consoleLog "Created git symlink for accurate file dates")
    (fun message =>
       consoleWarn ("Warning: Could not create git symlink: " +:+ message)).

(** Making the build directory succeeds: the platform does not refuse it
    and no file is in the way. *)
Definition buildDirCanBeMade (env : Env) (w : World) : Prop :=
  faulty env (SysMkdir [BUILD_DIR]) = false
  /\ (1 <= maxDepth env)%nat
  /\ forall n, fs w !! [BUILD_DIR] = Some n -> exists st, n = Dir st.

Definition afterClean (env : Env) : M unit :=
  fsMkdir env [BUILD_DIR] ;;
  linkStep env ;;
  ignoreFilter <- createGitignoreFilter env ;;
  copyDirectory env [] [BUILD_DIR] (Some ignoreFilter) ;;
  consoleLog "Workspace mirrored to build/".

(** The matcher [createGitignoreFilter] compiles in a world. *)
Definition compiledMatcher (env : Env) (w : World) : list Ignore.Rule :=
  match createGitignoreFilter env w with
  | Ok ig _ => ig
  | Throw _ _ => staticRules
  end.

(** The ignore file cannot be read. *)
Definition unreadable (env : Env) (w : World) : Prop :=
  faulty env (SysReadFile [".gitignore"]) = true
  \/ readSource env (fs w) [".gitignore"] = None.

(** The statements of [main] before [runQuartzBuild]. *)
Definition beforeBuild (env : Env) : M unit :=
  when (negb (noBuildDir env)) (mirrorWorkspace env) ;;
  copyCustomizations env ;;
  when ((watch env || serve env) && negb (noBuildDir env))
       (_ <- setupWatcher env ;; ret tt).

(** The two children of [runQuartzBuild]. *)
Definition quartzRepo (env : Env) : path :=
  if noBuildDir env then ["quartz_repo"] else [BUILD_DIR; "quartz_repo"].

Definition installChild (env : Env) : Child :=
  spawn env "npm" ["install"] (quartzRepo env).

Definition quartzChild (env : Env) : Child :=
  spawn env "node"
        (if serve env && watch env
         then ["quartz/bootstrap-cli.mjs"; "build"; "--serve"; "-d"; "../content"]
         else if serve env
         then ["quartz/bootstrap-cli.mjs"; "build"; "--serve"; "-d"; "../content"]
         else if watch env
         then ["quartz/bootstrap-cli.mjs"; "build"; "-d"; "../content"]
         else ["quartz/bootstrap-cli.mjs"; "build"; "-d"; "../content"])
        (quartzRepo env).

(** The synchronization passes that ran, by the line each one logs
    first. *)
Definition startsPass (line : Level * string) : bool :=
  match line with
  | (LOG, text) => String.eqb text "Syncing workspace changes to build directory..."
  | _ => false
  end.

Definition passes (w : World) : nat :=
  length (List.filter startsPass (console w)).

(** A burst: changes on paths the watcher does not ignore, each arriving
    before the timer armed by the one before is due ([limit] is when the
    pending timer is due). *)
Fixpoint burstWithin (env : Env) (wt : Watcher) (limit : nat)
         (inputs : list (nat * Input)) : Prop :=
  match inputs with
  | [] => True
  | (now, Changed event filePath) :: rest =>
      (now < limit)%nat /\ ignored env wt filePath = false
      /\ burstWithin env wt (now + 500) rest
  | (_, ScanDone) :: _ => False
  end.

(** The timer that is pending after the listener handled [inputs], when
    [pending] was pending before and none of them was dropped. *)
Definition armedBy (inputs : list (nat * Input)) (pending : option Timer)
  : option Timer :=
  fold_left
    (fun pending (input : nat * Input) =>
       match input.2 with
       | Changed event filePath => Some (mkTimer (input.1 + 500) event filePath)
       | ScanDone => pending
       end)
    inputs pending.
End Effects.

(** ** Notions for the further properties of the script *)

Module Frames.
Import Build Effects.

(** The store of [w'] differs from the store of [w] at most at and below
    [D], and at directories above [D] that were missing in [w]. *)
Definition madeOrBelow (D : path) (w w' : World) : Prop :=
  forall q, fs w' !! q = fs w !! q
            \/ isPrefix D q = true
            \/ (fs w !! q = None /\ q ∈ ancestors D).

(** No system call fails for reasons of the platform. *)
Definition noFaults (env : Env) : Prop := forall s, faulty env s = false.

(** What is at a path is a regular file with the bytes [data] and with the
    modification time and the mode of [st]. Its access time is left open:
    [copyFile] takes it from the source after it has read the source, and
    whether reading a file moves its access time is up to the kernel, whose
    bookkeeping the store does not follow. *)
Definition copyOf (st : Stats) (data : string) (found : option Node) : Prop :=
  exists accessed, found = Some (File (mkStats accessed (mtime st) (mode st)) data).

(** [quartzRepoDir] and [srcDir] of [copyCustomizations]. *)
Definition srcDir (env : Env) : path :=
  if noBuildDir env then ["src"] else [BUILD_DIR; "src"].
End Frames.

Module Walk.
Import Build Effects Frames.
Local Open Scope script_scope.

(** The body of the loop of [copyDirectory], for one entry. *)
Definition entryStep (env : Env) (room : nat) (src dest : path)
           (ignoreFilter : option (list Ignore.Rule)) (entry : Dirent) : M unit :=
  let srcPath := src ++ [name entry] in
  if excluded env ignoreFilter srcPath then ret tt
  else
    let destPath := dest ++ [name entry] in
    if isDir entry then
      match room with
      | S room' => copyDirectoryIn env room' srcPath destPath ignoreFilter
      | O => tryCatch (fsMkdir env destPath) (couldNotCopyDirectory srcPath)
      end
    else copyFile env srcPath destPath.

(** Nothing that is not a directory is in the way of making [q] a
    directory. *)
Definition freeOrDir (w : World) (q : path) : bool :=
  match fs w !! q with
  | None | Some (Dir _) => true
  | Some _ => false
  end.

(** Nothing that is not a regular file is in the way of writing the file
    [q]. *)
Definition freeOrFile (w : World) (q : path) : bool :=
  match fs w !! q with
  | None | Some (File _ _) => true
  | Some _ => false
  end.
End Walk.

Module Outcomes.
Import Build Effects Frames.
Local Open Scope script_scope.

(** [c] rejects in the world [w]. *)
Definition rejects {A} (c : M A) (w : World) : Prop :=
  exists message w', c w = Throw message w'.

(** The line [copyCustomizations] logs first. *)
Definition copyingLine (env : Env) : string :=
  "Copying customizations from src/ to "
  +:+ (if noBuildDir env then "quartz_repo" else "build/quartz_repo") +:+ "...".

(** What [copyCustomizations] does with the entries of the source
    directory. *)
Definition customize (env : Env) (srcEntries : list Dirent) : M unit :=
  forEach srcEntries (fun entry =>
    let srcPath := srcDir env ++ [name entry] in
    if String.eqb (name entry) "quartz"
       || String.eqb (name entry) "quartz_overrides"
    then ret tt
    else if isDir entry then
      let destPath := quartzRepo env ++ [name entry] in
      copyDirectory env srcPath destPath None
    else
      let destPath := quartzRepo env ++ [name entry] in
      copyFile env srcPath destPath) ;;
  tryCatch
    (fsAccess env (srcDir env ++ ["quartz_overrides"]) ;;
     overridesEntries <- fsReaddir env (srcDir env ++ ["quartz_overrides"]) ;;
     forEach overridesEntries (fun entry =>
       let srcPath := srcDir env ++ ["quartz_overrides"; name entry] in
       let destPath := quartzRepo env ++ ["quartz"; name entry] in
       if isDir entry then copyDirectory env srcPath destPath None
       else (fsMkdir env (dirname destPath) ;; copyFile env srcPath destPath)) ;;
     let overrideTarget :=
       if noBuildDir env then "quartz_repo/quartz/"
       else "build/quartz_repo/quartz/" in
     consoleLog ("Copied quartz_overrides/ to " +:+ overrideTarget))
    (fun _ => ret tt).
End Outcomes.

Module Passes.
Import Build Effects Frames.
Local Open Scope script_scope.

(** The line every synchronization pass logs first. *)
Definition syncingLine : Level * string :=
  (LOG, "Syncing workspace changes to build directory...").

(** The world [mirrorWorkspace] makes the build directory in: it announced
    itself and tried to remove what an earlier pass left. *)
Definition afterRm (env : Env) (w : World) : World :=
  worldOf ((consoleLog "Mirroring workspace to build directory..." ;;
            tryCatch (fsRm env [BUILD_DIR]) (fun _ => ret tt)) w).

(** The line the [all] listener logs for an event once the watcher is
    ready. *)
Definition logEvent (env : Env) (event : FsEvent) (filePath : path) : M unit :=
  when (verbose env
        || match event with
           | EvChange | EvAdd | EvUnlink => true
           | _ => false
           end)
       (consoleLog (eventName event +:+ ": " +:+ showPath filePath)).

(** The world in which [mirrorWorkspace] tries to make the link: the build
    directory was cleaned, as far as that went, and made. *)
Definition linkWorld (env : Env) (w : World) : World :=
  worldOf (fsMkdir env [BUILD_DIR] (afterRm env w)).

(** The [try] block of [copyFile] in two halves: the directory of the
    destination is made and the bytes are copied; then the times and the
    mode of the source are carried over. *)
Definition copyBytes (env : Env) (src dest : path) : M unit :=
  fsMkdir env (dirname dest) ;; fsCopyFile env src dest.

Definition carryOver (env : Env) (src dest : path) : M unit :=
  stats <- fsStat env src ;;
  fsUtimes env dest (atime stats) (mtime stats) ;;
  fsChmod env dest (mode stats) ;;
  when (verbose env) (consoleLog ("Copied " +:+ showPath src)).

(** The warning of [copyFile]. *)
Definition couldNotCopy (src : path) (message : string) : Level * string :=
  (WARN, "Warning: Could not copy " +:+ showPath src +:+ ": " +:+ message).

(** The arguments [runQuartzBuild] passes to [node]. *)
Definition quartzArgs (serve : bool) : list string :=
  ["quartz/bootstrap-cli.mjs"; "build"]
  ++ (if serve then ["--serve"] else [])
  ++ ["-d"; "../content"].
End Passes.

Module MoreSamples.
(** The script run with [--no-build-dir]. *)
Definition inPlace : Build.Env :=
  Build.mkEnv false false true false false "/work/.git" Ignore.literalGlob
              (fun _ => false) 32%nat (Build.mkStats 7 7 493)
              (fun _ => None) (fun _ _ _ => Build.mkChild [] (Build.Close (Some 0))).

(** The mode of [build/a.md] cannot be set. *)
Definition modeRefused : Build.Env :=
  Build.mkEnv false false false false false "/work/.git" Ignore.literalGlob
              (fun call =>
                 match call with
                 | Build.SysChmod ["build"; "a.md"] => true
                 | _ => false
                 end)
              32%nat (Build.mkStats 7 7 493) (fun _ => None)
              (fun _ _ _ => Build.mkChild [] (Build.Close (Some 0))).

(** A workspace whose ignore file excludes the directory [secrets] by a
    directory pattern. *)
Definition slashed : Build.World :=
  Build.mkWorld
    (list_to_map [([], Build.Dir Samples.plain);
                  ([".gitignore"], Build.File Samples.plain "secrets/
");
                  (["a.md"], Build.File Samples.plain "A");
                  (["secrets"], Build.Dir Samples.plain);
                  (["secrets"; "key.txt"], Build.File Samples.plain "K")])
    [].

(** The node of the file [a/y]. *)
Definition nodeY : Quartz.FileTrieNode Quartz.QuartzPluginData :=
  Quartz.mkNode false "y" ["a"; "y"] (Some Samples.fileY) [].

(** A folder [a] with the file [a/x] (all dates 2023-01-01) and the folder
    [a/b], which has no index file and holds the file [a/b/c] (modified
    2024-01-01). *)
Definition mixed : Quartz.FileTrieNode Quartz.QuartzPluginData :=
  Quartz.mkNode true "a" ["a"; "index"] None [Samples.nodeX; Samples.folderB].

(** A folder [top] whose only child is the folder [top/a]; no child of
    [top/a] carries dates, its only child being a folder without an index
    file. *)
Definition inner : Quartz.FileTrieNode Quartz.QuartzPluginData :=
  Quartz.mkNode true "a" ["top"; "a"; "index"] None [Samples.folderB].
Definition outer : Quartz.FileTrieNode Quartz.QuartzPluginData :=
  Quartz.mkNode true "top" ["top"; "index"] None [inner].
End MoreSamples.

(** ** Notions for the further properties of the site plugins *)

Module Sorted.
Import Quartz.

(** Every element of [l] stands in [R] to every element after it. *)
Fixpoint pairwise {A} (R : A -> A -> Prop) (l : list A) : Prop :=
  match l with
  | [] => True
  | x :: rest => Forall (R x) rest /\ pairwise R rest
  end.

(** [compare] orders consistently, as [Array.prototype.sort] expects of its
    argument: swapping the arguments swaps the sign, and coming first or
    equal is transitive. *)
Definition consistent {A} (compare : A -> A -> Z) : Prop :=
  (forall a b, compare a b < 0 <-> 0 < compare b a)
  /\ (forall a b c, compare a b <= 0 -> compare b c <= 0 -> compare a c <= 0).

(** The same of the elements that satisfy [P]. *)
Definition consistentOn {A} (P : A -> Prop) (compare : A -> A -> Z) : Prop :=
  (forall a b, P a -> P b -> (compare a b < 0 <-> 0 < compare b a))
  /\ (forall a b c, P a -> P b -> P c ->
        compare a b <= 0 -> compare b c <= 0 -> compare a c <= 0).

(** The sort order of the page, if it has one, is not NaN. *)
Definition sortable (f : QuartzPluginData) : Prop :=
  asNumber (field "sortorder" (frontmatter f)) ≠ Some NaN.
End Sorted.

Module Dated.
Import Quartz.

(** The dates of the children that carry dates themselves
    ([child.data?.dates]), in the order of the children. *)
Definition datedChildren (node : FileTrieNode QuartzPluginData) : list Dates :=
  omap (fun child => data child ≫= dates) (children node).

(** No field of [d] is more recent than the same field of [r]. *)
Definition notAfter (r d : Dates) : Prop :=
  created d <= created r /\ modified d <= modified r /\ published d <= published r.
End Dated.

Module Folders.
Import Quartz.

(** [folder] lies above the file [slug]: the slug is the folder followed
    by at least one more segment. *)
Definition holds (folder slug : Slug) : Prop :=
  exists rest, rest ≠ [] /\ slug = folder ++ rest.
End Folders.

Module Cached.
Import Quartz.

(** The sort order of a cache entry is a number when it is there, as the
    explorer declares it ([sortorder?: number]). *)
Definition numericSortOrder (entry : gmap string Json) : bool :=
  match entry !! "sortorder" with
  | None | Some JNull | Some (JNum _) => true
  | Some _ => false
  end.

Definition numericSortOrders (frontmatterCache : gmap Slug (gmap string Json)) : Prop :=
  map_Forall (fun _ entry => numericSortOrder entry = true) frontmatterCache.
End Cached.

(** ** The folder state of the explorer ([custom-explorer.inline.ts]) *)

Module ExplorerState.
Import Quartz.

Record FolderState := mkFolderState { path : Slug; collapsed : bool }.

(** What the script keeps between clicks and between pages: the array
    [currentExplorerState] and the item [fileTree] of the local storage,
    the stored text being kept as the array it parses to. *)
Record Store := mkStore {
  currentExplorerState : list FolderState;
  fileTree : option (list FolderState)
}.

(** A folder of the rendered tree: the [folderpath] of its container and
    whether the list of its children has the class [open]. *)
Record FolderView := mkFolderView { folderpath : Slug; isOpen : bool }.

(** [state.find((item) => item.path === folderPath)] *)
Definition findState (state : list FolderState) (folderPath : Slug) : option FolderState :=
  List.find (fun item => bool_decide (path item = folderPath)) state.

(** [currentFolderState.collapsed = isCollapsed] on the item that [find]
    gave, the first one of that path. *)
Fixpoint setCollapsed (state : list FolderState) (folderPath : Slug) (isCollapsed : bool)
  : list FolderState :=
  match state with
  | [] => []
  | item :: rest =>
      if bool_decide (path item = folderPath)
      then mkFolderState (path item) isCollapsed :: rest
      else item :: setCollapsed rest folderPath isCollapsed
  end.

(** [setFolderState]: the class [open] after the call. *)
Definition setFolderState (collapsed : bool) : bool :=
  if collapsed then false else true.

(** [toggleFolder] for a click that reaches a folder of the tree. *)
Definition toggleFolder (view : FolderView) (store : Store) : FolderView * Store :=
  let toggled := negb (isOpen view) in
  let isCollapsed := negb toggled in
  let shown := setFolderState isCollapsed in
  let state :=
    match findState (currentExplorerState store) (folderpath view) with
    | Some _ => setCollapsed (currentExplorerState store) (folderpath view) isCollapsed
    | None => currentExplorerState store ++ [mkFolderState (folderpath view) isCollapsed]
    end in
  (mkFolderView (folderpath view) shown, mkStore state (Some state)).

(** [storageTree && opts.useSavedState ? JSON.parse(storageTree) : []] *)
Definition serializedExplorerState (storageTree : option (list FolderState))
           (useSavedState : bool) : list FolderState :=
  match storageTree with
  | Some tree => if useSavedState then tree else []
  | None => []
  end.

(** [new Map(serializedExplorerState.map(entry => [entry.path, entry.collapsed]))] *)
Definition oldIndex (serialized : list FolderState) : gmap Slug bool :=
  fold_left (fun index entry => <[path entry := collapsed entry]> index) serialized ∅.

(** The state [setupExplorer] computes for the folder paths of the trie;
    [defaultCollapsed] is [opts.folderDefaultState === "collapsed"]. *)
Definition setupState (folderPaths : list Slug) (useSavedState defaultCollapsed : bool)
           (store : Store) : Store :=
  let index := oldIndex (serializedExplorerState (fileTree store) useSavedState) in
  mkStore (map (fun path =>
                  mkFolderState path
                    (match index !! path with
                     | None => defaultCollapsed
                     | Some previousState => previousState
                     end))
               folderPaths)
          (fileTree store).

Section Rendering.
(** [simplifySlug] of [util/path], taken as it comes. *)
Variable simplifySlug : Slug -> string.

(** [simpleFolderPath === currentSlug.slice(0, simpleFolderPath.length)] *)
Definition folderIsPrefixOfCurrentSlug (currentSlug : string) (folderPath : Slug) : bool :=
  let simpleFolderPath := simplifySlug folderPath in
  String.eqb simpleFolderPath
             (String.substring 0 (String.length simpleFolderPath) currentSlug).

(** Whether [createFolderNode] gives the list of children of the folder
    the class [open]. *)
Definition opensFolder (currentSlug : string) (defaultCollapsed : bool) (store : Store)
           (folderPath : Slug) : bool :=
  let isCollapsed :=
    match findState (currentExplorerState store) folderPath with
    | Some item => collapsed item
    | None => defaultCollapsed
    end in
  negb isCollapsed || folderIsPrefixOfCurrentSlug currentSlug folderPath.
End Rendering.
End ExplorerState.


(** ** The frontmatter cache of the explorer ([fetchFrontmatterData]) *)

Module FrontmatterCache.
Import Quartz.

(** What [await fetch(url)] and then [response.json()] can give: the
    request rejects; or there is a response, [ok] or not, whose [json()]
    gives a value or rejects. *)
Inductive Fetched (A : Type) :=
| Rejects (error : string)
| Responds (ok : bool) (json : string + A).
Arguments Rejects {A} error.
Arguments Responds {A} ok json.

(** The page as the function finds it: the [meta] element named
    [frontmatter], if there is one, with what [JSON.parse] makes of its
    content ([None] when it throws), and the key made of the location. *)
Record Document := mkDocument {
  frontmatterMeta : option (option (gmap string Json));
  locationSlug : Slug
}.

Record State := mkState {
  frontmatterCache : gmap Slug (gmap string Json);
  console : list (Build.Level * string)
}.

(** [frontmatterCache.set(slug, data)] *)
Definition cacheSet (slug : Slug) (data : gmap string Json) (s : State) : State :=
  mkState (<[slug := data]> (frontmatterCache s)) (console s).

Definition print (level : Build.Level) (line : string) (s : State) : State :=
  mkState (frontmatterCache s) (console s ++ [(level, line)]).

(** The loop over [Object.entries(frontmatterIndex)]; an object has each
    key once. *)
Definition cacheAll (frontmatterIndex : gmap Slug (gmap string Json)) (s : State) : State :=
  fold_left (fun s (entry : Slug * gmap string Json) => cacheSet entry.1 entry.2 s)
            (map_to_list frontmatterIndex) s.

Definition fetchFrontmatterData (contentIndex : Fetched unit) (document : Document)
           (frontmatterIndex : Fetched (gmap Slug (gmap string Json))) (s : State)
  : State :=
  match contentIndex with
  | Rejects error => print Build.WARN ("Error fetching frontmatter data: " +:+ error) s
  | Responds false _ =>
      print Build.WARN "Could not fetch content index for sortorder data" s
  | Responds true (inl error) =>
      print Build.WARN ("Error fetching frontmatter data: " +:+ error) s
  | Responds true (inr _) =>
      let s :=
        match frontmatterMeta document with
        | Some (Some frontmatter) => cacheSet (locationSlug document) frontmatter s
        | Some None => s
        | None => s
        end in
      match frontmatterIndex with
      | Rejects _ => print Build.LOG "No frontmatter index found, using fallback sorting" s
      | Responds false _ => s
      | Responds true (inl _) =>
          print Build.LOG "No frontmatter index found, using fallback sorting" s
      | Responds true (inr frontmatterIndex) => cacheAll frontmatterIndex s
      end
  end.

(** The content index came: the response is [ok] and its body parses. *)
Definition arrived {A} (response : Fetched A) : bool :=
  match response with
  | Responds true (inr _) => true
  | _ => false
  end.
End FrontmatterCache.

(** * Properties *)

(** ** The default ordering of siblings *)

Section Ordering.
Import Quartz FolderPage Samples.

Variable isFolderPath : Slug -> bool.
Variable toLowerCase : string -> string.
Variable localeCompare : string -> string -> Z.

Lemma comparator_deciding_criterion (f1 f2 : QuartzPluginData) :
  bySortOrderAndAlphabetical isFolderPath toLowerCase localeCompare configuration f1 f2
  = Stated.decidingCriterion isFolderPath toLowerCase localeCompare f1 f2.
Proof.
  unfold bySortOrderAndAlphabetical, Stated.decidingCriterion, Stated.byKind,
    Stated.bySortOrder, Stated.byDates, Stated.byName, Stated.nameOf,
    Stated.sortOrderOf.
  destruct (isFolderPath (slug f1)), (isFolderPath (slug f2)); simpl; try reflexivity.
  all: destruct (asNumber (field "sortorder" (frontmatter f1))) as [n1|],
         (asNumber (field "sortorder" (frontmatter f2))) as [n2|].
  all: try (rewrite bool_decide_eq_true_2 by (first [solve [left; eauto] | solve [right; eauto]]);
            reflexivity).
  all: rewrite bool_decide_eq_false_2
    by (intros [[? ?]|[? ?]]; discriminate).
  all: destruct (dates f1) as [d1|], (dates f2) as [d2|].
  all: try (rewrite bool_decide_eq_true_2 by (first [solve [left; eauto] | solve [right; eauto]]);
            reflexivity).
  all: rewrite bool_decide_eq_false_2
    by (intros [[? ?]|[? ?]]; discriminate); reflexivity.
Qed.
End Ordering.

(** C5, as amended. The comparator is the chain "folders before files; then
    sort order ascending, a node with a sort order before one without; then,
    without sort orders, dated before undated and the more recent modified
    date first; then the lower-cased title", in which the criterion that
    applies to a pair decides alone: two siblings with equal sort orders, or
    with equal modified dates, compare as equal and the title is compared
    only when neither has a sort order or dates. Every arrangement of
    a/x (sortorder 2), a/y (sortorder 1), a/z (no sort order, modified
    2024-01-01) is sorted to y, x, z. *)
Theorem C5_comparator_chain :
  (forall isFolderPath toLowerCase localeCompare f1 f2,
     FolderPage.bySortOrderAndAlphabetical isFolderPath toLowerCase localeCompare
       Quartz.configuration f1 f2
     = Stated.decidingCriterion isFolderPath toLowerCase localeCompare f1 f2)
  /\ Forall (fun l =>
               FolderPage.sortedPages Runtime.isFolderPath Runtime.toLowerCase
                 Runtime.localeCompare Quartz.configuration l
               = [Samples.fileY; Samples.fileX; Samples.fileZ])
            (permutations [Samples.fileX; Samples.fileY; Samples.fileZ]).
Proof.
  split.
  - intros. apply comparator_deciding_criterion.
  - vm_compute. repeat constructor.
Qed.

(** C5 as stated fails: for two files with the same sort order the comparator
    answers 0 and the sort leaves them as they came, where the stated chain
    breaks the tie by name. *)
Lemma C5_counterexample :
  FolderPage.bySortOrderAndAlphabetical Runtime.isFolderPath Runtime.toLowerCase
    Runtime.localeCompare Quartz.configuration Samples.tieB Samples.tieA = 0
  /\ Stated.precedenceChain Runtime.isFolderPath Runtime.toLowerCase
       Runtime.localeCompare Samples.tieB Samples.tieA = 1
  /\ FolderPage.sortedPages Runtime.isFolderPath Runtime.toLowerCase
       Runtime.localeCompare Quartz.configuration [Samples.tieB; Samples.tieA]
     = [Samples.tieB; Samples.tieA].
Proof. vm_compute. repeat split. Qed.

(** ** The compiled matcher *)

Section MatcherFacts.
Import Ignore.
Variable glob : string -> path -> bool -> bool.

Lemma testOne_snoc rules r p d :
  testOne glob (rules ++ [r]) p d
  = if glob (pattern r) p d then negb (negative r) else testOne glob rules p d.
Proof. unfold testOne. rewrite fold_left_app. reflexivity. Qed.

(** A rule set that ends with positive rules ignores what one of them
    matches, whatever comes before. *)
Lemma testOne_positive_tail rules tail p d :
  Forall (fun r => negative r = false) tail ->
  Exists (fun r => glob (pattern r) p d = true) tail ->
  testOne glob (rules ++ tail) p d = true.
Proof.
  induction tail as [|r tail IH] using rev_ind; intros Hpos Hex.
  - inversion Hex.
  - apply Forall_app in Hpos as [Hpos Hr].
    inversion Hr as [|? ? Hneg _]; subst.
    rewrite app_assoc, testOne_snoc, Hneg. simpl.
    destruct (glob (pattern r) p d) eqn:E; [reflexivity|].
    apply IH; [exact Hpos|].
    apply Exists_app in Hex as [Hex|Hex]; [exact Hex|].
    inversion Hex as [? ? Hm|? ? Hm]; subst; [congruence|inversion Hm].
Qed.

(** Were the static rules added after the project rules, no project rule
    could re-include the build directory. *)
Lemma static_rules_last_exclude_build project :
  glob "build" ["build"] false = true ->
  ignores glob (project ++ Build.staticRules) ["build"] = true.
Proof.
  intros Hb. unfold ignores. simpl.
  apply testOne_positive_tail.
  - repeat constructor.
  - constructor. exact Hb.
Qed.

(** As the script adds them, a project rule [!build] is the last rule that
    matches the build directory. *)
Lemma project_rule_reincludes_build :
  glob "build" ["build"] false = true ->
  ignores glob (Build.staticRules ++ parse "!build") ["build"] = false.
Proof.
  intros Hb. unfold ignores.
  change (parse "!build") with [mkRule true "build"].
  rewrite testOne_snoc. simpl. rewrite Hb. reflexivity.
Qed.
End MatcherFacts.

(** C4. The script adds the static rules first and the rules of the ignore
    file after them: with the line [!build] in the ignore file, the compiled
    matcher no longer excludes the build directory nor what is in it. *)
Theorem C4_project_rule_reincludes_build_dir :
  Build.createGitignoreFilter Samples.quiet Samples.reincluding
  = Build.Ok (Build.staticRules ++ [Ignore.mkRule true "build"]) Samples.reincluding
  /\ Ignore.ignores Ignore.literalGlob
       (Build.staticRules ++ [Ignore.mkRule true "build"]) ["build"] = false
  /\ Ignore.ignores Ignore.literalGlob
       (Build.staticRules ++ [Ignore.mkRule true "build"]) ["build"; "index.html"] = false
  /\ Ignore.ignores Ignore.literalGlob
       ([Ignore.mkRule true "build"] ++ Build.staticRules) ["build"] = true.
Proof. vm_compute. repeat split. Qed.

(** ** The frontmatter index *)

Section IndexFacts.
Import Quartz FrontmatterIndex.
Context {Tree : Type}.
Implicit Types (content : list (Tree * QuartzPluginData))
         (index : gmap Slug (gmap string Json)).

Lemma indexStep_other index (c : Tree * QuartzPluginData) s :
  s ≠ slug c.2 -> indexStep index c !! s = index !! s.
Proof.
  intros Hs. unfold indexStep.
  destruct (included c.2); [|reflexivity].
  apply lookup_insert_ne. congruence.
Qed.

Lemma indexStep_at index (c : Tree * QuartzPluginData) :
  indexStep index c !! slug c.2
  = if included c.2 then Some (entryOf c.2) else index !! slug c.2.
Proof.
  unfold indexStep. destruct (included c.2); [|reflexivity].
  apply lookup_insert_eq.
Qed.

Lemma fold_indexStep_other content index s :
  s ∉ map (fun c => slug c.2) content ->
  fold_left indexStep content index !! s = index !! s.
Proof.
  revert index. induction content as [|c content IH]; intros index Hs; [reflexivity|].
  simpl in *. apply not_elem_of_cons in Hs as [Hne Hs].
  rewrite IH by exact Hs. apply indexStep_other, Hne.
Qed.

Lemma fold_indexStep_at content index (c : Tree * QuartzPluginData) :
  NoDup (map (fun c => slug c.2) content) ->
  c ∈ content ->
  fold_left indexStep content index !! slug c.2
  = if included c.2 then Some (entryOf c.2) else index !! slug c.2.
Proof.
  revert index. induction content as [|c' content IH]; intros index Hnd Hin.
  - inversion Hin.
  - simpl in *. apply NoDup_cons in Hnd as [Hfresh Hnd].
    apply elem_of_cons in Hin as [->|Hin].
    + rewrite fold_indexStep_other by exact Hfresh. apply indexStep_at.
    + rewrite IH by assumption.
      destruct (included c.2); [reflexivity|].
      apply indexStep_other. intros Heq. apply Hfresh. rewrite <- Heq.
      apply (list_elem_of_fmap_2 (fun c => slug c.2)). exact Hin.
Qed.

Lemma entryOf_toc (file : QuartzPluginData) :
  entryOf file !! "toc" = Some (tocJson (default [] (toc file))).
Proof. apply lookup_insert_eq. Qed.

Lemma entryOf_field (file : QuartzPluginData) key :
  key ≠ "toc" -> entryOf file !! key = default ∅ (frontmatter file) !! key.
Proof. intros Hk. apply lookup_insert_ne. congruence. Qed.

Lemma included_spec (file : QuartzPluginData) :
  included file = true
  <-> (0 < size (default ∅ (frontmatter file)))%nat
      \/ (0 < length (default [] (toc file)))%nat.
Proof.
  unfold included. rewrite orb_true_iff, !Nat.ltb_lt. reflexivity.
Qed.
End IndexFacts.

(** C10, as amended. The emitter emits exactly one file, the JSON of the
    index at static/frontmatterIndex, and for every file of a collection with
    unique slugs the slug is a key of the index if and only if the frontmatter
    has at least one key or the table of contents is non-empty; the entry then
    holds the table of contents under [toc] and every frontmatter field other
    than one named [toc]. *)
Theorem C10_frontmatter_index {Tree : Type} (joinSegments : string -> string -> Quartz.Slug)
        (content : list (Tree * Quartz.QuartzPluginData)) :
  NoDup (map (fun c => Quartz.slug c.2) content) ->
  FrontmatterIndex.emit joinSegments content
  = [FrontmatterIndex.mkIndexFile (joinSegments "static" "frontmatterIndex") ".json"
       (FrontmatterIndex.frontmatterIndexOf content)]
  /\ Forall
       (fun c =>
          let file := c.2 in
          let frontmatter := default ∅ (Quartz.frontmatter file) in
          let toc := default [] (Quartz.toc file) in
          (is_Some (FrontmatterIndex.frontmatterIndexOf content !! Quartz.slug file)
           <-> (0 < size frontmatter)%nat \/ (0 < length toc)%nat)
          /\ forall entry,
              FrontmatterIndex.frontmatterIndexOf content !! Quartz.slug file = Some entry ->
              entry !! "toc" = Some (FrontmatterIndex.tocJson toc)
              /\ forall key, key ≠ "toc" -> entry !! key = frontmatter !! key)
       content.
Proof.
  intros Hnd. split; [reflexivity|].
  apply Forall_forall. intros c Hc. cbv zeta.
  unfold FrontmatterIndex.frontmatterIndexOf.
  rewrite (fold_indexStep_at content ∅ c Hnd Hc).
  rewrite <- included_spec.
  destruct (FrontmatterIndex.included c.2) eqn:E.
  - split; [split; eauto|].
    intros entry [= <-]. split; [apply entryOf_toc|].
    intros key Hk. apply entryOf_field, Hk.
  - rewrite lookup_empty. split.
    + split; [intros [? ?]; discriminate | discriminate].
    + intros entry [=].
Qed.

(** C10 at a collection of two files, one with frontmatter and headings and
    one with neither. *)
Lemma C10_frontmatter_index_witness :
  NoDup (map (fun c : unit * Quartz.QuartzPluginData => Quartz.slug c.2) Samples.indexed)
  /\ FrontmatterIndex.emit Runtime.joinTwo Samples.indexed
     = [FrontmatterIndex.mkIndexFile ["static"; "frontmatterIndex"] ".json"
          (FrontmatterIndex.frontmatterIndexOf Samples.indexed)]
  /\ Forall
       (fun c : unit * Quartz.QuartzPluginData =>
          let file := c.2 in
          let frontmatter := default ∅ (Quartz.frontmatter file) in
          let toc := default [] (Quartz.toc file) in
          (is_Some (FrontmatterIndex.frontmatterIndexOf Samples.indexed !! Quartz.slug file)
           <-> (0 < size frontmatter)%nat \/ (0 < length toc)%nat)
          /\ forall entry,
              FrontmatterIndex.frontmatterIndexOf Samples.indexed !! Quartz.slug file
              = Some entry ->
              entry !! "toc" = Some (FrontmatterIndex.tocJson toc)
              /\ forall key, key ≠ "toc" -> entry !! key = frontmatter !! key)
       Samples.indexed.
Proof.
  assert (Hnd : NoDup (map (fun c : unit * Quartz.QuartzPluginData => Quartz.slug c.2)
                           Samples.indexed)).
  { simpl. apply NoDup_cons. split; [|apply NoDup_singleton].
    intros H. apply list_elem_of_singleton in H. discriminate. }
  split; [exact Hnd|].
  exact (C10_frontmatter_index Runtime.joinTwo Samples.indexed Hnd).
Defined.

(** C10 as stated fails: the frontmatter of this file has the field
    [toc: true], its entry in the index has the table of contents there
    instead. *)
Lemma C10_counterexample :
  Quartz.frontmatter Samples.tocFile
  = Some {[ "title" := Quartz.JStr "Guide"; "toc" := Quartz.JBool true ]}
  /\ exists entry,
      FrontmatterIndex.frontmatterIndexOf [(tt, Samples.tocFile)] !! ["guide"] = Some entry
      /\ entry !! "toc" = Some (FrontmatterIndex.tocJson [Samples.heading])
      /\ entry !! "toc" ≠ Some (Quartz.JBool true).
Proof.
  split; [reflexivity|].
  eexists. split; [vm_compute; reflexivity|].
  split; [vm_compute; reflexivity|].
  vm_compute. discriminate.
Qed.

(** ** Sets and objects in insertion order *)

Section SortPermutes.
Import Quartz.
Context {A : Type}.
Variable compare : A -> A -> Z.

Lemma insertSorted_Permutation (x : A) (l : list A) :
  insertSorted compare x l ≡ₚ x :: l.
Proof.
  induction l as [|y l IH]; simpl; [reflexivity|].
  destruct (compare x y <=? 0); [reflexivity|].
  rewrite IH. apply Permutation_swap.
Qed.

Lemma sort_Permutation (l : list A) : sort compare l ≡ₚ l.
Proof.
  induction l as [|x l IH]; simpl; [reflexivity|].
  unfold sort in *. simpl. rewrite insertSorted_Permutation, IH. reflexivity.
Qed.
End SortPermutes.

Section InsertionOrder.
Import Quartz.
Context {V : Type}.
Implicit Types (object : list (Slug * V)) (set : list Slug).

(** [Object.entries] lists every property of the object once. *)
Lemma entries_Permutation object : entries object ≡ₚ object.
Proof.
  unfold entries. rewrite sort_Permutation.
  induction object as [|kv object IH]; [reflexivity|].
  cbn [omap list_omap]. rewrite filter_cons.
  destruct (arrayIndex kv.1) as [i|] eqn:E.
  - cbn [fmap option_fmap option_map].
    rewrite decide_False by discriminate.
    cbn [map app snd]. rewrite IH. reflexivity.
  - cbn [fmap option_fmap option_map].
    rewrite decide_True by reflexivity.
    rewrite <- Permutation_middle, IH. reflexivity.
Qed.

Lemma setAdd_NoDup set x : NoDup set -> NoDup (setAdd set x).
Proof.
  intros Hnd. unfold setAdd. case_bool_decide as Hin; [exact Hnd|].
  apply NoDup_app. split; [exact Hnd|]. split.
  - intros y Hy Hy'. apply list_elem_of_singleton in Hy'. subst. contradiction.
  - apply NoDup_singleton.
Qed.

Lemma setAdd_elem set x y : y ∈ setAdd set x <-> y ∈ set \/ y = x.
Proof.
  unfold setAdd. case_bool_decide as Hin.
  - split; [auto|]. intros [H| ->]; assumption.
  - rewrite elem_of_app, list_elem_of_singleton. reflexivity.
Qed.

Lemma fold_setAdd_NoDup items set : NoDup set -> NoDup (fold_left setAdd items set).
Proof.
  revert set. induction items as [|x items IH]; intros set Hnd; [exact Hnd|].
  simpl. apply IH, setAdd_NoDup, Hnd.
Qed.

Lemma fold_setAdd_elem items set y :
  y ∈ fold_left setAdd items set <-> y ∈ set \/ y ∈ items.
Proof.
  revert set. induction items as [|x items IH]; intros set; simpl.
  - rewrite elem_of_nil. tauto.
  - rewrite IH, setAdd_elem, elem_of_cons. tauto.
Qed.

Lemma newSet_NoDup items : NoDup (newSet items).
Proof. apply fold_setAdd_NoDup, NoDup_nil_2. Qed.

Lemma newSet_elem items y : y ∈ newSet items <-> y ∈ items.
Proof. unfold newSet. rewrite fold_setAdd_elem, elem_of_nil. tauto. Qed.

Lemma setKey_fresh key (value : V) object :
  key ∉ map fst object -> setKey key value object = object ++ [(key, value)].
Proof.
  induction object as [|[k v] object IH]; intros Hk; [reflexivity|].
  simpl in *. apply not_elem_of_cons in Hk as [Hne Hk].
  rewrite bool_decide_eq_false_2 by congruence.
  rewrite IH by exact Hk. reflexivity.
Qed.

Lemma fromEntries_NoDup (entries : list (Slug * V)) :
  NoDup (map fst entries) -> fromEntries entries = entries.
Proof.
  unfold fromEntries.
  enough (H : forall object,
             NoDup (map fst (object ++ entries)) ->
             fold_left (fun object kv => setKey kv.1 kv.2 object) entries object
             = object ++ entries) by (intros Hnd; apply (H []), Hnd).
  induction entries as [|[k v] entries IH]; intros object Hnd.
  - simpl. rewrite app_nil_r. reflexivity.
  - simpl. rewrite setKey_fresh.
    + rewrite IH by (rewrite <- app_assoc; exact Hnd).
      rewrite <- app_assoc. reflexivity.
    + rewrite map_app in Hnd. apply NoDup_app in Hnd as (_ & Hdisj & _).
      intros Hin. apply (Hdisj _ Hin). simpl. apply elem_of_cons. left. reflexivity.
Qed.

(** Setting a key of an object that lists each key of [keys] once. *)
Lemma setKey_map (g : Slug -> V) keys key value :
  NoDup keys -> key ∈ keys ->
  setKey key value (map (fun k => (k, g k)) keys)
  = map (fun k => (k, if bool_decide (key = k) then value else g k)) keys.
Proof.
  induction keys as [|k keys IH]; intros Hnd Hin; [inversion Hin|].
  apply NoDup_cons in Hnd as [Hfresh Hnd]. simpl.
  case_bool_decide as Hk.
  - subst k. rewrite bool_decide_eq_true_2 by reflexivity. f_equal.
    apply map_ext_in. intros k' Hk'. apply list_elem_of_In in Hk'.
    rewrite bool_decide_eq_false_2; [reflexivity|]. intros ->. contradiction.
  - rewrite bool_decide_eq_false_2 by congruence. f_equal.
    apply IH; [exact Hnd|].
    apply elem_of_cons in Hin as [->|Hin]; [contradiction|exact Hin].
Qed.

Lemma getKey_map (g : Slug -> V) keys key :
  key ∈ keys -> getKey key (map (fun k => (k, g k)) keys) = Some (g key).
Proof.
  induction keys as [|k keys IH]; intros Hin; [inversion Hin|].
  simpl. case_bool_decide as Hk; [subst; reflexivity|].
  apply IH. apply elem_of_cons in Hin as [->|Hin]; [contradiction|exact Hin].
Qed.
End InsertionOrder.

(** ** Folder pages: full and incremental passes *)

Section FolderPageFacts.
Import Quartz FolderPage.
Context {Tree Html : Type}.
Variable defaultProcessedContent : QuartzPluginData -> Tree * QuartzPluginData.
Variable simplify : Slug -> Slug.
Variable joinSegments : Slug -> string -> Slug.
Variable folderLabel : string -> string.
Variable renderPage :
  GlobalConfiguration -> Slug -> Tree -> QuartzPluginData ->
  list QuartzPluginData -> Html.
Implicit Types (content : list (Tree * QuartzPluginData)) (folders : list Slug).

Local Abbreviation computeFolderInfo :=
  (computeFolderInfo defaultProcessedContent simplify joinSegments folderLabel).
Local Abbreviation folderContent :=
  (Stated.folderContent defaultProcessedContent simplify joinSegments folderLabel).
Local Abbreviation folderPage :=
  (Stated.folderPage defaultProcessedContent simplify joinSegments folderLabel renderPage).

(** The loop of [computeFolderInfo] keeps one entry per folder, in the
    order of the folder set. *)
Lemma computeFolderInfo_loop folders content (g : Slug -> Tree * QuartzPluginData) :
  NoDup folders ->
  fold_left
    (fun folderInfo (c : Tree * QuartzPluginData) =>
       let slug := simplify (slug c.2) in
       if bool_decide (slug ∈ folders) then setKey slug c folderInfo else folderInfo)
    content (map (fun f => (f, g f)) folders)
  = map (fun f =>
           (f, fold_left
                 (fun current (c : Tree * QuartzPluginData) =>
                    if bool_decide (simplify (slug c.2) = f) then c else current)
                 content (g f)))
        folders.
Proof.
  intros Hnd. revert g.
  induction content as [|c content IH]; intros g; [reflexivity|].
  simpl. case_bool_decide as Hin.
  - rewrite (setKey_map g folders _ c Hnd Hin). apply IH.
  - rewrite IH. apply map_ext_in. intros f Hf. apply list_elem_of_In in Hf.
    rewrite bool_decide_eq_false_2; [reflexivity|]. intros <-. contradiction.
Qed.

Lemma computeFolderInfo_entries folders content locale :
  NoDup folders ->
  computeFolderInfo folders content locale
  = map (fun f => (f, folderContent locale content f)) folders.
Proof.
  intros Hnd. unfold FolderPage.computeFolderInfo.
  rewrite fromEntries_NoDup.
  - apply (computeFolderInfo_loop folders content _ Hnd).
  - rewrite map_map. simpl. rewrite map_id. exact Hnd.
Qed.

(** The pages come in the order of [Object.entries], which lists the
    folders of the set, each once. *)
Lemma processFolderInfo_pages cfg folders content :
  NoDup folders ->
  exists listed,
    listed ≡ₚ folders
    /\ processFolderInfo joinSegments renderPage cfg
         (computeFolderInfo folders content (locale cfg)) (map snd content)
       = map (folderPage cfg content) listed.
Proof.
  intros Hnd. rewrite computeFolderInfo_entries by exact Hnd.
  set (object := map (fun f => (f, folderContent (locale cfg) content f)) folders).
  pose proof (entries_Permutation object) as Hperm.
  exists (map fst (entries object)). split.
  - rewrite Hperm. unfold object. rewrite map_map. simpl. rewrite map_id. reflexivity.
  - unfold processFolderInfo. rewrite map_map. apply map_ext_in.
    intros [f c] Hin. apply list_elem_of_In in Hin. rewrite Hperm in Hin.
    unfold object in Hin. apply list_elem_of_fmap in Hin as (f' & Heq & _).
    injection Heq as -> ->. unfold Stated.folderPage. simpl.
    destruct (folderContent (locale cfg) content f') as [tree file]. reflexivity.
Qed.

Lemma affectedFolders_NoDup changeEvents : NoDup (affectedFolders changeEvents).
Proof.
  unfold affectedFolders.
  enough (H : forall set, NoDup set ->
              NoDup (fold_left
                       (fun affected changeEvent =>
                          match file changeEvent with
                          | None => affected
                          | Some f => fold_left setAdd (foldersOf (slug f)) affected
                          end) changeEvents set)) by apply H, NoDup_nil_2.
  induction changeEvents as [|ev evs IH]; intros set Hnd; [exact Hnd|].
  simpl. apply IH. destruct (file ev); [|exact Hnd].
  apply fold_setAdd_NoDup, Hnd.
Qed.

Lemma emit_pages cfg content :
  exists listed,
    listed ≡ₚ allFolders (map snd content)
    /\ emit defaultProcessedContent simplify joinSegments folderLabel renderPage
         cfg content
       = map (folderPage cfg content) listed.
Proof. unfold emit. apply processFolderInfo_pages, newSet_NoDup. Qed.

Lemma partialEmit_pages cfg content changeEvents :
  exists listed,
    listed ≡ₚ affectedFolders changeEvents
    /\ partialEmit defaultProcessedContent simplify joinSegments folderLabel
         renderPage cfg content changeEvents
       = map (folderPage cfg content) listed.
Proof.
  unfold partialEmit.
  destruct (affectedFolders changeEvents) as [|f fs] eqn:E.
  { exists []. split; reflexivity. }
  simpl Nat.ltb. cbv iota. rewrite <- E.
  apply processFolderInfo_pages, affectedFolders_NoDup.
Qed.

(** A folder without content of its own keeps its default description. *)
Lemma folderContent_default locale content folder :
  Forall (fun c => simplify (slug c.2) ≠ folder) content ->
  folderContent locale content folder
  = defaultFolder defaultProcessedContent joinSegments folderLabel locale folder.
Proof.
  unfold Stated.folderContent.
  generalize (defaultFolder defaultProcessedContent joinSegments folderLabel locale folder).
  induction content as [|c content IH]; intros d Hall; [reflexivity|].
  inversion Hall as [|? ? Hc Hrest]; subst. simpl.
  rewrite bool_decide_eq_false_2 by exact Hc. apply IH, Hrest.
Qed.
End FolderPageFacts.

(** The ancestor folders of a slug. *)
(** Folders named [7] and [2024] are listed before [notes], the smaller
    number first, wherever they were found; [007] is no array index and
    keeps its place. *)
Lemma numbered_folders_first :
  map fst (Quartz.entries [(["notes"], tt); (["2024"], tt); (["007"], tt); (["7"], tt)])
  = [["7"]; ["2024"]; ["notes"]; ["007"]].
Proof. vm_compute. reflexivity. Qed.

Section AncestorFolders.
Import Quartz FolderPage.

Lemma parentFolderNames_prefix turns folderName f :
  f ∈ parentFolderNames turns folderName ->
  exists rest, rest ≠ [] /\ folderName = f ++ rest.
Proof.
  revert folderName. induction turns as [|turns IH]; intros folderName Hin.
  - inversion Hin.
  - destruct folderName as [|s folderName']; [inversion Hin|].
    simpl in Hin. apply elem_of_cons in Hin as [->|Hin].
    + exists [List.last (s :: folderName') s]. split; [discriminate|].
      unfold dirname. apply app_removelast_last. discriminate.
    + apply IH in Hin as (rest & Hne & Heq).
      exists (rest ++ [List.last (s :: folderName') s]). split.
      * destruct rest; discriminate.
      * rewrite app_assoc, <- Heq. unfold dirname.
        apply app_removelast_last. discriminate.
Qed.

Lemma parentFolderNames_complete turns folderName f rest :
  (length folderName <= turns)%nat -> rest ≠ [] -> folderName = f ++ rest ->
  f ∈ parentFolderNames turns folderName.
Proof.
  revert turns folderName. induction rest as [|r rest IH] using rev_ind;
    intros turns folderName Hlen Hne Heq; [contradiction|].
  subst folderName. rewrite app_assoc in Hlen |- *.
  rewrite !length_app in Hlen. simpl in Hlen.
  destruct turns as [|turns]; [lia|].
  destruct ((f ++ rest) ++ [r]) as [|s l] eqn:E.
  { destruct (f ++ rest); discriminate. }
  change (parentFolderNames (S turns) (s :: l))
    with (dirname (s :: l) :: parentFolderNames turns (dirname (s :: l))).
  rewrite <- E. unfold dirname. rewrite removelast_last.
  destruct rest as [|r' rest'].
  - rewrite app_nil_r. apply elem_of_cons. left. reflexivity.
  - apply elem_of_cons. right. apply (IH turns (f ++ r' :: rest')).
    + rewrite length_app. lia.
    + discriminate.
    + reflexivity.
Qed.

(** [_getFolders] lists the proper prefixes of the slug, the root
    included. *)
Lemma getFolders_elem slug f :
  f ∈ _getFolders slug <-> (exists rest, rest ≠ [] /\ slug = f ++ rest) \/ (f = [] /\ slug = []).
Proof.
  unfold _getFolders. rewrite elem_of_cons. split.
  - intros [->|Hin].
    + destruct slug as [|s slug'] eqn:E; [right; split; reflexivity|].
      left. exists [List.last (s :: slug') s]. split; [discriminate|].
      unfold dirname. apply app_removelast_last. discriminate.
    + left. apply parentFolderNames_prefix in Hin as (rest & Hne & Heq).
      destruct slug as [|s slug'] eqn:E;
        [simpl in Heq; destruct f, rest; try discriminate; contradiction|].
      exists (rest ++ [List.last (s :: slug') s]). split.
      * destruct rest; discriminate.
      * rewrite app_assoc, <- Heq. unfold dirname.
        apply app_removelast_last. discriminate.
  - intros [(rest & Hne & ->)|[-> ->]]; [|left; reflexivity].
    destruct rest as [|r rest] using rev_ind; [contradiction|]. clear IHrest.
    rewrite app_assoc. unfold dirname. rewrite removelast_last.
    destruct rest as [|r' rest'].
    + left. rewrite app_nil_r. reflexivity.
    + right. apply (parentFolderNames_complete _ _ f (r' :: rest'));
        [lia|discriminate|reflexivity].
Qed.

Lemma foldersOf_elem slug f :
  f ∈ foldersOf slug
  <-> f ≠ [] /\ f ≠ ["tags"] /\ exists rest, rest ≠ [] /\ slug = f ++ rest.
Proof.
  unfold foldersOf. rewrite list_elem_of_filter, getFolders_elem. split.
  - intros [[Hne Htags] [H|[-> _]]]; [|contradiction]. auto.
  - intros (Hne & Htags & H). auto.
Qed.
End AncestorFolders.

(** What the two folder sets hold. *)
Section FolderSets.
Import Quartz FolderPage Folders.

Lemma allFolders_elem (allFiles : list QuartzPluginData) f :
  f ∈ allFolders allFiles
  <-> f ≠ [] /\ f ≠ ["tags"] /\ exists file, file ∈ allFiles /\ holds f (slug file).
Proof.
  unfold allFolders. rewrite newSet_elem, list_elem_of_In, in_flat_map. split.
  - intros (file & Hin & Hf). apply list_elem_of_In in Hin, Hf.
    assert (Hf' : f ∈ foldersOf (slug file)) by (destruct (slug file); [inversion Hf|exact Hf]).
    apply foldersOf_elem in Hf' as (Hne & Htags & Hrest). eauto.
  - intros (Hne & Htags & file & Hin & Hrest). exists file.
    split; [apply list_elem_of_In, Hin|]. apply list_elem_of_In.
    assert (Hf : f ∈ foldersOf (slug file)) by (apply foldersOf_elem; auto).
    destruct (slug file) eqn:E; [|exact Hf].
    destruct Hrest as (rest & Hr & Heq). destruct f, rest; try discriminate; contradiction.
Qed.

Lemma affectedFolders_elem (changeEvents : list ChangeEvent) f :
  f ∈ affectedFolders changeEvents
  <-> exists ev changed, ev ∈ changeEvents /\ file ev = Some changed
                         /\ f ∈ foldersOf (slug changed).
Proof.
  unfold affectedFolders.
  enough (H : forall set,
             f ∈ fold_left
                   (fun affected changeEvent =>
                      match file changeEvent with
                      | None => affected
                      | Some f => fold_left setAdd (foldersOf (slug f)) affected
                      end) changeEvents set
             <-> f ∈ set \/ exists ev changed, ev ∈ changeEvents /\ file ev = Some changed
                                               /\ f ∈ foldersOf (slug changed)).
  { rewrite H, elem_of_nil. tauto. }
  induction changeEvents as [|ev evs IH]; intros set; cbn [fold_left].
  - split; [auto|]. intros [H|(ev & ? & Hin & _)]; [exact H|inversion Hin].
  - rewrite IH. destruct (file ev) as [changed|] eqn:E.
    + rewrite fold_setAdd_elem. split.
      * intros [[H|H]|(ev' & ch & Hin & Hf & Hmem)]; [auto| |].
        -- right. exists ev, changed. split; [apply elem_of_cons; auto|auto].
        -- right. exists ev', ch. split; [apply elem_of_cons; auto|auto].
      * intros [H|(ev' & ch & Hin & Hf & Hmem)]; [auto|].
        apply elem_of_cons in Hin as [-> | Hin].
        -- left. right. congruence.
        -- right. eauto.
    + split.
      * intros [H|(ev' & ch & Hin & Hf & Hmem)]; [auto|].
        right. exists ev', ch. split; [apply elem_of_cons; auto|auto].
      * intros [H|(ev' & ch & Hin & Hf & Hmem)]; [auto|].
        apply elem_of_cons in Hin as [-> | Hin]; [congruence|]. right. eauto.
Qed.
End FolderSets.


(** The scenario of a single change of [docs/guide/intro]: the pages of
    [docs/guide] and of [docs] are emitted again, and no other. *)
Lemma intro_changed_pages :
  map FolderPage.pageSlug
      (FolderPage.partialEmit Runtime.defaultProcessedContent Runtime.simplify
         Runtime.joinSegments Runtime.folderLabel Runtime.renderPage
         Quartz.configuration Samples.docs Samples.introChanged)
  = [["docs"; "guide"; "index"]; ["docs"; "index"]].
Proof. vm_compute. reflexivity. Qed.


(** ** Synthesized folder nodes *)

Section FolderDates.
Import Quartz FolderPage.

Lemma later_max a b : later a b = Z.max a b.
Proof. unfold later. destruct (Z.gtb_spec a b); lia. Qed.

Lemma merge_comm a b : Stated.merge a b = Stated.merge b a.
Proof.
  destruct a as [[]|], b as [[]|]; simpl; try reflexivity.
  f_equal. f_equal; apply Z.max_comm.
Qed.

Lemma merge_assoc a b c :
  Stated.merge a (Stated.merge b c) = Stated.merge (Stated.merge a b) c.
Proof.
  destruct a as [[]|], b as [[]|], c as [[]|]; simpl; try reflexivity.
  f_equal. f_equal; apply Z.max_assoc.
Qed.

Lemma mostRecentStep_merge acc child :
  mostRecentStep acc child = Stated.merge (Stated.ownDates child) acc.
Proof.
  unfold mostRecentStep, Stated.ownDates.
  destruct (data child) as [d|]; [|reflexivity].
  destruct (dates d) as [cd|]; [|reflexivity].
  destruct acc as [md|]; [|reflexivity].
  simpl. rewrite !later_max. reflexivity.
Qed.

Lemma fold_mostRecentStep kids acc :
  fold_left mostRecentStep kids acc
  = Stated.merge
      (foldr (fun child acc => Stated.merge (Stated.ownDates child) acc) None kids) acc.
Proof.
  revert acc. induction kids as [|child kids IH]; intros acc; [reflexivity|].
  simpl. rewrite IH, mostRecentStep_merge, merge_assoc.
  f_equal. apply merge_comm.
Qed.

Lemma getMostRecentDates_direct newDate node :
  getMostRecentDates newDate node
  = match Stated.directDates node with
    | Some recent => Some recent
    | None => match newDate with
              | Some made => Some (mkDates made made made)
              | None => None
              end
    end.
Proof.
  unfold getMostRecentDates, Stated.directDates.
  rewrite fold_mostRecentStep.
  destruct (foldr _ None (children node)) as [[]|]; [reflexivity|].
  destruct newDate; reflexivity.
Qed.

(** The listing of a folder with a subfolder of which no child carries
    dates: the row of the subfolder gets, three times, what the fallback
    gives, and there is no listing when the fallback throws. *)
Lemma listing_with_an_undated_subfolder :
  allPagesInFolder Runtime.newDate true MoreSamples.outer = None
  /\ forall made,
       allPagesInFolder (Some made) true MoreSamples.outer
       = Some [mkData ["top"; "a"; "index"]
                      (Some {[ "title" := JStr "a"; "tags" := JArr [] ]})
                      (Some (mkDates made made made)) None None].
Proof. split; [reflexivity|]. intros made. reflexivity. Qed.
End FolderDates.

(** C7, as amended. For a folder that has no content node of its own, the
    node synthesized for its index page has the title "<Folder>: <slug of the
    folder>" and no dates; the row synthesized for such a folder in the
    listing of its parent has the display name of the folder as title, and,
    when some direct child carries dates itself, its dates are the
    element-wise most recent created, modified and published values among
    the direct children that carry dates themselves (child folders without
    dates of their own are not looked into). *)
Theorem C7_synthesized_folder_nodes {Tree : Type}
        (defaultProcessedContent : Quartz.QuartzPluginData -> Tree * Quartz.QuartzPluginData)
        (simplify : Quartz.Slug -> Quartz.Slug)
        (joinSegments : Quartz.Slug -> string -> Quartz.Slug)
        (folderLabel : string -> string)
        (folders : list Quartz.Slug) (content : list (Tree * Quartz.QuartzPluginData))
        (locale : string) (folder : Quartz.Slug)
        (newDate : option Z) (node : Quartz.FileTrieNode Quartz.QuartzPluginData) :
  NoDup folders ->
  folder ∈ folders ->
  Forall (fun c => simplify (Quartz.slug c.2) ≠ folder) content ->
  is_Some (Stated.directDates node) ->
  Quartz.getKey folder
    (FolderPage.computeFolderInfo defaultProcessedContent simplify joinSegments
       folderLabel folders content locale)
  = Some (defaultProcessedContent
            (Quartz.mkData
               (joinSegments folder "index")
               (Some {[ "title" := Quartz.JStr (folderLabel locale +:+ ": " +:+ showPath folder);
                        "tags" := Quartz.JArr [] ]})
               None None None))
  /\ FolderPage.syntheticFile newDate node
     = Some (Quartz.mkData
               (Quartz.nodeSlug node)
               (Some {[ "title" := Quartz.JStr (Quartz.displayName node);
                        "tags" := Quartz.JArr [] ]})
               (Stated.directDates node)
               None None).
Proof.
  intros Hnd Hin Hnone [recent Hrecent]. split.
  - rewrite computeFolderInfo_entries by exact Hnd.
    rewrite (getKey_map _ folders folder Hin).
    rewrite folderContent_default by exact Hnone. reflexivity.
  - unfold FolderPage.syntheticFile. rewrite getMostRecentDates_direct, Hrecent.
    reflexivity.
Qed.

(** C7 at the collection [docs/guide/intro], [docs/index]: the folder
    [docs/guide] has no index file; and at the folder [a/b] of the sample
    trie, whatever the fallback of the row would give. *)
Lemma C7_synthesized_folder_nodes_witness :
  NoDup [["docs"; "guide"]; ["docs"]]
  /\ ["docs"; "guide"] ∈ [["docs"; "guide"]; ["docs"]]
  /\ Forall (fun c : unit * Quartz.QuartzPluginData =>
               Runtime.simplify (Quartz.slug c.2) ≠ ["docs"; "guide"]) Samples.docs
  /\ is_Some (Stated.directDates Samples.folderB)
  /\ Quartz.getKey ["docs"; "guide"]
       (FolderPage.computeFolderInfo Runtime.defaultProcessedContent Runtime.simplify
          Runtime.joinSegments Runtime.folderLabel [["docs"; "guide"]; ["docs"]]
          Samples.docs "en-US")
     = Some (tt, Quartz.mkData ["docs"; "guide"; "index"]
                   (Some {[ "title" := Quartz.JStr "Folder: docs/guide";
                            "tags" := Quartz.JArr [] ]})
                   None None None)
  /\ FolderPage.syntheticFile Runtime.newDate Samples.folderB
     = Some (Quartz.mkData ["a"; "b"; "index"]
               (Some {[ "title" := Quartz.JStr "b"; "tags" := Quartz.JArr [] ]})
               (Some (Quartz.mkDates Samples.jan2023 Samples.jan2024 Samples.jan2023))
               None None).
Proof.
  assert (Hnd : NoDup [["docs"; "guide"]; ["docs"]]).
  { apply NoDup_cons. split; [|apply NoDup_singleton].
    intros H. apply list_elem_of_singleton in H. discriminate. }
  assert (Hin : ["docs"; "guide"] ∈ [["docs"; "guide"]; ["docs"]]).
  { apply elem_of_cons. left. reflexivity. }
  assert (Hnone : Forall (fun c : unit * Quartz.QuartzPluginData =>
                            Runtime.simplify (Quartz.slug c.2) ≠ ["docs"; "guide"])
                         Samples.docs).
  { repeat constructor; simpl; discriminate. }
  assert (Hdated : is_Some (Stated.directDates Samples.folderB)).
  { eexists. reflexivity. }
  split; [exact Hnd|]. split; [exact Hin|]. split; [exact Hnone|].
  split; [exact Hdated|].
  exact (C7_synthesized_folder_nodes Runtime.defaultProcessedContent Runtime.simplify
           Runtime.joinSegments Runtime.folderLabel _ Samples.docs "en-US"
           ["docs"; "guide"] Runtime.newDate Samples.folderB Hnd Hin Hnone Hdated).
Defined.

(** C7 as stated fails: the folder [a] holds the file [a/x], dated
    2023-01-01, and the folder [a/b], which has no dates of its own but
    holds a file modified on 2024-01-01. The row synthesized for [a] gets
    the dates of [a/x] alone; with the dates synthesized for [a/b] counted
    in, its modification date would be 2024-01-01. *)
Lemma C7_counterexample :
  FolderPage.getMostRecentDates Runtime.newDate MoreSamples.mixed
  = Some (Quartz.mkDates Samples.jan2023 Samples.jan2023 Samples.jan2023)
  /\ Stated.recursiveDates MoreSamples.mixed
     = Some (Quartz.mkDates Samples.jan2023 Samples.jan2024 Samples.jan2023)
  /\ FolderPage.getMostRecentDates Runtime.newDate MoreSamples.mixed
     ≠ Stated.recursiveDates MoreSamples.mixed.
Proof.
  split; [reflexivity|]. split; [reflexivity|].
  vm_compute. discriminate.
Qed.

(** ** The two comparators *)

Section TwoComparators.
Import Quartz.
Context {Tree : Type}.
Implicit Types (content : list (Tree * QuartzPluginData)).

(** What the explorer finds in its cache for a file of the collection is
    the sort order of the file's frontmatter. *)
Lemma cached_sortorder content (c : Tree * QuartzPluginData) :
  NoDup (map (fun c => slug c.2) content) ->
  c ∈ content ->
  field "sortorder" (FrontmatterIndex.frontmatterIndexOf content !! slug c.2)
  = field "sortorder" (frontmatter c.2).
Proof.
  intros Hnd Hin. unfold FrontmatterIndex.frontmatterIndexOf.
  rewrite (fold_indexStep_at content ∅ c Hnd Hin).
  destruct (FrontmatterIndex.included c.2) eqn:E.
  - simpl. rewrite entryOf_field by discriminate.
    destruct (frontmatter c.2); reflexivity.
  - rewrite lookup_empty. simpl.
    unfold FrontmatterIndex.included in E.
    apply orb_false_iff in E as [E _]. apply Nat.ltb_ge in E.
    destruct (frontmatter c.2) as [fm|]; [|reflexivity]. simpl in *.
    assert (fm = ∅) as -> by (apply map_size_empty_inv; lia).
    symmetry. apply lookup_empty.
Qed.
(** Reading the index back from its JSON keeps a sort order that is a
    finite number, null or absent. *)
Lemma served_sortorder (index : gmap Slug (gmap string Json)) (s : Slug) :
  field "sortorder" (FrontmatterIndex.served index !! s)
  = viaJson <$> field "sortorder" (index !! s).
Proof.
  unfold FrontmatterIndex.served, field. rewrite lookup_fmap.
  destruct (index !! s) as [entry|]; [|reflexivity].
  simpl. apply lookup_fmap.
Qed.
End TwoComparators.




(** ** Child processes and the exit status of the build *)

Section ChildFailure.
Import Build Effects.
Local Open Scope script_scope.
Variable env : Env.

Lemma awaitChild_failed what code w :
  code ≠ Some 0 ->
  awaitChild what (Close code) w
  = Throw (what +:+ " failed with code " +:+ showCode code) w.
Proof.
  intros Hcode. destruct code as [[|p|p]|]; try reflexivity. contradiction.
Qed.

Lemma main_after_beforeBuild w w1 :
  beforeBuild env w = Ok tt w1 ->
  main env w
  = match (runQuartzBuild env ;;
           when (negb (watch env) && negb (serve env))
                (consoleLog "
Build completed!")) w1 with
    | Ok _ w' => (w', Returned)
    | Throw message w' => (print ERROR ("Build failed: " +:+ message) w', Exited 1)
    end.
Proof.
  unfold main, beforeBuild, bind.
  destruct (when (negb (noBuildDir env)) (mirrorWorkspace env) w) as [[] wa|];
    [|discriminate].
  destruct (copyCustomizations env wa) as [[] wb|]; [|discriminate].
  destruct (when ((watch env || serve env) && negb (noBuildDir env))
                 (fun w0 => match setupWatcher env w0 with
                            | Ok _ w' => ret tt w'
                            | Throw e w' => Throw e w'
                            end) wb) as [[] wc|]; [|discriminate].
  intros [= ->]. reflexivity.
Qed.

Lemma runQuartzBuild_install_failed code w :
  ended (installChild env) = Close code -> code ≠ Some 0 ->
  exists before,
    runQuartzBuild env w
    = Throw ("npm install failed with code " +:+ showCode code)
            (mkWorld (fs w)
                     (before ++ map (fun line => (CHILD, line)) (written (installChild env)))).
Proof.
  intros Hend Hcode.
  exists (console w ++ [(LOG, "
Running Quartz build...");
                        (LOG, "Installing dependencies in " +:+ showPath (quartzRepo env)
                              +:+ "...")]).
  unfold runQuartzBuild, installDependencies, bind, consoleLog, inheritStdio, print.
  fold (quartzRepo env). fold (installChild env). simpl.
  rewrite Hend, awaitChild_failed by exact Hcode.
  rewrite <- !app_assoc. reflexivity.
Qed.

Lemma runQuartzBuild_quartz_failed code w :
  ended (installChild env) = Close (Some 0) ->
  ended (quartzChild env) = Close code -> code ≠ Some 0 ->
  exists before,
    runQuartzBuild env w
    = Throw ("Quartz build failed with code " +:+ showCode code)
            (mkWorld (fs w)
                     (before ++ map (fun line => (CHILD, line)) (written (quartzChild env)))).
Proof.
  intros Hinstall Hend Hcode.
  exists (console w ++ [(LOG, "
Running Quartz build...");
                        (LOG, "Installing dependencies in " +:+ showPath (quartzRepo env)
                              +:+ "...")]
          ++ map (fun line => (CHILD, line)) (written (installChild env))).
  unfold runQuartzBuild, installDependencies, bind, consoleLog, inheritStdio, print.
  fold (quartzRepo env). fold (installChild env). simpl.
  rewrite Hinstall. simpl. fold (quartzChild env).
  rewrite Hend, awaitChild_failed by exact Hcode.
  rewrite <- !app_assoc. reflexivity.
Qed.
End ChildFailure.

(** C9, as amended. When the dependency install or the external render
    invocation ends with a non-zero exit code (the steps before it having
    completed), the build is fatal: what the child wrote has gone to the
    terminal as it was, the script prints "Build failed: <step> failed with
    code <code>" and the process exits with status 1, whatever the exit code
    of the child. *)
Theorem C9_failed_child_exits_with_one (env : Build.Env) (w w1 : Build.World)
        (step : string) (child : Build.Child) (code : option Z) :
  Effects.beforeBuild env w = Build.Ok tt w1 ->
  (step = "npm install" /\ child = Effects.installChild env)
  \/ (step = "Quartz build"
      /\ Build.ended (Effects.installChild env) = Build.Close (Some 0)
      /\ child = Effects.quartzChild env) ->
  Build.ended child = Build.Close code ->
  code ≠ Some 0 ->
  exists before,
    Build.main env w
    = (Build.mkWorld
         (Build.fs w1)
         (before ++ map (fun line => (Build.CHILD, line)) (Build.written child)
          ++ [(Build.ERROR,
               "Build failed: " +:+ step +:+ " failed with code " +:+ Build.showCode code)]),
       Build.Exited 1).
Proof.
  intros Hbefore Hstep Hend Hcode.
  rewrite (main_after_beforeBuild env w w1 Hbefore). unfold Build.bind.
  destruct Hstep as [[-> ->]|(-> & Hinstall & ->)].
  - destruct (runQuartzBuild_install_failed env code w1 Hend Hcode) as [before ->].
    exists before. unfold Build.print. simpl. rewrite <- app_assoc. reflexivity.
  - destruct (runQuartzBuild_quartz_failed env code w1 Hinstall Hend Hcode) as [before ->].
    exists before. unfold Build.print. simpl. rewrite <- app_assoc. reflexivity.
Qed.

(** C9 at the sample workspace, with an [npm install] that ends with exit
    code 2. *)
Lemma C9_failed_child_exits_with_one_witness :
  exists w1,
    Effects.beforeBuild Samples.npmFails Samples.workspace = Build.Ok tt w1
    /\ Build.ended (Effects.installChild Samples.npmFails) = Build.Close (Some 2)
    /\ Some 2 ≠ Some 0
    /\ exists before,
        Build.main Samples.npmFails Samples.workspace
        = (Build.mkWorld
             (Build.fs w1)
             (before ++ [(Build.CHILD, "npm ERR! code E404")]
              ++ [(Build.ERROR, "Build failed: npm install failed with code 2")]),
           Build.Exited 1).
Proof.
  destruct (Effects.beforeBuild Samples.npmFails Samples.workspace) as [[] w1|] eqn:E;
    [|vm_compute in E; discriminate].
  exists w1. split; [reflexivity|]. split; [reflexivity|].
  assert (Hcode : Some 2 ≠ Some 0) by discriminate.
  split; [exact Hcode|].
  exact (C9_failed_child_exits_with_one Samples.npmFails Samples.workspace w1
           "npm install" (Effects.installChild Samples.npmFails) (Some 2) E
           (or_introl (conj eq_refl eq_refl)) eq_refl Hcode).
Defined.

(** C9 as stated fails: [npm install] ends with exit code 2, the build
    process exits with status 1. *)
Lemma C9_counterexample :
  Build.ended (Effects.installChild Samples.npmFails) = Build.Close (Some 2)
  /\ (Build.main Samples.npmFails Samples.workspace).2 = Build.Exited 1.
Proof. vm_compute. split; reflexivity. Qed.

(** ** The debounced watcher *)

Section Debounce.
Import Build Effects.
Local Open Scope script_scope.
Variable env : Env.

Lemma event_line_starts_no_pass event filePath :
  startsPass (LOG, eventName event +:+ ": " +:+ showPath filePath) = false.
Proof. destruct event; reflexivity. Qed.

Lemma passes_print_event event filePath w :
  passes (print LOG (eventName event +:+ ": " +:+ showPath filePath) w) = passes w.
Proof.
  unfold passes, print. cbn [console]. rewrite List.filter_app. cbn [List.filter].
  rewrite event_line_starts_no_pass, app_nil_r. reflexivity.
Qed.

(** While the watcher is ready, a change that arrives before the pending
    timer is due only replaces that timer: no pass runs and the store is
    left alone. *)
Lemma deliver_rearms now ev fp wt w :
  isReady wt = true ->
  ignored env wt fp = false ->
  match debounceTimer wt with
  | Some t => (now < due t)%nat
  | None => True
  end ->
  exists w',
    deliver env now (Changed ev fp) wt w
    = Ok (mkWatcher (ignoreFilter wt) true (Some (mkTimer (now + 500) ev fp))) w'
    /\ fs w' = fs w /\ passes w' = passes w.
Proof.
  intros Hready Hkeep Hdue.
  unfold deliver, fireDue, bind.
  assert (Hfire : (match debounceTimer wt with
                   | Some t =>
                       if (due t <=? now)%nat
                       then syncChanges env (event t) (filePath t) ;;
                            ret (mkWatcher (ignoreFilter wt) (isReady wt) None)
                       else ret wt
                   | None => ret wt
                   end) w = Ok wt w).
  { destruct (debounceTimer wt) as [t|]; [|reflexivity].
    destruct (Nat.leb_spec (due t) now); [lia|reflexivity]. }
  unfold bind in Hfire. rewrite Hfire, Hkeep.
  unfold onAll, bind, when. rewrite Hready. simpl.
  destruct (verbose env || _) eqn:Hlog.
  - eexists. split; [reflexivity|]. split; [reflexivity|].
    apply passes_print_event.
  - eexists. split; [reflexivity|]. split; reflexivity.
Qed.

Lemma burstWithin_same_filter wt wt' inputs : forall limit,
  ignoreFilter wt = ignoreFilter wt' ->
  burstWithin env wt limit inputs -> burstWithin env wt' limit inputs.
Proof.
  induction inputs as [|[now [|ev fp]] rest IH]; intros limit Hig Hburst;
    [exact I|destruct Hburst|].
  destruct Hburst as (Hnow & Hkeep & Hrest).
  split; [exact Hnow|]. split; [|apply IH; assumption].
  unfold ignored in *. rewrite <- Hig. exact Hkeep.
Qed.

Lemma burst_rearms inputs : forall wt w limit,
  isReady wt = true ->
  match debounceTimer wt with
  | Some t => due t = limit
  | None => True
  end ->
  burstWithin env wt limit inputs ->
  exists w',
    runWatcher env inputs wt w
    = Ok (mkWatcher (ignoreFilter wt) true (armedBy inputs (debounceTimer wt))) w'
    /\ fs w' = fs w /\ passes w' = passes w.
Proof.
  induction inputs as [|[now [|ev fp]] rest IH]; intros wt w limit Hready Hlimit Hburst.
  - exists w. destruct wt as [ig r t]. simpl in *. subst r. auto.
  - destruct Hburst.
  - destruct Hburst as (Hnow & Hkeep & Hrest).
    destruct (deliver_rearms now ev fp wt w Hready Hkeep) as (w1 & Hd & Hfs & Hp).
    { destruct (debounceTimer wt); [subst limit; exact Hnow|exact I]. }
    simpl. unfold bind. rewrite Hd.
    pose (wt1 := mkWatcher (ignoreFilter wt) true (Some (mkTimer (now + 500) ev fp))).
    destruct (IH wt1 w1 (now + 500)%nat eq_refl eq_refl
                 (burstWithin_same_filter wt wt1 rest _ eq_refl Hrest))
      as (w2 & Hrun & Hfs2 & Hp2).
    exists w2. split; [exact Hrun|]. split; congruence.
Qed.
Lemma armedBy_last inputs now ev fp pending :
  armedBy (inputs ++ [(now, Changed ev fp)]) pending
  = Some (mkTimer (now + 500) ev fp).
Proof. unfold armedBy. rewrite fold_left_app. reflexivity. Qed.

(** When the window of a burst expires, one pass runs: the one of the last
    event of the burst. *)
Lemma burst_expires_with_last_event inputs now ev fp wt w limit :
  isReady wt = true ->
  match debounceTimer wt with
  | Some t => due t = limit
  | None => True
  end ->
  burstWithin env wt limit (inputs ++ [(now, Changed ev fp)]) ->
  exists wt1 w1,
    runWatcher env (inputs ++ [(now, Changed ev fp)]) wt w = Ok wt1 w1
    /\ fs w1 = fs w /\ passes w1 = passes w
    /\ expire env wt1 w1
       = (syncChanges env ev fp ;; ret (mkWatcher (ignoreFilter wt) true None)) w1.
Proof.
  intros Hready Hlimit Hburst.
  destruct (burst_rearms _ wt w limit Hready Hlimit Hburst) as (w1 & Hrun & Hfs & Hp).
  eexists _, w1. split; [exact Hrun|]. split; [exact Hfs|]. split; [exact Hp|].
  unfold expire. simpl. rewrite armedBy_last. reflexivity.
Qed.
End Debounce.

(** C2. Two files are saved within one debounce window while the watcher is
    ready. One pass runs when the window expires, but it only copies the file
    of the last event: [build/b.md] gets the new content, [build/a.md] keeps
    the old one. *)
Theorem C2_burst_syncs_last_path_only :
  exists wt w wt' w',
    Build.runWatcher Samples.quiet Samples.twoSaves Samples.ready Samples.edited
    = Build.Ok wt w
    /\ Build.fs w = Build.fs Samples.edited
    /\ Build.debounceTimer wt = Some (Build.mkTimer 600 Build.EvChange ["b.md"])
    /\ Build.expire Samples.quiet wt w = Build.Ok wt' w'
    /\ Effects.passes w' = 1%nat
    /\ Build.fs w' !! ["build"; "b.md"] = Some (Build.File Samples.plain "B2")
    /\ Build.fs w' !! ["build"; "a.md"] = Some (Build.File Samples.plain "A1")
    /\ Build.fs w' !! ["a.md"] = Some (Build.File Samples.plain "A2").
Proof.
  do 4 eexists.
  split; [vm_compute; reflexivity|].
  split; [reflexivity|].
  split; [reflexivity|].
  split; [vm_compute; reflexivity|].
  repeat split; vm_compute; reflexivity.
Qed.

(** ** What the script does to the store and to the console *)

Section Combinators.
Import Build Effects.
Context (R : relation World) `{!PreOrder R}.

Lemma respects_ret {A} (a : A) : respects R (ret a).
Proof. intros w. simpl. reflexivity. Qed.

Lemma respects_throw {A} message : respects R (throw (A := A) message).
Proof. intros w. simpl. reflexivity. Qed.

Lemma respects_bind {A B} (c : M A) (k : A -> M B) :
  respects R c -> (forall a, respects R (k a)) -> respects R (bind c k).
Proof.
  intros Hc Hk w. unfold bind. specialize (Hc w).
  destruct (c w) as [a w'|e w']; simpl in *; [|exact Hc].
  etrans; [exact Hc|apply Hk].
Qed.

Lemma respects_tryCatch {A} (body : M A) handler :
  respects R body -> (forall message, respects R (handler message)) ->
  respects R (tryCatch body handler).
Proof.
  intros Hb Hh w. unfold tryCatch. specialize (Hb w).
  destruct (body w) as [a w'|e w']; simpl in *; [exact Hb|].
  etrans; [exact Hb|apply Hh].
Qed.

Lemma respects_forEach {A} (l : list A) (f : A -> M unit) :
  (forall x, respects R (f x)) -> respects R (forEach l f).
Proof.
  intros Hf. induction l as [|x l IH]; [apply respects_ret|].
  simpl. apply respects_bind; [apply Hf|intros _; exact IH].
Qed.

Lemma respects_when b (c : M unit) : respects R c -> respects R (when b c).
Proof. intros Hc. destruct b; [exact Hc|apply respects_ret]. Qed.
End Combinators.

Section Resolving.
Import Build Effects.

Lemma resolves_tryCatch {A} (body : M A) handler :
  (forall message, resolves (handler message)) -> resolves (tryCatch body handler).
Proof.
  intros Hh w. unfold tryCatch. destruct (body w) as [a w'|e w']; [eauto|apply Hh].
Qed.

Lemma resolves_bind {A B} (c : M A) (k : A -> M B) :
  resolves c -> (forall a, resolves (k a)) -> resolves (bind c k).
Proof.
  intros Hc Hk w. unfold bind. destruct (Hc w) as (a & w' & ->). apply Hk.
Qed.

Lemma resolves_ret {A} (a : A) : resolves (ret a).
Proof. intros w. eauto. Qed.

Lemma resolves_print level msg :
  resolves (fun w => Ok tt (print level msg w)).
Proof. intros w. eauto. Qed.

Lemma resolves_forEach {A} (l : list A) (f : A -> M unit) :
  (forall x, resolves (f x)) -> resolves (forEach l f).
Proof.
  intros Hf. induction l as [|x l IH]; [apply resolves_ret|].
  simpl. apply resolves_bind; [apply Hf|intros _; exact IH].
Qed.
End Resolving.

Section StoreAndConsole.
Import Build Effects.
Variable env : Env.

#[global] Instance touches_preorder Q : PreOrder (touches Q).
Proof.
  split.
  - intros w q. left. reflexivity.
  - intros w1 w2 w3 H12 H23 q.
    destruct (H23 q) as [E|HQ]; [|right; exact HQ].
    rewrite E. apply H12.
Qed.

#[global] Instance continues_preorder : PreOrder continues.
Proof.
  split.
  - intros w. exists []. rewrite app_nil_r. reflexivity.
  - intros w1 w2 w3 [l1 H1] [l2 H2]. exists (l1 ++ l2).
    rewrite H2, H1, app_assoc. reflexivity.
Qed.

Lemma touches_mono (Q Q' : path -> Prop) w w' :
  (forall q, Q q -> Q' q) -> touches Q w w' -> touches Q' w w'.
Proof. intros HQ H q. destruct (H q); auto. Qed.

Lemma respects_touches_mono {A} (Q Q' : path -> Prop) (c : M A) :
  (forall q, Q q -> Q' q) -> respects (touches Q) c -> respects (touches Q') c.
Proof. intros HQ Hc w. eapply touches_mono; [exact HQ|apply Hc]. Qed.

Lemma touches_same_store Q w w' : fs w' = fs w -> touches Q w w'.
Proof. intros E q. left. rewrite E. reflexivity. Qed.

Lemma continues_same_console w w' : console w' = console w -> continues w w'.
Proof. intros E. exists []. rewrite E, app_nil_r. reflexivity. Qed.

(** *** The console calls *)

Lemma print_touches Q level msg w : touches Q w (print level msg w).
Proof. apply touches_same_store. reflexivity. Qed.

Lemma print_continues level msg w : continues w (print level msg w).
Proof. exists [(level, msg)]. reflexivity. Qed.

Lemma consoleLog_touches Q msg : respects (touches Q) (consoleLog msg).
Proof. intros w. apply print_touches. Qed.
Lemma consoleWarn_touches Q msg : respects (touches Q) (consoleWarn msg).
Proof. intros w. apply print_touches. Qed.
Lemma consoleError_touches Q msg : respects (touches Q) (consoleError msg).
Proof. intros w. apply print_touches. Qed.
Lemma consoleLog_continues msg : respects continues (consoleLog msg).
Proof. intros w. apply print_continues. Qed.
Lemma consoleWarn_continues msg : respects continues (consoleWarn msg).
Proof. intros w. apply print_continues. Qed.
Lemma consoleError_continues msg : respects continues (consoleError msg).
Proof. intros w. apply print_continues. Qed.

(** *** The file system calls *)

Lemma guard_run s w :
  guard env s w = Ok tt w
  \/ exists message, guard env s w = Throw message w.
Proof. unfold guard. destruct (faulty env s); eauto. Qed.

(** A call that asks the platform first and leaves a world related to the
    one it found. *)
Lemma guarded_respects {A} (R : relation World) `{!PreOrder R} s (call : M A) :
  respects R call -> respects R (bind (guard env s) (fun _ => call)).
Proof.
  intros Hc w. unfold bind.
  destruct (guard_run s w) as [->|[message ->]]; [apply Hc|simpl; reflexivity].
Qed.

Lemma mkdirs_lookup dirs : forall m m',
  mkdirs env dirs m = Some m' ->
  forall q, m' !! q = m !! q \/ (m !! q = None /\ q ∈ dirs).
Proof.
  induction dirs as [|d dirs IH]; intros m m' Hm q; simpl in Hm.
  - injection Hm as <-. left. reflexivity.
  - destruct (m !! d) as [[]|] eqn:Hd; try discriminate.
    + destruct (IH _ _ Hm q) as [E|[E Hin]]; [left; exact E|].
      right. split; [exact E|]. apply elem_of_cons. right. exact Hin.
    + destruct (IH _ _ Hm q) as [E|[E Hin]].
      * destruct (decide (d = q)) as [->|Hne].
        -- right. split; [exact Hd|]. apply elem_of_cons. left. reflexivity.
        -- left. rewrite E. apply lookup_insert_ne. exact Hne.
      * destruct (decide (d = q)) as [->|Hne].
        -- rewrite lookup_insert_eq in E. discriminate.
        -- rewrite lookup_insert_ne in E by exact Hne.
           right. split; [exact E|]. apply elem_of_cons. right. exact Hin.
Qed.

Lemma fsMkdir_touches p :
  respects (touches (fun q => q ∈ ancestors p ++ [p])) (fsMkdir env p).
Proof.
  unfold fsMkdir. apply guarded_respects; [apply _|]. intros w.
  destruct (tooLong env p); [simpl; reflexivity|].
  destruct (mkdirs env (ancestors p ++ [p]) (fs w)) as [m|] eqn:Hm; [|simpl; reflexivity].
  simpl. intros q. destruct (mkdirs_lookup _ _ _ Hm q) as [E|[_ Hin]]; auto.
Qed.

Lemma fsMkdir_continues p : respects continues (fsMkdir env p).
Proof.
  unfold fsMkdir. apply guarded_respects; [apply _|]. intros w.
  destruct (tooLong env p); [apply continues_same_console; reflexivity|].
  destruct (mkdirs env (ancestors p ++ [p]) (fs w)); apply continues_same_console; reflexivity.
Qed.

Lemma insert_touches (p : path) (n : Node) w :
  touches (fun q => q = p) w (setFs (<[p := n]> (fs w)) w).
Proof.
  intros q. destruct (decide (p = q)) as [->|Hne]; [right; reflexivity|].
  left. simpl. apply lookup_insert_ne. exact Hne.
Qed.

Lemma fsCopyFile_touches src dest :
  respects (touches (fun q => q = dest)) (fsCopyFile env src dest).
Proof.
  unfold fsCopyFile. apply guarded_respects; [apply _|]. intros w.
  destruct (readSource env (fs w) src); [|simpl; reflexivity].
  destruct (tooLong env dest); [simpl; reflexivity|].
  destruct (negb (isDirectory (fs w) (dirname dest))); [simpl; reflexivity|].
  destruct (fs w !! dest) as [[]|]; simpl; try reflexivity; apply insert_touches.
Qed.

Lemma fsCopyFile_continues src dest : respects continues (fsCopyFile env src dest).
Proof.
  unfold fsCopyFile. apply guarded_respects; [apply _|]. intros w.
  destruct (readSource env (fs w) src); [|apply continues_same_console; reflexivity].
  destruct (tooLong env dest); [apply continues_same_console; reflexivity|].
  destruct (negb (isDirectory (fs w) (dirname dest))); [apply continues_same_console; reflexivity|].
  destruct (fs w !! dest) as [[]|]; apply continues_same_console; reflexivity.
Qed.

Lemma fsStat_same p w : fs (worldOf (fsStat env p w)) = fs w
                        /\ console (worldOf (fsStat env p w)) = console w.
Proof.
  unfold fsStat, bind.
  destruct (guard_run (SysStat p) w) as [->|[message ->]]; [|split; reflexivity].
  destruct (fs w !! p) as [[| |t]|]; try (split; reflexivity).
  destruct (resolve env t) as [[]|]; split; reflexivity.
Qed.

Lemma update_touches s p f : respects (touches (fun q => q = p)) (update env s p f).
Proof.
  unfold update. apply guarded_respects; [apply _|]. intros w.
  destruct (fs w !! p); simpl; [apply insert_touches|reflexivity].
Qed.

Lemma update_continues s p f : respects continues (update env s p f).
Proof.
  unfold update. apply guarded_respects; [apply _|]. intros w.
  destruct (fs w !! p); apply continues_same_console; reflexivity.
Qed.

Lemma fsReaddir_same p w : fs (worldOf (fsReaddir env p w)) = fs w
                           /\ console (worldOf (fsReaddir env p w)) = console w.
Proof.
  unfold fsReaddir, bind.
  destruct (guard_run (SysReaddir p) w) as [->|[message ->]]; [|split; reflexivity].
  destruct (isDirectory (fs w) p); [split; reflexivity|].
  destruct (fs w !! p); split; reflexivity.
Qed.

Lemma fsReadFile_same p w : fs (worldOf (fsReadFile env p w)) = fs w
                            /\ console (worldOf (fsReadFile env p w)) = console w.
Proof.
  unfold fsReadFile, bind.
  destruct (guard_run (SysReadFile p) w) as [->|[message ->]]; [|split; reflexivity].
  destruct (readSource env (fs w) p); split; reflexivity.
Qed.

Lemma fsSymlink_touches target p :
  respects (touches (fun q => q = p)) (fsSymlink env target p).
Proof.
  unfold fsSymlink. apply guarded_respects; [apply _|]. intros w.
  destruct (fs w !! p); [simpl; reflexivity|].
  destruct (isDirectory (fs w) (dirname p)); simpl; [apply insert_touches|reflexivity].
Qed.

Lemma fsSymlink_continues target p : respects continues (fsSymlink env target p).
Proof.
  unfold fsSymlink. apply guarded_respects; [apply _|]. intros w.
  destruct (fs w !! p); [apply continues_same_console; reflexivity|].
  destruct (isDirectory (fs w) (dirname p)); apply continues_same_console; reflexivity.
Qed.
End StoreAndConsole.

(** ** Paths *)

Section PathFacts.

Lemma isPrefix_spec (p q : path) : isPrefix p q = true <-> exists r, q = p ++ r.
Proof.
  revert q. induction p as [|a p IH]; intros q; simpl.
  - split; [eauto|reflexivity].
  - destruct q as [|b q].
    + split; [discriminate|intros [r Hr]; discriminate].
    + rewrite andb_true_iff, String.eqb_eq, IH. split.
      * intros [-> [r ->]]. eauto.
      * intros [r [= -> ->]]. eauto.
Qed.

Lemma isPrefix_refl (p : path) : isPrefix p p = true.
Proof. apply isPrefix_spec. exists []. rewrite app_nil_r. reflexivity. Qed.

Lemma isPrefix_app (p r : path) : isPrefix p (p ++ r) = true.
Proof. apply isPrefix_spec. eauto. Qed.

Lemma isPrefix_trans (p q r : path) :
  isPrefix p q = true -> isPrefix q r = true -> isPrefix p r = true.
Proof.
  rewrite !isPrefix_spec. intros [a ->] [b ->]. exists (a ++ b).
  rewrite app_assoc. reflexivity.
Qed.

Lemma dirname_snoc (p : path) (s : string) : dirname (p ++ [s]) = p.
Proof. unfold dirname. apply removelast_last. Qed.

Lemma isPrefix_dirname (p : path) : isPrefix (dirname p) p = true.
Proof.
  destruct p as [|s p] using rev_ind; [reflexivity|].
  rewrite dirname_snoc. apply isPrefix_app.
Qed.

Lemma ancestors_isPrefix (p q : path) : q ∈ ancestors p -> isPrefix q p = true.
Proof.
  revert q. induction p as [|s p IH]; intros q Hq; [inversion Hq|].
  simpl in Hq. destruct p as [|s' p']; [inversion Hq|].
  apply elem_of_cons in Hq as [->|Hq].
  - simpl. rewrite String.eqb_refl. reflexivity.
  - apply list_elem_of_fmap in Hq as (q' & -> & Hq').
    simpl. rewrite String.eqb_refl. simpl. apply IH, Hq'.
Qed.

Lemma upTo_isPrefix (p q : path) : q ∈ ancestors p ++ [p] -> isPrefix q p = true.
Proof.
  intros [Hq|Hq]%elem_of_app.
  - apply ancestors_isPrefix, Hq.
  - apply list_elem_of_singleton in Hq as ->. apply isPrefix_refl.
Qed.

Lemma isPrefix_snoc (q p : path) (s : string) :
  isPrefix q (p ++ [s]) = true -> q = p ++ [s] \/ isPrefix q p = true.
Proof.
  rewrite !isPrefix_spec. intros [r Hr].
  destruct r as [|x r] using rev_ind.
  - left. rewrite app_nil_r in Hr. congruence.
  - right. rewrite app_assoc in Hr. apply app_inj_tail in Hr as [-> _]. eauto.
Qed.
End PathFacts.

(** ** Copying files and directories *)

Section Copying.
Import Build Effects.
Local Open Scope script_scope.
Variable env : Env.

Lemma fsStat_touches Q p : respects (touches Q) (fsStat env p).
Proof. intros w. apply touches_same_store, fsStat_same. Qed.

Lemma fsStat_continues p : respects continues (fsStat env p).
Proof. intros w. apply continues_same_console, fsStat_same. Qed.

Lemma fsReaddir_touches Q p : respects (touches Q) (fsReaddir env p).
Proof. intros w. apply touches_same_store, fsReaddir_same. Qed.

Lemma fsReaddir_continues p : respects continues (fsReaddir env p).
Proof. intros w. apply continues_same_console, fsReaddir_same. Qed.

Lemma copyFile_touches src dest :
  respects (touches (fun q => isPrefix q dest = true)) (copyFile env src dest).
Proof.
  unfold copyFile.
  apply respects_tryCatch; [apply _| |intros; apply consoleWarn_touches].
  apply respects_bind; [apply _| |intros _].
  { eapply respects_touches_mono; [|apply fsMkdir_touches].
    intros q Hq. eapply isPrefix_trans; [apply upTo_isPrefix, Hq|apply isPrefix_dirname]. }
  apply respects_bind; [apply _| |intros _].
  { eapply respects_touches_mono; [|apply fsCopyFile_touches].
    intros q ->. apply isPrefix_refl. }
  apply respects_bind; [apply _|apply fsStat_touches|intros stats].
  apply respects_bind; [apply _| |intros _].
  { eapply respects_touches_mono; [|apply update_touches].
    intros q ->. apply isPrefix_refl. }
  apply respects_bind; [apply _| |intros _].
  { eapply respects_touches_mono; [|apply update_touches].
    intros q ->. apply isPrefix_refl. }
  apply respects_when; [apply _|apply consoleLog_touches].
Qed.

Lemma copyFile_continues src dest : respects continues (copyFile env src dest).
Proof.
  unfold copyFile.
  apply respects_tryCatch; [apply _| |intros; apply consoleWarn_continues].
  apply respects_bind; [apply _|apply fsMkdir_continues|intros _].
  apply respects_bind; [apply _|apply fsCopyFile_continues|intros _].
  apply respects_bind; [apply _|apply fsStat_continues|intros stats].
  apply respects_bind; [apply _|apply update_continues|intros _].
  apply respects_bind; [apply _|apply update_continues|intros _].
  apply respects_when; [apply _|apply consoleLog_continues].
Qed.

Lemma copyFile_resolves src dest : resolves (copyFile env src dest).
Proof. apply resolves_tryCatch. intros message. apply resolves_print. Qed.

Lemma copyDirectoryIn_unfold room src dest ignoreFilter :
  copyDirectoryIn env room src dest ignoreFilter
  = tryCatch
      (fsMkdir env dest ;;
       dirStats <- fsStat env src ;;
       fsUtimes env dest (atime dirStats) (mtime dirStats) ;;
       fsChmod env dest (mode dirStats) ;;
       entries <- fsReaddir env src ;;
       forEach entries (fun entry =>
         let srcPath := src ++ [name entry] in
         if excluded env ignoreFilter srcPath then ret tt
         else
           let destPath := dest ++ [name entry] in
           if isDir entry then
             match room with
             | S room' => copyDirectoryIn env room' srcPath destPath ignoreFilter
             | O => tryCatch (fsMkdir env destPath) (couldNotCopyDirectory srcPath)
             end
           else copyFile env srcPath destPath))
      (couldNotCopyDirectory src).
Proof. destruct room; reflexivity. Qed.

Lemma copyDirectoryIn_resolves room src dest ignoreFilter :
  resolves (copyDirectoryIn env room src dest ignoreFilter).
Proof.
  rewrite copyDirectoryIn_unfold. apply resolves_tryCatch.
  intros message. apply resolves_print.
Qed.

Lemma walked_below ignoreFilter src dest entryName q :
  excluded env ignoreFilter (src ++ [entryName]) = false ->
  isPrefix q (dest ++ [entryName]) = true ->
  walked env ignoreFilter src dest q.
Proof.
  intros Hkeep [->|Hq]%isPrefix_snoc; [|left; exact Hq].
  right. exists [entryName]. split; [discriminate|]. split; [reflexivity|exact Hkeep].
Qed.

Lemma walked_deeper ignoreFilter src dest entryName q :
  excluded env ignoreFilter (src ++ [entryName]) = false ->
  walked env ignoreFilter (src ++ [entryName]) (dest ++ [entryName]) q ->
  walked env ignoreFilter src dest q.
Proof.
  intros Hkeep [Hq|(rel & Hrel & -> & Hex)].
  - eapply walked_below; eassumption.
  - right. exists (entryName :: rel). split; [discriminate|].
    rewrite <- !app_assoc in *. simpl in *. split; [reflexivity|exact Hex].
Qed.

(** A walk writes only where [walked] allows. *)
Lemma copyDirectoryIn_touches ignoreFilter room : forall src dest,
  respects (touches (walked env ignoreFilter src dest))
           (copyDirectoryIn env room src dest ignoreFilter).
Proof.
  induction room as [|room IH]; intros src dest; rewrite copyDirectoryIn_unfold.
  all: apply respects_tryCatch; [apply _| |intros; apply consoleWarn_touches].
  all: apply respects_bind; [apply _| |intros _];
    [eapply respects_touches_mono; [|apply fsMkdir_touches];
     intros q Hq; left; apply upTo_isPrefix, Hq|].
  all: apply respects_bind; [apply _|apply fsStat_touches|intros dirStats].
  all: apply respects_bind; [apply _| |intros _];
    [eapply respects_touches_mono; [|apply update_touches];
     intros q ->; left; apply isPrefix_refl|].
  all: apply respects_bind; [apply _| |intros _];
    [eapply respects_touches_mono; [|apply update_touches];
     intros q ->; left; apply isPrefix_refl|].
  all: apply respects_bind; [apply _|apply fsReaddir_touches|intros entries].
  all: apply respects_forEach; [apply _|intros entry]; cbv zeta.
  all: destruct (excluded env ignoreFilter (src ++ [name entry])) eqn:Hkeep;
    [apply respects_ret; apply _|].
  all: destruct (isDir entry);
    [|eapply respects_touches_mono; [|apply copyFile_touches];
      intros q Hq; eapply walked_below; eassumption].
  - apply respects_tryCatch; [apply _| |intros; apply consoleWarn_touches].
    eapply respects_touches_mono; [|apply fsMkdir_touches].
    intros q Hq. eapply walked_below; [eassumption|apply upTo_isPrefix, Hq].
  - eapply respects_touches_mono; [|apply IH].
    intros q Hq. eapply walked_deeper; eassumption.
Qed.

Lemma copyDirectoryIn_continues ignoreFilter room : forall src dest,
  respects continues (copyDirectoryIn env room src dest ignoreFilter).
Proof.
  induction room as [|room IH]; intros src dest; rewrite copyDirectoryIn_unfold.
  all: apply respects_tryCatch; [apply _| |intros; apply consoleWarn_continues].
  all: apply respects_bind; [apply _|apply fsMkdir_continues|intros _].
  all: apply respects_bind; [apply _|apply fsStat_continues|intros dirStats].
  all: apply respects_bind; [apply _|apply update_continues|intros _].
  all: apply respects_bind; [apply _|apply update_continues|intros _].
  all: apply respects_bind; [apply _|apply fsReaddir_continues|intros entries].
  all: apply respects_forEach; [apply _|intros entry]; cbv zeta.
  all: destruct (excluded env ignoreFilter (src ++ [name entry]));
    [apply respects_ret; apply _|].
  all: destruct (isDir entry); [|apply copyFile_continues].
  - apply respects_tryCatch; [apply _|apply fsMkdir_continues|].
    intros; apply consoleWarn_continues.
  - apply IH.
Qed.
End Copying.

(** When nothing fails, a copy gives the destination the bytes, the times
    and the mode of the source. *)
Section CopyingWorks.
Import Build Effects.
Local Open Scope script_scope.
Variable env : Env.

Lemma mkdirs_made dirs : forall m,
  (forall d, d ∈ dirs -> forall n, m !! d = Some n -> exists st, n = Dir st) ->
  exists m',
    mkdirs env dirs m = Some m'
    /\ (forall d, d ∈ dirs -> isDirectory m' d = true)
    /\ (forall q n, m !! q = Some n -> m' !! q = Some n)
    /\ (forall q, q ∉ dirs -> m' !! q = m !! q).
Proof.
  induction dirs as [|d dirs IH]; intros m Hdirs.
  - exists m. split; [reflexivity|]. split; [intros d Hd; inversion Hd|]. auto.
  - simpl. destruct (m !! d) as [n|] eqn:Hd.
    + destruct (Hdirs d (list_elem_of_here _ _) n Hd) as [st ->].
      destruct (IH m) as (m' & -> & Hmade & Hkept & Hother).
      { intros d' Hd'. apply Hdirs. apply elem_of_cons. right. exact Hd'. }
      exists m'. split; [reflexivity|]. split; [|split; [exact Hkept|]].
      * intros d' [->|Hd']%elem_of_cons; [|apply Hmade, Hd'].
        unfold isDirectory. rewrite (Hkept _ _ Hd). reflexivity.
      * intros q Hq. apply Hother. intros Hin. apply Hq, elem_of_cons. right. exact Hin.
    + destruct (IH (<[d := Dir (created env)]> m)) as (m' & -> & Hmade & Hkept & Hother).
      { intros d' Hd' n. destruct (decide (d = d')) as [->|Hne].
        - rewrite lookup_insert_eq. intros [= <-]. eauto.
        - rewrite lookup_insert_ne by exact Hne. apply Hdirs.
          apply elem_of_cons. right. exact Hd'. }
      exists m'. split; [reflexivity|]. split; [|split].
      * intros d' [->|Hd']%elem_of_cons; [|apply Hmade, Hd'].
        unfold isDirectory. rewrite (Hkept d (Dir (created env))); [reflexivity|].
        apply lookup_insert_eq.
      * intros q n Hq. apply Hkept. rewrite lookup_insert_ne; [exact Hq|].
        intros ->. congruence.
      * intros q Hq. rewrite Hother.
        -- apply lookup_insert_ne. intros ->. apply Hq, list_elem_of_here.
        -- intros Hin. apply Hq, elem_of_cons. right. exact Hin.
Qed.

Lemma copyFile_ok src dest st data w :
  fs w !! src = Some (File st data) ->
  src ≠ dest -> dest ≠ [] ->
  (forall d, d ∈ ancestors (dirname dest) ++ [dirname dest] ->
             forall n, fs w !! d = Some n -> exists st', n = Dir st') ->
  (forall n, fs w !! dest = Some n -> exists st' data', n = File st' data') ->
  tooLong env dest = false ->
  faulty env (SysMkdir (dirname dest)) = false ->
  faulty env (SysCopyFile src dest) = false ->
  faulty env (SysStat src) = false ->
  faulty env (SysUtimes dest) = false ->
  faulty env (SysChmod dest) = false ->
  exists m,
    copyFile env src dest w
    = Ok tt (print_if (verbose env) ("Copied " +:+ showPath src) (setFs m w))
    /\ m !! dest = Some (File st data).
Proof.
  intros Hsrc Hne Hdest Hdirs Hfile Hlong Hf1 Hf2 Hf3 Hf4 Hf5.
  destruct (mkdirs_made _ (fs w) Hdirs) as (m & Hm & Hmade & Hkept & Hother).
  assert (Hshort : tooLong env (dirname dest) = false).
  { unfold tooLong in *. apply Nat.ltb_ge. apply Nat.ltb_ge in Hlong.
    destruct dest as [|s dest] using rev_ind; [contradiction|].
    rewrite dirname_snoc. rewrite length_app in Hlong. lia. }
  assert (Hnot : dest ∉ ancestors (dirname dest) ++ [dirname dest]).
  { intros Hin. apply upTo_isPrefix, isPrefix_spec in Hin as [r Hr].
    destruct dest as [|s dest] using rev_ind; [contradiction|].
    rewrite dirname_snoc in Hr. apply (f_equal length) in Hr.
    rewrite !length_app in Hr. simpl in Hr. lia. }
  set (m1 := <[dest := File (created env) data]> m).
  set (m2 := <[dest := File (mkStats (atime st) (mtime st) (mode (created env))) data]> m1).
  set (m3 := <[dest := File st data]> m2).
  assert (H1 : fsMkdir env (dirname dest) w = Ok tt (setFs m w)).
  { unfold fsMkdir, bind, guard. rewrite Hf1, Hshort, Hm. reflexivity. }
  assert (H2 : fsCopyFile env src dest (setFs m w) = Ok tt (setFs m1 w)).
  { unfold fsCopyFile, bind, guard, readSource. rewrite Hf2. cbn [fs setFs].
    rewrite (Hkept _ _ Hsrc), Hlong.
    rewrite (Hmade (dirname dest)) by (apply elem_of_app; right; apply list_elem_of_here).
    cbn [negb]. rewrite (Hother dest Hnot).
    destruct (fs w !! dest) as [n|] eqn:E; [|reflexivity].
    destruct (Hfile n eq_refl) as (st' & data' & ->). reflexivity. }
  assert (H3 : fsStat env src (setFs m1 w) = Ok st (setFs m1 w)).
  { unfold fsStat, bind, guard. rewrite Hf3. cbn [fs setFs]. unfold m1.
    rewrite lookup_insert_ne by (intros E; apply Hne; symmetry; exact E).
    rewrite (Hkept _ _ Hsrc). reflexivity. }
  assert (H4 : fsUtimes env dest (atime st) (mtime st) (setFs m1 w) = Ok tt (setFs m2 w)).
  { unfold fsUtimes, update, bind, guard. rewrite Hf4. cbn [fs setFs]. unfold m1 at 1.
    rewrite lookup_insert_eq. reflexivity. }
  assert (H5 : fsChmod env dest (mode st) (setFs m2 w) = Ok tt (setFs m3 w)).
  { unfold fsChmod, update, bind, guard. rewrite Hf5. cbn [fs setFs]. unfold m2 at 1.
    rewrite lookup_insert_eq. destruct st. reflexivity. }
  assert (Hrun : copyFile env src dest w
                 = Ok tt (print_if (verbose env) ("Copied " +:+ showPath src) (setFs m3 w))).
  { unfold copyFile, tryCatch. unfold bind at 1. rewrite H1.
    unfold bind at 1. rewrite H2. unfold bind at 1. rewrite H3.
    unfold bind at 1. rewrite H4. unfold bind at 1. rewrite H5.
    unfold print_if, when, consoleLog. destruct (verbose env); reflexivity. }
  exists m3. split; [exact Hrun|apply lookup_insert_eq].
Qed.

Lemma copyFile_copies src dest st data w :
  fs w !! src = Some (File st data) ->
  src ≠ dest -> dest ≠ [] ->
  (forall d, d ∈ ancestors (dirname dest) ++ [dirname dest] ->
             forall n, fs w !! d = Some n -> exists st', n = Dir st') ->
  (forall n, fs w !! dest = Some n -> exists st' data', n = File st' data') ->
  tooLong env dest = false ->
  faulty env (SysMkdir (dirname dest)) = false ->
  faulty env (SysCopyFile src dest) = false ->
  faulty env (SysStat src) = false ->
  faulty env (SysUtimes dest) = false ->
  faulty env (SysChmod dest) = false ->
  exists w',
    copyFile env src dest w = Ok tt w'
    /\ fs w' !! dest = Some (File st data)
    /\ touches (fun q => isPrefix q dest = true) w w'.
Proof.
  intros Hsrc Hne Hdest Hdirs Hfile Hlong Hf1 Hf2 Hf3 Hf4 Hf5.
  pose proof (copyFile_touches env src dest w) as Htouch.
  destruct (copyFile_ok src dest st data w) as (m & Hrun & Hm); try assumption.
  rewrite Hrun in Htouch |- *. eexists. split; [reflexivity|].
  split; [|exact Htouch].
  unfold print_if. destruct (verbose env); exact Hm.
Qed.
End CopyingWorks.

(** The room of a walk is never what stops it: where no room is left, a walk
    with more room fails in its first statement all the same. *)
Section Room.
Import Build Effects.
Local Open Scope script_scope.
Variable env : Env.

Lemma tryCatch_ext {A} (body body' : M A) handler w :
  body w = body' w -> tryCatch body handler w = tryCatch body' handler w.
Proof. unfold tryCatch. intros ->. reflexivity. Qed.

Lemma bind_ext {A B} (c : M A) (k k' : A -> M B) w :
  (forall a w', k a w' = k' a w') -> bind c k w = bind c k' w.
Proof. intros Hk. unfold bind. destruct (c w); [apply Hk|reflexivity]. Qed.

Lemma forEach_ext {A} (l : list A) (f f' : A -> M unit) :
  (forall x w, f x w = f' x w) -> forall w, forEach l f w = forEach l f' w.
Proof.
  intros Hf. induction l as [|x l IH]; intros w; [reflexivity|].
  simpl. unfold bind. rewrite Hf. destruct (f' x w); [apply IH|reflexivity].
Qed.

Lemma fsMkdir_too_deep p w :
  (maxDepth env < length p)%nat -> exists message, fsMkdir env p w = Throw message w.
Proof.
  intros Hdeep. unfold fsMkdir, bind, guard, tooLong.
  destruct (faulty env (SysMkdir p)); [eauto|].
  destruct (Nat.ltb_spec (maxDepth env) (length p)); [eauto|lia].
Qed.

Lemma copyDirectoryIn_too_deep room src dest ignoreFilter w :
  (maxDepth env < length dest)%nat ->
  copyDirectoryIn env room src dest ignoreFilter w
  = tryCatch (fsMkdir env dest) (couldNotCopyDirectory src) w.
Proof.
  intros Hdeep. rewrite copyDirectoryIn_unfold. unfold tryCatch, bind.
  destruct (fsMkdir_too_deep dest w Hdeep) as [message ->]. reflexivity.
Qed.

Lemma copyDirectoryIn_enough_room ignoreFilter room : forall src dest w,
  (maxDepth env - length dest <= room)%nat ->
  copyDirectoryIn env (S room) src dest ignoreFilter w
  = copyDirectoryIn env room src dest ignoreFilter w.
Proof.
  induction room as [|room IH]; intros src dest w Hroom.
  1: rewrite (copyDirectoryIn_unfold env 1), (copyDirectoryIn_unfold env 0).
  2: rewrite (copyDirectoryIn_unfold env (S (S room))),
       (copyDirectoryIn_unfold env (S room)).
  all: apply tryCatch_ext.
  all: apply bind_ext; intros _ w1.
  all: apply bind_ext; intros dirStats w2.
  all: apply bind_ext; intros _ w3.
  all: apply bind_ext; intros _ w4.
  all: apply bind_ext; intros entries w5.
  all: apply forEach_ext; intros entry w6; cbv zeta.
  all: destruct (excluded env ignoreFilter (src ++ [name entry])); [reflexivity|].
  all: destruct (isDir entry); [|reflexivity].
  - apply copyDirectoryIn_too_deep. rewrite length_app. simpl. lia.
  - apply IH. rewrite length_app. simpl. lia.
Qed.

(** [copyDirectory] gives the walk all the room there is. *)
Lemma copyDirectory_any_room ignoreFilter more src dest w :
  copyDirectoryIn env (maxDepth env - length dest + more) src dest ignoreFilter w
  = copyDirectory env src dest ignoreFilter w.
Proof.
  unfold copyDirectory. induction more as [|more IH].
  - rewrite Nat.add_0_r. reflexivity.
  - rewrite Nat.add_succ_r, copyDirectoryIn_enough_room by lia. exact IH.
Qed.
End Room.

(** ** The mirror pass *)

Section Mirror.
Import Build Effects.
Local Open Scope script_scope.
Variable env : Env.

(** [createGitignoreFilter] always resolves, with the matcher it compiled,
    and leaves the store alone. *)
Lemma createGitignoreFilter_run w :
  (exists content,
      readSource env (fs w) [".gitignore"] = Some content
      /\ faulty env (SysReadFile [".gitignore"]) = false
      /\ createGitignoreFilter env w = Ok (staticRules ++ Ignore.parse content) w)
  \/ (unreadable env w
      /\ createGitignoreFilter env w
         = Ok staticRules
              (print WARN "Could not read .gitignore, using default exclusions" w)).
Proof.
  unfold createGitignoreFilter, unreadable, fsReadFile, tryCatch, bind, guard.
  destruct (faulty env (SysReadFile [".gitignore"])) eqn:Hf.
  - right. split; [left; reflexivity|reflexivity].
  - destruct (readSource env (fs w) [".gitignore"]) as [content|] eqn:Hr.
    + left. exists content. split; [reflexivity|]. split; reflexivity.
    + right. split; [right; reflexivity|reflexivity].
Qed.

Lemma createGitignoreFilter_compiled w :
  exists w',
    createGitignoreFilter env w = Ok (compiledMatcher env w) w'
    /\ fs w' = fs w /\ continues w w'.
Proof.
  unfold compiledMatcher.
  destruct (createGitignoreFilter_run w) as [(content & _ & _ & ->)|[_ ->]].
  - exists w. split; [reflexivity|]. split; [reflexivity|reflexivity].
  - eexists. split; [reflexivity|]. split; [reflexivity|apply print_continues].
Qed.

Lemma compiledMatcher_same w w' :
  fs w' !! [".gitignore"] = fs w !! [".gitignore"] ->
  compiledMatcher env w' = compiledMatcher env w.
Proof.
  intros E.
  unfold compiledMatcher, createGitignoreFilter, fsReadFile, tryCatch, bind, guard,
    readSource.
  destruct (faulty env (SysReadFile [".gitignore"])); [reflexivity|].
  simpl. rewrite E.
  destruct (fs w !! [".gitignore"]) as [[| |t]|]; try reflexivity.
  destruct (resolve env t) as [[]|]; reflexivity.
Qed.

Lemma createGitLink_touches :
  respects (touches (fun q => q = [BUILD_DIR; ".git"])) (createGitLink env).
Proof.
  unfold createGitLink. destruct (win32 env); [|apply fsSymlink_touches].
  destruct (ended _) as [[[|p|p]|]|message]; intros w; simpl;
    try reflexivity.
  apply insert_touches.
Qed.

Lemma createGitLink_continues : respects continues (createGitLink env).
Proof.
  unfold createGitLink. destruct (win32 env); [|apply fsSymlink_continues].
  destruct (ended _) as [[[|p|p]|]|message]; intros w; simpl;
    apply continues_same_console; reflexivity.
Qed.

Lemma linkStep_touches :
  respects (touches (fun q => q = [BUILD_DIR; ".git"])) (linkStep env).
Proof.
  unfold linkStep.
  apply respects_tryCatch; [apply _| |intros; apply consoleWarn_touches].
  apply respects_bind; [apply _|apply createGitLink_touches|intros _].
  apply consoleLog_touches.
Qed.

Lemma linkStep_continues : respects continues (linkStep env).
Proof.
  unfold linkStep.
  apply respects_tryCatch; [apply _| |intros; apply consoleWarn_continues].
  apply respects_bind; [apply _|apply createGitLink_continues|intros _].
  apply consoleLog_continues.
Qed.

Lemma linkStep_resolves : resolves (linkStep env).
Proof. apply resolves_tryCatch. intros message. apply resolves_print. Qed.

(** [mirrorWorkspace] when the build directory could be cleaned. *)
Lemma mirrorWorkspace_cleaned w :
  faulty env (SysRm [BUILD_DIR]) = false ->
  mirrorWorkspace env w = afterClean env (cleaned w).
Proof.
  intros Hrm.
  unfold mirrorWorkspace, afterClean, linkStep, cleaned, bind, tryCatch, consoleLog,
    fsRm, guard, print.
  simpl. rewrite Hrm. reflexivity.
Qed.

Lemma cleaned_build_empty w p : fs (cleaned w) !! (BUILD_DIR :: p) = None.
Proof.
  unfold cleaned. simpl. apply map_lookup_filter_None. right.
  intros n _ H. simpl in H. discriminate.
Qed.

Lemma cleaned_elsewhere w q :
  isPrefix [BUILD_DIR] q = false -> fs (cleaned w) !! q = fs w !! q.
Proof.
  intros Hq. unfold cleaned. simpl.
  destruct (fs w !! q) as [n|] eqn:E.
  - apply map_lookup_filter_Some. split; [exact E|exact Hq].
  - apply map_lookup_filter_None. left. exact E.
Qed.

(** What the statements after the cleaning may write, [ig] being the matcher
    compiled from the ignore file. *)
Lemma afterClean_touches w :
  touches (fun q => isPrefix q [BUILD_DIR] = true \/ q = [BUILD_DIR; ".git"]
                    \/ exists rel, rel ≠ [] /\ q = BUILD_DIR :: rel
                                   /\ Ignore.ignores (glob env) (compiledMatcher env w) rel
                                      = false)
          w (worldOf (afterClean env w)).
Proof.
  unfold afterClean, bind.
  pose proof (fsMkdir_touches env [BUILD_DIR] w) as Hmk.
  destruct (fsMkdir env [BUILD_DIR] w) as [[] wc|e wc]; simpl in Hmk.
  2:{ simpl. eapply touches_mono; [|exact Hmk]. intros q Hq.
      apply list_elem_of_singleton in Hq as ->. left. reflexivity. }
  pose proof (linkStep_touches wc) as Hlink.
  destruct (linkStep_resolves wc) as ([] & wd & Hd). rewrite Hd in Hlink |- *.
  simpl in Hlink.
  destruct (createGitignoreFilter_compiled wd) as (we & He & Hfs & _). rewrite He.
  assert (Hig : compiledMatcher env wd = compiledMatcher env w).
  { apply compiledMatcher_same.
    destruct (Hlink [".gitignore"]) as [->|?]; [|discriminate].
    destruct (Hmk [".gitignore"]) as [->|Hin]; [reflexivity|].
    apply list_elem_of_singleton in Hin. discriminate. }
  rewrite Hig.
  pose proof (copyDirectoryIn_touches env (Some (compiledMatcher env w))
                (maxDepth env - length [BUILD_DIR]) [] [BUILD_DIR] we) as Hcopy.
  fold (copyDirectory env [] [BUILD_DIR] (Some (compiledMatcher env w))) in Hcopy.
  assert (Hall : touches (fun q => isPrefix q [BUILD_DIR] = true \/ q = [BUILD_DIR; ".git"]
                    \/ exists rel, rel ≠ [] /\ q = BUILD_DIR :: rel
                                   /\ Ignore.ignores (glob env) (compiledMatcher env w) rel
                                      = false)
                         w (worldOf (copyDirectory env [] [BUILD_DIR]
                                       (Some (compiledMatcher env w)) we))).
  { etrans; [eapply touches_mono; [|exact Hmk]|].
    { intros q Hq. apply list_elem_of_singleton in Hq as ->. left. reflexivity. }
    etrans; [eapply touches_mono; [|exact Hlink]|].
    { intros q ->. auto. }
    etrans; [apply touches_same_store; exact Hfs|].
    eapply touches_mono; [|exact Hcopy].
    intros q [Hq|(rel & Hrel & -> & Hex)]; [left; exact Hq|].
    right. right. exists rel. auto. }
  destruct (copyDirectory env [] [BUILD_DIR] (Some (compiledMatcher env w)) we)
    as [[] wf|e wf]; simpl in Hall |- *; [|exact Hall].
  etrans; [exact Hall|apply print_touches].
Qed.

End Mirror.

(** What the walk skips. A path that the compiled matcher excludes when it
    is asked as the walk asks it, by the relative path without a trailing
    slash, and that is not the [.git] of the link the pass makes, has no
    entry under the build root after a pass that could clean the build
    root. *)
Lemma excluded_paths_are_not_mirrored (env : Build.Env) (w : Build.World) (p : path) :
  Build.faulty env (Build.SysRm [Build.BUILD_DIR]) = false ->
  p ≠ [] ->
  p ≠ [".git"] ->
  Ignore.ignores (Build.glob env) (Effects.compiledMatcher env w) p = true ->
  Build.fs (Effects.worldOf (Build.mirrorWorkspace env w)) !! (Build.BUILD_DIR :: p) = None.
Proof.
  intros Hrm Hp Hgit Hex.
  rewrite mirrorWorkspace_cleaned by exact Hrm.
  destruct (afterClean_touches env (Effects.cleaned w) (Build.BUILD_DIR :: p))
    as [->|[Hq|[Hq|(rel & _ & [= <-] & Hrel)]]].
  - apply cleaned_build_empty.
  - apply isPrefix_spec in Hq as [r Hr]. destruct p; [contradiction|discriminate].
  - injection Hq as ->. contradiction.
  - rewrite (compiledMatcher_same env w (Effects.cleaned w)) in Hrel; [congruence|].
    apply cleaned_elsewhere. reflexivity.
Qed.

(** C1. The ignore file of the workspace holds the directory pattern
    [secrets/], and [secrets] is a directory with a file in it. The rules
    exclude the directory [secrets]; but the walk asks about the entry by its
    relative path without a trailing slash, for a directory as for a file,
    and so asked the matcher does not exclude it. The walk goes into the
    directory: after the mirror pass [build/secrets] is a directory, with the
    times and the mode of [secrets]. Only the file below it, whose parent the
    matcher tests as a directory, is left out. *)
Theorem C1_directory_pattern_leaves_the_directory_in_the_mirror :
  let rules := Effects.compiledMatcher Samples.quiet MoreSamples.slashed in
  let mirrored :=
    Build.fs (Effects.worldOf (Build.mirrorWorkspace Samples.quiet MoreSamples.slashed)) in
  Ignore.testOne Ignore.literalGlob rules ["secrets"] true = true
  /\ Ignore.ignores Ignore.literalGlob rules ["secrets"] = false
  /\ Ignore.ignores Ignore.literalGlob rules ["secrets"; "key.txt"] = true
  /\ mirrored !! ["build"; "secrets"] = Some (Build.Dir Samples.plain)
  /\ mirrored !! ["build"; "secrets"; "key.txt"] = None
  /\ mirrored !! ["build"; "a.md"] = Some (Build.File Samples.plain "A").
Proof. vm_compute. repeat split. Qed.

(** ** Best-effort steps *)

Section BestEffort.
Import Build Effects.
Local Open Scope script_scope.
Variable env : Env.

Lemma continues_elem w w' line : continues w w' -> line ∈ console w -> line ∈ console w'.
Proof. intros [lines ->] Hin. apply elem_of_app. left. exact Hin. Qed.

Lemma print_elem level msg w : (level, msg) ∈ console (print level msg w).
Proof. unfold print. simpl. apply elem_of_app. right. apply list_elem_of_singleton. reflexivity. Qed.

Lemma fsMkdir_build_dir w :
  faulty env (SysMkdir [BUILD_DIR]) = false ->
  (1 <= maxDepth env)%nat ->
  (forall n, fs w !! [BUILD_DIR] = Some n -> exists st, n = Dir st) ->
  exists m, fsMkdir env [BUILD_DIR] w = Ok tt (setFs m w).
Proof.
  intros Hf Hdepth Hdir. unfold fsMkdir, bind, guard, tooLong. rewrite Hf.
  destruct (Nat.ltb_spec (maxDepth env) (length [BUILD_DIR])) as [Hlt|_];
    [simpl in Hlt; lia|].
  simpl. destruct (fs w !! [BUILD_DIR]) as [n|] eqn:E; [|eauto].
  destruct (Hdir n eq_refl) as [st ->]. eauto.
Qed.

Lemma unreadable_same w w' :
  fs w' !! [".gitignore"] = fs w !! [".gitignore"] ->
  unreadable env w -> unreadable env w'.
Proof.
  intros E [Hf|Hr]; [left; exact Hf|right].
  unfold readSource in *. rewrite E. exact Hr.
Qed.

(** The statements after the cleaning run in the world [afterRm] leaves. *)
Lemma mirrorWorkspace_afterRm w :
  mirrorWorkspace env w = afterClean env (Passes.afterRm env w)
  /\ (fs (Passes.afterRm env w) = fs (cleaned w) \/ fs (Passes.afterRm env w) = fs w)
  /\ continues w (Passes.afterRm env w).
Proof.
  unfold Passes.afterRm.
  destruct (faulty env (SysRm [BUILD_DIR])) eqn:Hrm.
  - assert (E : (consoleLog "Mirroring workspace to build directory..." ;;
                 tryCatch (fsRm env [BUILD_DIR]) (fun _ => ret tt)) w
                = Ok tt (print LOG "Mirroring workspace to build directory..." w)).
    { unfold bind, consoleLog, tryCatch, fsRm, guard. simpl. rewrite Hrm. reflexivity. }
    rewrite E. cbn [worldOf]. split; [|split; [right; reflexivity|apply print_continues]].
    unfold mirrorWorkspace, afterClean, linkStep, bind, tryCatch, consoleLog, fsRm, guard.
    simpl. rewrite Hrm. reflexivity.
  - assert (E : (consoleLog "Mirroring workspace to build directory..." ;;
                 tryCatch (fsRm env [BUILD_DIR]) (fun _ => ret tt)) w
                = Ok tt (cleaned w)).
    { unfold bind, consoleLog, tryCatch, fsRm, guard, cleaned, print. simpl.
      rewrite Hrm. reflexivity. }
    rewrite E. cbn [worldOf]. split; [apply mirrorWorkspace_cleaned, Hrm|].
    split; [left; reflexivity|]. eexists. reflexivity.
Qed.

(** Making the link either succeeds or leaves the world as it was. *)
Lemma createGitLink_rejected message w wl :
  createGitLink env w = Throw message wl -> wl = w.
Proof.
  unfold createGitLink. destruct (win32 env).
  - destruct (ended _) as [[[|p|p]|]|msg]; simpl; intros H;
      try discriminate; injection H as _ <-; reflexivity.
  - unfold fsSymlink, bind, guard.
    destruct (faulty env (SysSymlink [BUILD_DIR; ".git"]));
      [intros H; injection H as _ <-; reflexivity|].
    destruct (fs w !! [BUILD_DIR; ".git"]);
      [intros H; injection H as _ <-; reflexivity|].
    destruct (isDirectory (fs w) (dirname [BUILD_DIR; ".git"])); intros H;
      [discriminate|injection H as _ <-; reflexivity].
Qed.

(** When the link cannot be made, for whatever reason, the step logs the
    warning with the message of the error and does nothing else. *)
Lemma linkStep_rejected message w wl :
  createGitLink env w = Throw message wl ->
  linkStep env w
  = Ok tt (print WARN ("Warning: Could not create git symlink: " +:+ message) w).
Proof.
  intros H. pose proof (createGitLink_rejected _ _ _ H) as ->.
  unfold linkStep, tryCatch, bind. rewrite H. reflexivity.
Qed.

(** Once the build directory could be made, the statements after the
    cleaning run to their end. *)
Lemma afterClean_runs w :
  buildDirCanBeMade env w ->
  exists m w',
    fsMkdir env [BUILD_DIR] w = Ok tt (setFs m w)
    /\ afterClean env w = Ok tt w'
    /\ last (console w') = Some (LOG, "Workspace mirrored to build/")
    /\ (unreadable env w ->
        (WARN, "Could not read .gitignore, using default exclusions") ∈ console w')
    /\ (forall message wl,
          createGitLink env (setFs m w) = Throw message wl ->
          (WARN, "Warning: Could not create git symlink: " +:+ message) ∈ console w').
Proof.
  intros (Hf & Hdepth & Hdir).
  unfold afterClean, bind.
  pose proof (fsMkdir_touches env [BUILD_DIR] w) as Hmk.
  destruct (fsMkdir_build_dir w Hf Hdepth Hdir) as [m Hm]. rewrite Hm in Hmk |- *.
  simpl in Hmk. set (wc := setFs m w) in *.
  pose proof (linkStep_touches env wc) as Hlink.
  destruct (linkStep_resolves env wc) as ([] & wd & Hd). rewrite Hd in Hlink |- *.
  simpl in Hlink.
  assert (Hgi : fs wd !! [".gitignore"] = fs w !! [".gitignore"]).
  { destruct (Hlink [".gitignore"]) as [->|?]; [|discriminate].
    destruct (Hmk [".gitignore"]) as [->|Hin]; [reflexivity|].
    apply list_elem_of_singleton in Hin. discriminate. }
  assert (Hwarn1 : forall message wl,
            createGitLink env wc = Throw message wl ->
            (WARN, "Warning: Could not create git symlink: " +:+ message) ∈ console wd).
  { intros message wl Hmsg. rewrite (linkStep_rejected message wc wl Hmsg) in Hd.
    injection Hd as <-. apply print_elem. }
  assert (Hstep : exists ig we,
            createGitignoreFilter env wd = Ok ig we /\ continues wd we
            /\ (unreadable env w ->
                (WARN, "Could not read .gitignore, using default exclusions") ∈ console we)).
  { destruct (createGitignoreFilter_run env wd) as [(content & Hr & Hfr & ->)|[_ ->]].
    - exists (staticRules ++ Ignore.parse content), wd.
      split; [reflexivity|]. split; [reflexivity|].
      intros Hu. apply (unreadable_same w wd Hgi) in Hu as [Hu|Hu]; congruence.
    - eexists _, _. split; [reflexivity|]. split; [apply print_continues|].
      intros _. apply print_elem. }
  destruct Hstep as (ig & we & -> & Hcont & Hwarn2).
  pose proof (copyDirectoryIn_continues env (Some ig) (maxDepth env - length [BUILD_DIR])
                [] [BUILD_DIR] we) as Hcopy.
  destruct (copyDirectoryIn_resolves env (maxDepth env - length [BUILD_DIR])
              [] [BUILD_DIR] (Some ig) we) as ([] & wf & Hwf).
  unfold copyDirectory. rewrite Hwf in Hcopy |- *. simpl in Hcopy.
  exists m. eexists. split; [reflexivity|]. split; [reflexivity|].
  split; [unfold print; simpl; apply last_snoc|].
  split.
  - intros Hu. apply (continues_elem wf); [apply print_continues|].
    apply (continues_elem we); [exact Hcopy|]. apply Hwarn2, Hu.
  - intros message wl Hmsg. apply (continues_elem wf); [apply print_continues|].
    apply (continues_elem we); [exact Hcopy|].
    apply (continues_elem wd); [exact Hcont|]. apply (Hwarn1 message wl), Hmsg.
Qed.

(** *** The two halves of [copyFile] *)

Lemma fsCopyFile_rejected src dest message w w' :
  fsCopyFile env src dest w = Throw message w' -> w' = w.
Proof.
  unfold fsCopyFile, bind, guard.
  destruct (faulty env (SysCopyFile src dest)); [intros H; injection H as _ <-; reflexivity|].
  destruct (readSource env (fs w) src); [|intros H; injection H as _ <-; reflexivity].
  destruct (tooLong env dest); [intros H; injection H as _ <-; reflexivity|].
  destruct (negb (isDirectory (fs w) (dirname dest)));
    [intros H; injection H as _ <-; reflexivity|].
  destruct (fs w !! dest) as [[| |]|]; intros H; try discriminate;
    injection H as _ <-; reflexivity.
Qed.

Lemma fsCopyFile_done src dest w w' :
  fsCopyFile env src dest w = Ok tt w' ->
  exists data,
    readSource env (fs w) src = Some data
    /\ w' = setFs (<[dest := File (created env) data]> (fs w)) w.
Proof.
  unfold fsCopyFile, bind, guard.
  destruct (faulty env (SysCopyFile src dest)); [discriminate|].
  destruct (readSource env (fs w) src) as [data|]; [|discriminate].
  destruct (tooLong env dest); [discriminate|].
  destruct (negb (isDirectory (fs w) (dirname dest))); [discriminate|].
  destruct (fs w !! dest) as [[| |]|]; intros H; try discriminate;
    injection H as <-; eauto.
Qed.

Lemma dest_not_above (dest : path) :
  dest ≠ [] -> dest ∉ ancestors (dirname dest) ++ [dirname dest].
Proof.
  intros Hdest Hin. apply upTo_isPrefix, isPrefix_spec in Hin as [r Hr].
  destruct dest as [|s dest] using rev_ind; [contradiction|].
  rewrite dirname_snoc in Hr. apply (f_equal length) in Hr.
  rewrite !length_app in Hr. simpl in Hr. lia.
Qed.

Lemma fsMkdir_cases p w :
  (exists m, fsMkdir env p w = Ok tt (setFs m w)
             /\ mkdirs env (ancestors p ++ [p]) (fs w) = Some m)
  \/ exists message, fsMkdir env p w = Throw message w.
Proof.
  unfold fsMkdir, bind, guard. destruct (faulty env (SysMkdir p)); [eauto|].
  destruct (tooLong env p); [eauto|].
  destruct (mkdirs env (ancestors p ++ [p]) (fs w)) as [m|]; eauto.
Qed.

(** When the directory cannot be made or the bytes cannot be copied, what
    is at the destination is as it was. *)
Lemma copyBytes_rejected src dest message w wc :
  dest ≠ [] ->
  Passes.copyBytes env src dest w = Throw message wc ->
  fs wc !! dest = fs w !! dest /\ console wc = console w.
Proof.
  intros Hdest. unfold Passes.copyBytes. unfold bind at 1.
  destruct (fsMkdir_cases (dirname dest) w) as [(m & -> & Hm)|[e ->]].
  - intros H. apply fsCopyFile_rejected in H as ->. cbn [fs console setFs].
    split; [|reflexivity].
    destruct (mkdirs_lookup env _ _ _ Hm dest) as [E|[_ Hin]]; [exact E|].
    exfalso. exact (dest_not_above dest Hdest Hin).
  - intros H. injection H as _ <-. split; reflexivity.
Qed.

(** When they can, the destination holds the bytes of the source. *)
Lemma copyBytes_done src dest data w wc :
  readSource env (fs w) src = Some data ->
  Passes.copyBytes env src dest w = Ok tt wc ->
  fs wc !! dest = Some (File (created env) data) /\ console wc = console w.
Proof.
  intros Hsrc. unfold Passes.copyBytes. unfold bind at 1.
  destruct (fsMkdir_cases (dirname dest) w) as [(m & -> & Hm)|[e ->]]; [|discriminate].
  intros H. apply fsCopyFile_done in H as (data' & Hread & ->).
  cbn [fs console setFs] in *. split; [|reflexivity].
  assert (E : readSource env m src = readSource env (fs w) src).
  { unfold readSource.
    destruct (mkdirs_lookup env _ _ _ Hm src) as [->|[Hnone _]]; [reflexivity|].
    unfold readSource in Hsrc. rewrite Hnone in Hsrc. discriminate. }
  rewrite E, Hsrc in Hread. injection Hread as <-. apply lookup_insert_eq.
Qed.

(** Carrying over the times and the mode leaves the bytes where they
    are, also when it fails; and when it fails it has logged nothing. *)
Lemma carryOver_keeps src dest st0 data w :
  fs w !! dest = Some (File st0 data) ->
  match Passes.carryOver env src dest w with
  | Ok _ w' => exists st, fs w' !! dest = Some (File st data)
  | Throw _ w' =>
      (exists st, fs w' !! dest = Some (File st data)) /\ console w' = console w
  end.
Proof.
  intros Hdest. unfold Passes.carryOver. unfold bind at 1.
  pose proof (fsStat_same env src w) as [Hfs Hcon].
  destruct (fsStat env src w) as [stats w1|e w1]; cbn [worldOf] in Hfs, Hcon.
  2:{ rewrite Hfs. split; [eauto|exact Hcon]. }
  unfold fsUtimes, fsChmod, update, guard.
  unfold bind at 1. unfold bind at 1.
  destruct (faulty env (SysUtimes dest)).
  { rewrite Hfs. split; [eauto|exact Hcon]. }
  rewrite Hfs, Hdest.
  unfold bind at 1. unfold bind at 1.
  destruct (faulty env (SysChmod dest)).
  { cbn [fs console setFs]. rewrite lookup_insert_eq. split; [eauto|exact Hcon]. }
  cbn [fs setFs]. rewrite lookup_insert_eq.
  unfold when, consoleLog, ret. destruct (verbose env); cbn [fs setFs print];
    rewrite lookup_insert_eq; eauto.
Qed.

Lemma copyFile_halves src dest w :
  copyFile env src dest w
  = match Passes.copyBytes env src dest w with
    | Throw message wc => Ok tt (print WARN (Passes.couldNotCopy src message).2 wc)
    | Ok _ wc =>
        match Passes.carryOver env src dest wc with
        | Ok _ w' => Ok tt w'
        | Throw message wr => Ok tt (print WARN (Passes.couldNotCopy src message).2 wr)
        end
    end.
Proof.
  unfold copyFile, Passes.copyBytes, Passes.carryOver, tryCatch, consoleWarn, bind.
  destruct (fsMkdir env (dirname dest) w) as [[] w1|e w1]; [|reflexivity].
  destruct (fsCopyFile env src dest w1) as [[] w2|e w2]; [|reflexivity].
  match goal with
  | |- match ?run with _ => _ end = _ => destruct run as [[] w3|e w3]
  end; reflexivity.
Qed.
End BestEffort.

(** C8, as amended. Best-effort failures do not abort the mirror pass: once
    the build directory could be made, the pass runs to its end and logs
    "Workspace mirrored to build/", whatever else fails. If the ignore file
    cannot be read, the matcher is the static rule set and the warning is
    logged. If the link to the repository cannot be made, for whatever
    reason, nothing is made in its place and the warning is logged with the
    message of the error. Copying a file always returns; when the directory
    of the destination cannot be made or the bytes cannot be copied, the
    warning is logged and what is at the destination is as it was (the file
    is skipped); when the bytes were copied and carrying over the times or
    the mode fails, the same warning is logged and the destination holds the
    bytes of the source all the same. *)
Theorem C8_best_effort_failures_warn_and_go_on (env : Build.Env) (w : Build.World) :
  Effects.buildDirCanBeMade env w ->
  exists w',
    Build.mirrorWorkspace env w = Build.Ok tt w'
    /\ last (Build.console w') = Some (Build.LOG, "Workspace mirrored to build/")
    /\ (Effects.unreadable env w ->
        Effects.compiledMatcher env w = Build.staticRules
        /\ (Build.WARN, "Could not read .gitignore, using default exclusions")
           ∈ Build.console w')
    /\ (forall message wl,
          Build.createGitLink env (Passes.linkWorld env w) = Build.Throw message wl ->
          wl = Passes.linkWorld env w
          /\ (Build.WARN, "Warning: Could not create git symlink: " +:+ message)
             ∈ Build.console w')
    /\ (forall src dest w1,
          dest ≠ [] ->
          exists w2,
            Build.copyFile env src dest w1 = Build.Ok tt w2
            /\ (forall message wc,
                  Passes.copyBytes env src dest w1 = Build.Throw message wc ->
                  Build.fs w2 !! dest = Build.fs w1 !! dest
                  /\ Build.console w2
                     = Build.console w1 ++ [Passes.couldNotCopy src message])
            /\ (forall data wc,
                  Build.readSource env (Build.fs w1) src = Some data ->
                  Passes.copyBytes env src dest w1 = Build.Ok tt wc ->
                  (exists st, Build.fs w2 !! dest = Some (Build.File st data))
                  /\ forall message wr,
                      Passes.carryOver env src dest wc = Build.Throw message wr ->
                      Build.console w2
                      = Build.console w1 ++ [Passes.couldNotCopy src message])).
Proof.
  intros (Hf & Hdepth & Hdir).
  destruct (mirrorWorkspace_afterRm env w) as (Hrun & Hfs & Hcont).
  set (w1 := Passes.afterRm env w) in *.
  assert (Hgi : Build.fs w1 !! [".gitignore"] = Build.fs w !! [".gitignore"]).
  { destruct Hfs as [->| ->]; [|reflexivity]. apply cleaned_elsewhere. reflexivity. }
  assert (Hmade : Effects.buildDirCanBeMade env w1).
  { split; [exact Hf|]. split; [exact Hdepth|]. intros n Hn.
    destruct Hfs as [E|E]; rewrite E in Hn; [|exact (Hdir n Hn)].
    rewrite (cleaned_build_empty w []) in Hn. discriminate. }
  destruct (afterClean_runs env w1 Hmade) as (m & w' & Hmk & Hafter & Hlast & Hread & Hlink).
  assert (Hworld : Passes.linkWorld env w = Build.setFs m w1).
  { unfold Passes.linkWorld. fold w1. rewrite Hmk. reflexivity. }
  exists w'. split; [rewrite Hrun; exact Hafter|]. split; [exact Hlast|].
  split; [|split].
  - intros Hu. split.
    + unfold Effects.compiledMatcher.
      destruct (createGitignoreFilter_run env w) as [(content & Hr & Hfr & _)|[_ ->]];
        [|reflexivity].
      destruct Hu as [Hu|Hu]; congruence.
    + apply Hread. apply (unreadable_same env w w1 Hgi), Hu.
  - intros message wl Hthrow. rewrite Hworld in Hthrow |- *. split.
    + exact (createGitLink_rejected env message _ wl Hthrow).
    + exact (Hlink message wl Hthrow).
  - intros src dest wa Hdest. rewrite copyFile_halves.
    destruct (Passes.copyBytes env src dest wa) as [[] wc|e wc] eqn:Hbytes.
    + destruct (Passes.carryOver env src dest wc) as [[] wr|e wr] eqn:Hcarry.
      * exists wr. split; [reflexivity|]. split; [intros message wx H; discriminate H|].
        intros data wx Hsrc H. injection H as <-.
        destruct (copyBytes_done env src dest data wa wc Hsrc Hbytes) as [Hat _].
        pose proof (carryOver_keeps env src dest _ data wc Hat) as Hkept.
        rewrite Hcarry in Hkept. split; [exact Hkept|].
        intros message wy H. rewrite Hcarry in H. discriminate H.
      * eexists. split; [reflexivity|]. split; [intros message wx H; discriminate H|].
        intros data wx Hsrc H. injection H as <-.
        destruct (copyBytes_done env src dest data wa wc Hsrc Hbytes) as [Hat Hcon].
        pose proof (carryOver_keeps env src dest _ data wc Hat) as Hkept.
        rewrite Hcarry in Hkept. destruct Hkept as [Hkept Hquiet].
        split; [exact Hkept|].
        intros message wy H. rewrite Hcarry in H. injection H as <- <-.
        unfold Build.print. cbn [Build.console]. rewrite Hquiet, Hcon.
        reflexivity.
    + eexists. split; [reflexivity|]. split; [|intros data wx Hsrc H; discriminate H].
      intros message wx H. injection H as <- <-.
      destruct (copyBytes_rejected env src dest e wa wc Hdest Hbytes) as [Hat Hcon].
      unfold Build.print. cbn [Build.fs Build.console]. rewrite Hat, Hcon.
      split; reflexivity.
Qed.

(** C8 at the sample workspace, when the ignore file cannot be read, the
    link cannot be made and [a.md] is locked: the pass completes, [b.md] is
    mirrored and [a.md] is not. *)
Lemma C8_best_effort_failures_warn_and_go_on_witness :
  Effects.buildDirCanBeMade Samples.flaky Samples.workspace
  /\ (exists w',
        Build.mirrorWorkspace Samples.flaky Samples.workspace = Build.Ok tt w'
        /\ last (Build.console w') = Some (Build.LOG, "Workspace mirrored to build/"))
  /\ Effects.unreadable Samples.flaky Samples.workspace
  /\ Build.createGitLink Samples.flaky (Passes.linkWorld Samples.flaky Samples.workspace)
     = Build.Throw "EIO: i/o error, symlink 'build/.git'"
                   (Passes.linkWorld Samples.flaky Samples.workspace)
  /\ Build.console (Effects.worldOf (Build.mirrorWorkspace Samples.flaky Samples.workspace))
     = [(Build.LOG, "Mirroring workspace to build directory...");
        (Build.WARN,
         "Warning: Could not create git symlink: EIO: i/o error, symlink 'build/.git'");
        (Build.WARN, "Could not read .gitignore, using default exclusions");
        (Build.WARN,
         "Warning: Could not copy a.md: EIO: i/o error, copyfile 'a.md' -> 'build/a.md'");
        (Build.LOG, "Workspace mirrored to build/")]
  /\ Build.fs (Effects.worldOf (Build.mirrorWorkspace Samples.flaky Samples.workspace))
     !! ["build"; "b.md"] = Some (Build.File Samples.plain "B")
  /\ Build.fs (Effects.worldOf (Build.mirrorWorkspace Samples.flaky Samples.workspace))
     !! ["build"; "a.md"] = None.
Proof.
  assert (H : Effects.buildDirCanBeMade Samples.flaky Samples.workspace).
  { split; [reflexivity|]. split; [simpl; lia|].
    intros n Hn. vm_compute in Hn. discriminate. }
  split; [exact H|].
  split.
  { destruct (C8_best_effort_failures_warn_and_go_on Samples.flaky Samples.workspace H)
      as (w' & Hrun & Hlast & _). exists w'. split; [exact Hrun|exact Hlast]. }
  split; [left; reflexivity|].
  split; [vm_compute; reflexivity|].
  split; [vm_compute; reflexivity|].
  split; vm_compute; reflexivity.
Defined.

(** C8 as stated fails. The mode of [build/a.md] cannot be set: the pass
    warns that it could not copy [a.md], and yet the file was not skipped,
    [build/a.md] holds its bytes (with the mode of a new file). *)
Lemma C8_counterexample :
  let w' := Effects.worldOf (Build.mirrorWorkspace MoreSamples.modeRefused Samples.workspace) in
  Build.console w'
  = [(Build.LOG, "Mirroring workspace to build directory...");
     (Build.LOG, "Created git symlink for accurate file dates");
     (Build.WARN, "Warning: Could not copy a.md: EIO: i/o error, chmod 'build/a.md'");
     (Build.LOG, "Workspace mirrored to build/")]
  /\ Build.fs w' !! ["build"; "a.md"]
     = Some (Build.File (Build.mkStats 0 0 493) "A")
  /\ Build.fs w' !! ["build"; "b.md"] = Some (Build.File Samples.plain "B").
Proof. cbv zeta. repeat split; vm_compute; reflexivity. Qed.


(** * Further properties

    ** Where the copies write *)

Section PreciseFrames.
Import Build Effects Frames.
Local Open Scope script_scope.
Variable env : Env.

Lemma elem_ancestors (p q : path) :
  q ∈ ancestors p <-> q ≠ [] /\ q ≠ p /\ isPrefix q p = true.
Proof.
  revert q. induction p as [|s rest IH]; intros q; simpl.
  - split; [intros H; inversion H|].
    intros (Hne & Hnp & Hpre). destruct q; [contradiction|discriminate].
  - destruct rest as [|t rest'].
    + split; [intros H; inversion H|].
      intros (Hne & Hnp & Hpre). destruct q as [|a q]; [contradiction|].
      simpl in Hpre. apply andb_true_iff in Hpre as [Ha Hq].
      apply String.eqb_eq in Ha as ->. destruct q; [contradiction|discriminate].
    + rewrite elem_of_cons, list_elem_of_fmap. split.
      * intros [->|(q' & -> & Hq')].
        -- split; [discriminate|]. split; [discriminate|].
           simpl. rewrite String.eqb_refl. reflexivity.
        -- apply IH in Hq' as (Hne & Hnp & Hpre).
           split; [discriminate|]. split; [congruence|].
           change (isPrefix (s :: q') (s :: t :: rest'))
             with (String.eqb s s && isPrefix q' (t :: rest')).
           rewrite String.eqb_refl. exact Hpre.
      * intros (Hne & Hnp & Hpre). destruct q as [|a q]; [contradiction|].
        change (isPrefix (a :: q) (s :: t :: rest'))
          with (String.eqb a s && isPrefix q (t :: rest')) in Hpre.
        apply andb_true_iff in Hpre as [Ha Hq].
        apply String.eqb_eq in Ha as ->.
        destruct q as [|b q]; [left; reflexivity|].
        right. exists (b :: q). split; [reflexivity|]. apply IH.
        split; [discriminate|]. split; [congruence|exact Hq].
Qed.

#[global] Instance madeOrBelow_preorder D : PreOrder (madeOrBelow D).
Proof.
  split.
  - intros w q. left. reflexivity.
  - intros w1 w2 w3 H12 H23 q.
    destruct (H23 q) as [E23|[?|[E2 Hin]]]; [|auto|].
    + rewrite E23. apply H12.
    + destruct (H12 q) as [E12|[?|[E1 _]]]; [|auto|auto].
      rewrite <- E12. auto.
Qed.

Lemma madeOrBelow_same_store D w w' : fs w' = fs w -> madeOrBelow D w w'.
Proof. intros E q. left. rewrite E. reflexivity. Qed.

(** Writing below a directory is writing below every directory above
    it. *)
Lemma madeOrBelow_mono D D' w w' :
  isPrefix D D' = true -> madeOrBelow D' w w' -> madeOrBelow D w w'.
Proof.
  intros HD H q. destruct (H q) as [E|[Hq|[E Hin]]]; [auto| |].
  - right. left. eapply isPrefix_trans; [exact HD|exact Hq].
  - apply elem_ancestors in Hin as (Hne & Hnp & Hpre).
    apply isPrefix_spec in HD as [r ->]. apply isPrefix_spec in Hpre as [r' Hr'].
    destruct (decide (isPrefix D q = true)) as [Hq|Hq]; [auto|].
    right. right. split; [exact E|]. apply elem_ancestors.
    split; [exact Hne|]. split; [intros ->; apply Hq, isPrefix_refl|].
    clear -Hr' Hq. revert q r' Hr' Hq.
    induction D as [|a D IH]; intros q r' Hr' Hq; [destruct Hq; reflexivity|].
    destruct q as [|b q]; [reflexivity|].
    simpl in Hr'. injection Hr' as <- Hr'. simpl. rewrite String.eqb_refl. simpl.
    apply (IH q r' Hr'). intros Hq'. apply Hq. simpl. rewrite String.eqb_refl. exact Hq'.
Qed.

Lemma respects_madeOrBelow_mono {A} D D' (c : M A) :
  isPrefix D D' = true -> respects (madeOrBelow D') c -> respects (madeOrBelow D) c.
Proof. intros HD H w. eapply madeOrBelow_mono; [exact HD|apply H]. Qed.

Lemma print_made D level msg w : madeOrBelow D w (print level msg w).
Proof. apply madeOrBelow_same_store. reflexivity. Qed.

Lemma consoleLog_made D msg : respects (madeOrBelow D) (consoleLog msg).
Proof. intros w. apply print_made. Qed.
Lemma consoleWarn_made D msg : respects (madeOrBelow D) (consoleWarn msg).
Proof. intros w. apply print_made. Qed.
Lemma consoleError_made D msg : respects (madeOrBelow D) (consoleError msg).
Proof. intros w. apply print_made. Qed.

(** [fs.mkdir(p, { recursive: true })] creates [p] and the directories
    above it that are missing, and changes nothing that exists. *)
Lemma fsMkdir_creates p w q :
  fs (worldOf (fsMkdir env p w)) !! q = fs w !! q
  \/ (fs w !! q = None /\ q ∈ ancestors p ++ [p]).
Proof.
  unfold fsMkdir, bind.
  destruct (guard_run env (SysMkdir p) w) as [->|[message ->]]; [|left; reflexivity].
  destruct (tooLong env p); [left; reflexivity|].
  destruct (mkdirs env (ancestors p ++ [p]) (fs w)) as [m|] eqn:Hm; [|left; reflexivity].
  simpl. apply (mkdirs_lookup env _ _ _ Hm).
Qed.

Lemma fsMkdir_made p : respects (madeOrBelow p) (fsMkdir env p).
Proof.
  intros w q. destruct (fsMkdir_creates p w q) as [E|[E Hin]]; [auto|].
  apply elem_of_app in Hin as [Hin|Hin]; [auto|].
  apply list_elem_of_singleton in Hin as ->. right. left. apply isPrefix_refl.
Qed.

Lemma touches_made D (Q : path -> Prop) w w' :
  (forall q, Q q -> isPrefix D q = true) -> touches Q w w' -> madeOrBelow D w w'.
Proof. intros HQ H q. destruct (H q) as [E|Hq]; auto. Qed.

Lemma ancestors_snoc (p : path) (s : string) :
  p ≠ [] -> forall q, q ∈ ancestors (p ++ [s]) <-> q ∈ ancestors p \/ q = p.
Proof.
  intros Hp q. rewrite !elem_ancestors. split.
  - intros (Hne & Hnp & Hpre). apply isPrefix_snoc in Hpre as [->|Hpre]; [contradiction|].
    destruct (decide (q = p)) as [->|Hq]; [right; reflexivity|]. left. auto.
  - intros [(Hne & Hnp & Hpre)| ->].
    + split; [exact Hne|]. split.
      * intros ->. apply isPrefix_spec in Hpre as [r Hr].
        apply (f_equal length) in Hr. rewrite !length_app in Hr. simpl in Hr. lia.
      * eapply isPrefix_trans; [exact Hpre|apply isPrefix_app].
    + split; [exact Hp|]. split; [|apply isPrefix_app].
      intros E. apply (f_equal length) in E. rewrite length_app in E. simpl in E. lia.
Qed.

(** [copyFile] writes the destination and creates the directories above it
    that are missing. *)
Lemma copyFile_made src dest :
  dirname dest ≠ [] ->
  respects (madeOrBelow dest) (copyFile env src dest).
Proof.
  intros Hdir. unfold copyFile.
  apply respects_tryCatch; [apply _| |intros; apply consoleWarn_made].
  apply respects_bind; [apply _| |intros _].
  { intros w q. destruct (fsMkdir_creates (dirname dest) w q) as [E|[E Hin]]; [auto|].
    right. right. split; [exact E|].
    destruct dest as [|s dest _] using rev_ind; [contradiction|].
    rewrite dirname_snoc in Hin, Hdir. apply ancestors_snoc; [exact Hdir|].
    apply elem_of_app in Hin as [Hin|Hin]; [auto|].
    apply list_elem_of_singleton in Hin. auto. }
  apply respects_bind; [apply _| |intros _].
  { intros w. eapply touches_made; [|apply fsCopyFile_touches].
    intros q ->. apply isPrefix_refl. }
  apply respects_bind; [apply _| |intros stats].
  { intros w. apply madeOrBelow_same_store, fsStat_same. }
  apply respects_bind; [apply _| |intros _].
  { intros w. eapply touches_made; [|apply update_touches]. intros q ->. apply isPrefix_refl. }
  apply respects_bind; [apply _| |intros _].
  { intros w. eapply touches_made; [|apply update_touches]. intros q ->. apply isPrefix_refl. }
  apply respects_when; [apply _|apply consoleLog_made].
Qed.
End PreciseFrames.

Section WalkFrames.
Import Build Effects Frames.
Local Open Scope script_scope.
Variable env : Env.

Lemma update_made D s p f :
  isPrefix D p = true -> respects (madeOrBelow D) (update env s p f).
Proof.
  intros HD w. eapply touches_made; [|apply update_touches]. intros q ->. exact HD.
Qed.

Lemma snoc_not_nil (p : path) (s : string) : p ++ [s] ≠ [].
Proof. destruct p; discriminate. Qed.

(** A walk writes at and below its destination and creates the directories
    above the destination that are missing. *)
Lemma copyDirectoryIn_made ignoreFilter room : forall src dest,
  dest ≠ [] ->
  respects (madeOrBelow dest) (copyDirectoryIn env room src dest ignoreFilter).
Proof.
  induction room as [|room IH]; intros src dest Hdest; rewrite copyDirectoryIn_unfold.
  all: apply respects_tryCatch; [apply _| |intros; apply consoleWarn_made].
  all: apply respects_bind; [apply _|apply fsMkdir_made|intros _].
  all: apply respects_bind; [apply _| |intros dirStats];
    [intros w; apply madeOrBelow_same_store, fsStat_same|].
  all: apply respects_bind; [apply _|apply update_made, isPrefix_refl|intros _].
  all: apply respects_bind; [apply _|apply update_made, isPrefix_refl|intros _].
  all: apply respects_bind; [apply _| |intros entries];
    [intros w; apply madeOrBelow_same_store, fsReaddir_same|].
  all: apply respects_forEach; [apply _|intros entry]; cbv zeta.
  all: destruct (excluded env ignoreFilter (src ++ [name entry]));
    [apply respects_ret; apply _|].
  all: destruct (isDir entry);
    [|eapply respects_madeOrBelow_mono; [apply isPrefix_app|];
      apply copyFile_made; rewrite dirname_snoc; exact Hdest].
  - apply respects_tryCatch; [apply _| |intros; apply consoleWarn_made].
    eapply respects_madeOrBelow_mono; [apply isPrefix_app|apply fsMkdir_made].
  - eapply respects_madeOrBelow_mono; [apply isPrefix_app|].
    apply IH, snoc_not_nil.
Qed.

Lemma copyDirectory_made ignoreFilter src dest :
  dest ≠ [] ->
  respects (madeOrBelow dest) (copyDirectory env src dest ignoreFilter).
Proof. apply copyDirectoryIn_made. Qed.

(** The mirror pass writes at and below the build directory only. *)
Lemma mirrorWorkspace_made : respects (madeOrBelow [BUILD_DIR]) (mirrorWorkspace env).
Proof.
  unfold mirrorWorkspace.
  apply respects_bind; [apply _|apply consoleLog_made|intros _].
  apply respects_bind; [apply _| |intros _].
  { apply respects_tryCatch; [apply _| |intros; apply respects_ret; apply _].
    unfold fsRm. apply guarded_respects; [apply _|]. intros w q. simpl.
    destruct (isPrefix [BUILD_DIR] q) eqn:Hq; [auto|]. left.
    destruct (fs w !! q) as [n|] eqn:E.
    - apply map_lookup_filter_Some. split; [exact E|exact Hq].
    - apply map_lookup_filter_None. left. exact E. }
  apply respects_bind; [apply _|apply fsMkdir_made|intros _].
  apply respects_bind; [apply _| |intros _].
  { intros w. eapply touches_made; [|apply (linkStep_touches env)].
    intros q ->. reflexivity. }
  apply respects_bind; [apply _| |intros ignoreFilter].
  { intros w. destruct (createGitignoreFilter_compiled env w) as (w' & E & Hfs & _).
    rewrite E. apply madeOrBelow_same_store. exact Hfs. }
  apply respects_bind; [apply _|apply copyDirectory_made; discriminate|intros _].
  apply consoleLog_made.
Qed.
End WalkFrames.

Section Listing.
Import Build Effects Frames.
Local Open Scope script_scope.

Lemma stripPrefix_spec (p k r : path) : stripPrefix p k = Some r <-> k = p ++ r.
Proof.
  revert k. induction p as [|a p IH]; intros k; simpl.
  - split; [intros [= ->]; reflexivity|intros ->; reflexivity].
  - destruct k as [|b k]; [split; discriminate|].
    destruct (String.eqb a b) eqn:E.
    + apply String.eqb_eq in E as ->. rewrite IH. split; [intros ->; reflexivity|].
      intros [= ->]. reflexivity.
    + apply String.eqb_neq in E. split; [discriminate|]. intros [= <- _]. contradiction.
Qed.

Lemma childName_spec (p k : path) (n : string) : childName p k = Some n <-> k = p ++ [n].
Proof.
  unfold childName. destruct (stripPrefix p k) as [r|] eqn:E.
  - apply stripPrefix_spec in E as ->. destruct r as [|a [|b r]].
    + split; [discriminate|]. intros E. apply (f_equal length) in E.
      rewrite !length_app in E. simpl in E. lia.
    + split; [intros [= ->]; reflexivity|]. intros E. apply app_inv_head in E.
      congruence.
    + split; [discriminate|]. intros E. apply app_inv_head in E. discriminate.
  - split; [discriminate|]. intros ->.
    assert (stripPrefix p (p ++ [n]) = Some [n]) by (apply stripPrefix_spec; reflexivity).
    congruence.
Qed.

(** [readdir] lists exactly what the store holds directly below the
    directory, with its kind. *)
Lemma elem_entriesOf (m : gmap path Node) (p : path) (e : Dirent) :
  e ∈ entriesOf m p
  <-> exists node, m !! (p ++ [name e]) = Some node
                   /\ isDir e = match node with Dir _ => true | _ => false end.
Proof.
  unfold entriesOf. rewrite list_elem_of_omap. split.
  - intros ([k node] & Hin & He). apply elem_of_map_to_list in Hin. simpl in He.
    destruct (childName p k) as [n|] eqn:Hn; [|discriminate].
    apply childName_spec in Hn as ->. injection He as <-. simpl. eauto.
  - intros (node & Hm & Hd). exists (p ++ [name e], node).
    split; [apply elem_of_map_to_list, Hm|]. simpl.
    assert (childName p (p ++ [name e]) = Some (name e)) as -> by (apply childName_spec; reflexivity).
    simpl. destruct e as [n b]. simpl in *. rewrite Hd. reflexivity.
Qed.

(** No name is listed twice. *)
Lemma entriesOf_NoDup (m : gmap path Node) (p : path) : NoDup (map name (entriesOf m p)).
Proof.
  unfold entriesOf. pose proof (NoDup_fst_map_to_list m) as Hnd.
  induction (map_to_list m) as [|[k node] l IH]; [constructor|].
  simpl in Hnd. apply NoDup_cons in Hnd as [Hk Hnd]. simpl.
  destruct (childName p k) as [n|] eqn:Hn; simpl; [|apply IH, Hnd].
  constructor; [|apply IH, Hnd].
  intros Hin. apply list_elem_of_fmap in Hin as (e & He & Hin).
  apply list_elem_of_omap in Hin as ([k' node'] & Hin' & He'). simpl in He'.
  destruct (childName p k') as [n'|] eqn:Hn'; [|discriminate].
  injection He' as <-. simpl in He. subst n'.
  apply childName_spec in Hn, Hn'. subst k k'.
  apply Hk. apply list_elem_of_fmap. exists (p ++ [n], node'). split; [reflexivity|exact Hin'].
Qed.

Lemma entriesOf_split (m : gmap path Node) (p : path) (e : Dirent) :
  e ∈ entriesOf m p ->
  exists before after,
    entriesOf m p = before ++ e :: after
    /\ Forall (fun e' => name e' ≠ name e) (before ++ after).
Proof.
  intros Hin. apply list_elem_of_split in Hin as (before & after & E).
  exists before, after. split; [exact E|].
  pose proof (entriesOf_NoDup m p) as Hnd. rewrite E, map_app in Hnd. simpl in Hnd.
  apply NoDup_app in Hnd as (_ & Hb & Ha). apply NoDup_cons in Ha as [Ha _].
  apply Forall_app. split; apply Forall_forall; intros e' He' Hname.
  - apply (Hb (name e')); [apply list_elem_of_fmap; eauto|].
    rewrite Hname. apply list_elem_of_here.
  - apply Ha. rewrite <- Hname. apply list_elem_of_fmap. eauto.
Qed.

Lemma forEach_app {A} (l1 l2 : list A) (f : A -> M unit) w :
  forEach (l1 ++ l2) f w = (forEach l1 f ;; forEach l2 f) w.
Proof.
  revert w. induction l1 as [|x l1 IH]; intros w; simpl; [reflexivity|].
  unfold bind. destruct (f x w) as [[] w'|e w']; [|reflexivity].
  rewrite IH. reflexivity.
Qed.

(** A loop whose every turn resolves and keeps [Inv] resolves and keeps
    [Inv]. *)
Lemma forEach_keeps {A} (Inv : World -> Prop) (l : list A) (f : A -> M unit) :
  Forall (fun x => forall w, Inv w -> exists w', f x w = Ok tt w' /\ Inv w') l ->
  forall w, Inv w -> exists w', forEach l f w = Ok tt w' /\ Inv w'.
Proof.
  induction 1 as [|x l Hx _ IH]; intros w Hw; simpl; [eauto|].
  unfold bind. destruct (Hx w Hw) as (w' & -> & Hw'). apply IH, Hw'.
Qed.
End Listing.

Section Completeness.
Import Build Effects Frames Walk.
Local Open Scope script_scope.
Variable env : Env.
Hypothesis Hok : noFaults env.

Lemma guard_ok s w : guard env s w = Ok tt w.
Proof. unfold guard. rewrite Hok. reflexivity. Qed.

Lemma freeOrDir_spec w q :
  freeOrDir w q = true <-> forall n, fs w !! q = Some n -> exists st, n = Dir st.
Proof.
  unfold freeOrDir. destruct (fs w !! q) as [[| |]|]; split; intros H;
    try discriminate; try reflexivity.
  all: try (intros n [= <-]; eauto).
  all: destruct (H _ eq_refl) as [? [=]].
Qed.

Lemma freeOrFile_spec w q :
  freeOrFile w q = true <-> forall n, fs w !! q = Some n -> exists st data, n = File st data.
Proof.
  unfold freeOrFile. destruct (fs w !! q) as [[| |]|]; split; intros H;
    try discriminate; try reflexivity.
  all: try (intros n [= <-]; eauto).
  all: destruct (H _ eq_refl) as (? & ? & [=]).
Qed.

Lemma fsMkdir_ok p w :
  tooLong env p = false ->
  (forall d, d ∈ ancestors p ++ [p] -> freeOrDir w d = true) ->
  exists m, fsMkdir env p w = Ok tt (setFs m w)
    /\ (forall d, d ∈ ancestors p ++ [p] -> isDirectory m d = true)
    /\ (forall q n, fs w !! q = Some n -> m !! q = Some n)
    /\ (forall q, q ∉ ancestors p ++ [p] -> m !! q = fs w !! q).
Proof.
  intros Hlong Hdirs.
  destruct (mkdirs_made env _ (fs w) (fun d Hd => proj1 (freeOrDir_spec w d) (Hdirs d Hd)))
    as (m & Hm & H).
  exists m. split; [|exact H]. unfold fsMkdir, bind. rewrite guard_ok, Hlong, Hm. reflexivity.
Qed.

Lemma copyDirectoryIn_steps room src dest ignoreFilter :
  copyDirectoryIn env room src dest ignoreFilter
  = tryCatch
      (fsMkdir env dest ;;
       dirStats <- fsStat env src ;;
       fsUtimes env dest (atime dirStats) (mtime dirStats) ;;
       fsChmod env dest (mode dirStats) ;;
       entries <- fsReaddir env src ;;
       forEach entries (entryStep env room src dest ignoreFilter))
      (couldNotCopyDirectory src).
Proof. destruct room; reflexivity. Qed.

(** The statements of [copyDirectory] before its loop, when the source is
    a directory and the destination can be made. *)
Lemma walk_prologue src dest w (k : list Dirent -> M unit) st0 :
  dest ≠ src ->
  fs w !! src = Some (Dir st0) ->
  tooLong env dest = false ->
  (forall d, d ∈ ancestors dest ++ [dest] -> freeOrDir w d = true) ->
  exists w0,
    (fsMkdir env dest ;;
     dirStats <- fsStat env src ;;
     fsUtimes env dest (atime dirStats) (mtime dirStats) ;;
     fsChmod env dest (mode dirStats) ;;
     entries <- fsReaddir env src ;;
     k entries) w
    = k (entriesOf (fs w0) src) w0
    /\ fs w0 !! dest = Some (Dir st0)
    /\ (forall d, d ∈ ancestors dest ++ [dest] -> isDirectory (fs w0) d = true)
    /\ (forall q, q ∉ ancestors dest ++ [dest] -> fs w0 !! q = fs w !! q)
    /\ (forall q n, q ≠ dest -> fs w !! q = Some n -> fs w0 !! q = Some n)
    /\ console w0 = console w.
Proof.
  intros Hne Hsrc Hlong Hdirs.
  destruct (fsMkdir_ok dest w Hlong Hdirs) as (m & Hmk & Hmade & Hkept & Hother).
  assert (Hisd : isDirectory m dest = true)
    by (apply Hmade, elem_of_app; right; apply list_elem_of_here).
  unfold isDirectory in Hisd. destruct (m !! dest) as [[|sd|]|] eqn:Hdest; try discriminate.
  clear Hisd.
  set (m2 := <[dest := Dir (mkStats (atime st0) (mtime st0) (mode sd))]> m).
  set (m3 := <[dest := Dir st0]> m2).
  exists (setFs m3 w).
  assert (Hsrc3 : m3 !! src = Some (Dir st0)).
  { unfold m3, m2. rewrite !lookup_insert_ne by exact Hne. apply Hkept, Hsrc. }
  split; [|split; [|split; [|split; [|split]]]].
  - unfold bind at 1. rewrite Hmk.
    unfold bind at 1. unfold fsStat, bind at 1. rewrite guard_ok. cbn [fs setFs].
    rewrite (Hkept _ _ Hsrc).
    unfold bind at 1. unfold fsUtimes, update, bind at 1. rewrite guard_ok. cbn [fs setFs].
    rewrite Hdest. cbn [setTimes]. fold m2.
    unfold bind at 1. unfold fsChmod, update, bind at 1. rewrite guard_ok. cbn [fs setFs].
    unfold m2 at 1. rewrite lookup_insert_eq. cbn [setMode atime mtime mode].
    replace (mkStats (atime st0) (mtime st0) (mode st0)) with st0 by (destruct st0; reflexivity).
    fold m3.
    unfold bind at 1. unfold fsReaddir, bind at 1. rewrite guard_ok. cbn [fs setFs].
    unfold isDirectory. rewrite Hsrc3. reflexivity.
  - simpl. apply lookup_insert_eq.
  - intros d Hd. simpl. unfold isDirectory. destruct (decide (d = dest)) as [->|Hdd].
    + unfold m3. rewrite lookup_insert_eq. reflexivity.
    + unfold m3, m2. rewrite !lookup_insert_ne by congruence. apply (Hmade d Hd).
  - intros q Hq. simpl. unfold m3, m2.
    assert (dest ≠ q).
    { intros <-. apply Hq, elem_of_app. right. apply list_elem_of_here. }
    rewrite !lookup_insert_ne by assumption. apply Hother, Hq.
  - intros q n Hq Hn. simpl. unfold m3, m2.
    rewrite !lookup_insert_ne by congruence. apply Hkept, Hn.
  - reflexivity.
Qed.

Lemma entryStep_resolves room src dest ignoreFilter entry :
  resolves (entryStep env room src dest ignoreFilter entry).
Proof.
  unfold entryStep. cbv zeta.
  destruct (excluded env ignoreFilter (src ++ [name entry])); [apply resolves_ret|].
  destruct (isDir entry); [|apply copyFile_resolves].
  destruct room; [|apply copyDirectoryIn_resolves].
  apply resolves_tryCatch. intros message. apply resolves_print.
Qed.

Lemma entryStep_made room src dest ignoreFilter entry :
  dest ≠ [] ->
  respects (madeOrBelow (dest ++ [name entry])) (entryStep env room src dest ignoreFilter entry).
Proof.
  intros Hdest. unfold entryStep. cbv zeta.
  destruct (excluded env ignoreFilter (src ++ [name entry])); [apply respects_ret; apply _|].
  destruct (isDir entry); [|apply copyFile_made; rewrite dirname_snoc; exact Hdest].
  destruct room; [|apply copyDirectoryIn_made, snoc_not_nil].
  apply respects_tryCatch; [apply _|apply fsMkdir_made|intros; apply consoleWarn_made].
Qed.

(** What lies apart from [D] and is there, or is not above [D], is left as
    it is. *)
Lemma frame_apart D w w' q :
  madeOrBelow D w w' ->
  isPrefix D q = false ->
  is_Some (fs w !! q) \/ isPrefix q D = false ->
  fs w' !! q = fs w !! q.
Proof.
  intros H Hq Hsome. destruct (H q) as [E|[Hin|[E Hin]]]; [exact E|congruence|].
  destruct Hsome as [[n Hn]|Hpre]; [congruence|].
  apply elem_ancestors in Hin as (_ & _ & Hin). congruence.
Qed.

Lemma isPrefix_snoc_inv (p q : path) (s : string) :
  isPrefix q (p ++ [s]) = true -> q ≠ p ++ [s] -> isPrefix q p = true.
Proof. intros H Hne. apply isPrefix_snoc in H as [->|H]; [contradiction|exact H]. Qed.

(** The turns of the loop for other entries leave alone what is apart from
    their copies. *)
Lemma siblings_keep room src dest ignoreFilter name1 (P : path -> Prop) entries w0 :
  dest ≠ [] ->
  Forall (fun e => name e ≠ name1) entries ->
  (forall q, P q -> forall n, n ≠ name1 -> isPrefix (dest ++ [n]) q = false) ->
  (forall q, P q -> is_Some (fs w0 !! q) \/ isPrefix q dest = false) ->
  exists w',
    forEach entries (entryStep env room src dest ignoreFilter) w0 = Ok tt w'
    /\ forall q, P q -> fs w' !! q = fs w0 !! q.
Proof.
  intros Hdest Hnames Hapart Hthere.
  apply (forEach_keeps (fun w' => forall q, P q -> fs w' !! q = fs w0 !! q));
    [|intros q _; reflexivity].
  eapply Forall_impl; [exact Hnames|]. intros e He w Hw. cbv beta in He.
  destruct (entryStep_resolves room src dest ignoreFilter e w) as ([] & w' & Hrun).
  exists w'. split; [exact Hrun|]. intros q Hq. rewrite <- (Hw q Hq).
  pose proof (entryStep_made room src dest ignoreFilter e Hdest w) as Hmade.
  rewrite Hrun in Hmade. simpl in Hmade.
  apply (frame_apart _ _ _ _ Hmade); [apply Hapart; assumption|].
  rewrite (Hw q Hq). destruct (Hthere q Hq) as [Hs|Hn]; [left; exact Hs|].
  right. destruct (isPrefix q (dest ++ [name e])) eqn:E; [|reflexivity].
  apply isPrefix_snoc in E as [->|E]; [|congruence].
  pose proof (Hapart _ Hq (name e) He) as Hf. rewrite isPrefix_refl in Hf. discriminate.
Qed.
End Completeness.

Section CompletenessMain.
Import Build Effects Frames Walk.
Local Open Scope script_scope.
Variable env : Env.
Hypothesis Hok : noFaults env.

Lemma isPrefix_app_same (p a b : path) : isPrefix (p ++ a) (p ++ b) = isPrefix a b.
Proof. induction p as [|s p IH]; simpl; [reflexivity|]. rewrite String.eqb_refl. exact IH. Qed.

Lemma isPrefix_false_below (D p q : path) :
  isPrefix D q = false -> isPrefix p q = true -> isPrefix D p = false.
Proof.
  intros HD Hp. destruct (isPrefix D p) eqn:E; [|reflexivity].
  rewrite (isPrefix_trans _ _ _ E Hp) in HD. discriminate.
Qed.

Lemma isPrefix_false_above (D D' q : path) :
  isPrefix D q = false -> isPrefix D D' = true -> isPrefix D' q = false.
Proof.
  intros HD Hp. destruct (isPrefix D' q) eqn:E; [|reflexivity].
  rewrite (isPrefix_trans _ _ _ Hp E) in HD. discriminate.
Qed.

Lemma isPrefix_length (p q : path) : isPrefix p q = true -> (length p <= length q)%nat.
Proof. intros H. apply isPrefix_spec in H as [r ->]. rewrite length_app. lia. Qed.

Lemma upTo_elem (p q : path) :
  p ≠ [] -> q ∈ ancestors p ++ [p] <-> q ≠ [] /\ isPrefix q p = true.
Proof.
  intros Hp. rewrite elem_of_app, elem_ancestors, list_elem_of_singleton. split.
  - intros [(Hne & _ & Hpre)| ->]; [auto|]. split; [exact Hp|apply isPrefix_refl].
  - intros [Hne Hpre]. destruct (decide (q = p)) as [->|Hq]; auto.
Qed.

Lemma tooLong_false (p : path) : (length p <= maxDepth env)%nat -> tooLong env p = false.
Proof. intros H. unfold tooLong. apply Nat.ltb_ge. exact H. Qed.

Lemma copyDirectoryIn_copies ignoreFilter st data : forall rel room src dest w,
  rel ≠ [] -> dest ≠ [] ->
  (forall pre, isPrefix pre rel = true -> pre ≠ rel ->
               isDirectory (fs w) (src ++ pre) = true) ->
  fs w !! (src ++ rel) = Some (File st data) ->
  (forall pre, isPrefix pre rel = true -> pre ≠ [] ->
               excluded env ignoreFilter (src ++ pre) = false) ->
  isPrefix dest (src ++ rel) = false ->
  (length dest + length rel <= maxDepth env)%nat ->
  (length rel <= S room)%nat ->
  (forall q, q ∈ ancestors (dest ++ rel) -> freeOrDir w q = true) ->
  freeOrFile w (dest ++ rel) = true ->
  exists w',
    copyDirectoryIn env room src dest ignoreFilter w = Ok tt w'
    /\ fs w' !! (dest ++ rel) = Some (File st data).
Proof.
  induction rel as [|name1 rel' IH]; [contradiction|].
  intros room src dest w _ Hdest H1 H2 H3 Hdisj Hdepth Hroom H6 H7.
  simpl in Hdepth, Hroom.
  assert (Hsrc : isDirectory (fs w) src = true).
  { rewrite <- (app_nil_r src). apply H1; [reflexivity|discriminate]. }
  unfold isDirectory in Hsrc. destruct (fs w !! src) as [[|st0|]|] eqn:Esrc; try discriminate.
  clear Hsrc.
  assert (Hne : dest ≠ src).
  { intros ->. rewrite isPrefix_app in Hdisj. discriminate. }
  assert (Hup : forall d, d ∈ ancestors dest ++ [dest] -> d ∈ ancestors (dest ++ name1 :: rel')).
  { intros d Hd. apply upTo_elem in Hd as [Hd1 Hd2]; [|exact Hdest].
    apply elem_ancestors. split; [exact Hd1|]. split.
    - intros ->. apply isPrefix_length in Hd2. rewrite length_app in Hd2. simpl in Hd2. lia.
    - eapply isPrefix_trans; [exact Hd2|apply isPrefix_app]. }
  rewrite copyDirectoryIn_steps. unfold tryCatch.
  destruct (walk_prologue env Hok src dest w
              (fun entries => forEach entries (entryStep env room src dest ignoreFilter))
              st0 Hne Esrc) as (w0 & -> & _ & Hdirs0 & Hsame0 & Hkept0 & _).
  { apply tooLong_false. lia. }
  { intros d Hd. apply H6, Hup, Hd. }
  (* the source side is as it was *)
  assert (Hsrc0 : forall pre n, isPrefix pre (name1 :: rel') = true ->
                    fs w !! (src ++ pre) = Some n -> fs w0 !! (src ++ pre) = Some n).
  { intros pre n Hpre Hn. apply Hkept0; [|exact Hn]. intros E.
    rewrite <- E, isPrefix_app_same, Hpre in Hdisj. discriminate. }
  (* the entry of the file, or of the directory it lies in *)
  set (e1 := mkDirent name1 (match rel' with [] => false | _ => true end)).
  assert (He1 : e1 ∈ entriesOf (fs w0) src).
  { apply elem_entriesOf. simpl. destruct rel' as [|name2 rel''].
    - exists (File st data). split; [|reflexivity].
      apply (Hsrc0 [name1]); [apply isPrefix_refl|exact H2].
    - pose proof (H1 [name1]) as Hd. unfold isDirectory in Hd.
      destruct (fs w !! (src ++ [name1])) as [[|sd|]|] eqn:Ed;
        try (discriminate Hd; [simpl; rewrite String.eqb_refl; reflexivity|discriminate]).
      exists (Dir sd). split; [|reflexivity].
      apply (Hsrc0 [name1]); [simpl; rewrite String.eqb_refl; reflexivity|exact Ed]. }
  destruct (entriesOf_split _ _ _ He1) as (before & after & -> & Hnames).
  apply Forall_app in Hnames as [Hbefore Hafter]. simpl in Hbefore, Hafter.
  rewrite forEach_app. unfold bind at 1.
  (* the entries before *)
  destruct (siblings_keep env room src dest ignoreFilter name1
              (fun q => (q ≠ [] /\ isPrefix q (dest ++ name1 :: rel') = true)
                        \/ exists pre, isPrefix pre (name1 :: rel') = true /\ q = src ++ pre)
              before w0 Hdest Hbefore) as (w1 & -> & Hw1).
  { intros q [[_ Hq]|(pre & Hpre & ->)] n Hn.
    - destruct (isPrefix (dest ++ [n]) q) eqn:E; [|reflexivity].
      pose proof (isPrefix_trans _ _ _ E Hq) as Hbad.
      rewrite isPrefix_app_same in Hbad. simpl in Hbad.
      apply andb_true_iff in Hbad as [Hbad _]. apply String.eqb_eq in Hbad. contradiction.
    - eapply isPrefix_false_above; [|apply isPrefix_app].
      eapply isPrefix_false_below; [exact Hdisj|].
      rewrite isPrefix_app_same. exact Hpre. }
  { intros q [[Hq1 Hq2]|(pre & Hpre & ->)].
    - destruct (isPrefix q dest) eqn:E; [|right; reflexivity]. left.
      assert (Hd : isDirectory (fs w0) q = true) by (apply Hdirs0, upTo_elem; auto).
      unfold isDirectory in Hd. destruct (fs w0 !! q); [eauto|discriminate].
    - left. destruct (decide (pre = name1 :: rel')) as [->|Hp].
      + rewrite (Hsrc0 _ _ Hpre H2). eauto.
      + pose proof (H1 pre Hpre Hp) as Hd. unfold isDirectory in Hd.
        destruct (fs w !! (src ++ pre)) as [n|] eqn:En; [|discriminate].
        rewrite (Hsrc0 _ _ Hpre En). eauto. }
  (* what the turn of [e1] finds *)
  assert (Hsrc1 : forall pre n, isPrefix pre (name1 :: rel') = true ->
                    fs w !! (src ++ pre) = Some n -> fs w1 !! (src ++ pre) = Some n).
  { intros pre n Hpre Hn. rewrite Hw1 by (right; eauto). apply Hsrc0; assumption. }
  assert (Hdirs1 : forall d, d ∈ ancestors dest ++ [dest] -> isDirectory (fs w1) d = true).
  { intros d Hd. unfold isDirectory. rewrite Hw1; [apply Hdirs0, Hd|]. left.
    apply upTo_elem in Hd as [? ?]; [|exact Hdest]. split; [assumption|].
    eapply isPrefix_trans; [eassumption|apply isPrefix_app]. }
  assert (Hdest1 : forall q, q ≠ [] -> isPrefix q (dest ++ name1 :: rel') = true ->
                     isPrefix q dest = false -> fs w1 !! q = fs w !! q).
  { intros q Hq1 Hq2 Hq3. rewrite Hw1 by (left; auto). apply Hsame0.
    intros Hin. apply upTo_elem in Hin as [_ Hin]; [congruence|exact Hdest]. }
  assert (Hlonger : forall r, r ≠ [] -> isPrefix (dest ++ r) dest = false).
  { intros r Hr. destruct (isPrefix (dest ++ r) dest) eqn:E; [|reflexivity].
    apply isPrefix_length in E. rewrite length_app in E. destruct r; [contradiction|].
    simpl in E. lia. }
  assert (Hhead : isPrefix [name1] (name1 :: rel') = true)
    by (simpl; rewrite String.eqb_refl; reflexivity).
  (* the turn of [e1] *)
  simpl forEach. unfold bind at 1.
  assert (Hturn : exists w2,
             entryStep env room src dest ignoreFilter e1 w1 = Ok tt w2
             /\ fs w2 !! (dest ++ name1 :: rel') = Some (File st data)).
  { unfold entryStep, e1. cbv zeta. cbn [name isDir].
    rewrite (H3 [name1] Hhead) by discriminate.
    destruct rel' as [|name2 rel''].
    - cbv iota.
      destruct (copyFile_copies env (src ++ [name1]) (dest ++ [name1]) st data w1)
        as (w2 & Hrun & Hfile & _); try apply Hok.
      + apply Hsrc1; [apply isPrefix_refl|exact H2].
      + intros E. apply app_inj_tail in E as [E _]. congruence.
      + apply snoc_not_nil.
      + rewrite dirname_snoc. intros d Hd n Hn. pose proof (Hdirs1 d Hd) as Hdir.
        unfold isDirectory in Hdir. rewrite Hn in Hdir. destruct n; try discriminate. eauto.
      + intros n Hn. rewrite Hdest1 in Hn;
          [apply (proj1 (freeOrFile_spec _ _) H7), Hn|apply snoc_not_nil| |].
        * apply isPrefix_refl.
        * apply Hlonger. discriminate.
      + apply tooLong_false. rewrite length_app. simpl. lia.
      + eauto.
    - cbv iota. destruct room as [|room']; [simpl in Hroom; lia|].
      destruct (IH room' (src ++ [name1]) (dest ++ [name1]) w1) as (w2 & Hrun & Hfile).
      + discriminate.
      + apply snoc_not_nil.
      + intros pre Hpre Hp. rewrite <- app_assoc. simpl.
        assert (Hpre' : isPrefix (name1 :: pre) (name1 :: name2 :: rel'') = true).
        { change (String.eqb name1 name1 && isPrefix pre (name2 :: rel'') = true).
          rewrite String.eqb_refl. exact Hpre. }
        pose proof (H1 (name1 :: pre) Hpre') as Hd. unfold isDirectory in Hd |- *.
        destruct (fs w !! (src ++ name1 :: pre)) as [n|] eqn:En;
          [|discriminate Hd; congruence].
        rewrite (Hsrc1 _ _ Hpre' En). apply Hd. congruence.
      + rewrite <- app_assoc. apply (Hsrc1 (name1 :: name2 :: rel'')); [apply isPrefix_refl|exact H2].
      + intros pre Hpre Hp. rewrite <- app_assoc. apply H3; [|discriminate].
        change (String.eqb name1 name1 && isPrefix pre (name2 :: rel'') = true).
        rewrite String.eqb_refl. exact Hpre.
      + rewrite <- app_assoc. simpl.
        eapply isPrefix_false_above; [exact Hdisj|apply isPrefix_app].
      + rewrite length_app. simpl in *. lia.
      + simpl in *. lia.
      + rewrite <- app_assoc. simpl. intros q Hq. apply freeOrDir_spec. intros n Hn.
        pose proof Hq as Hq'. apply elem_ancestors in Hq' as (Hq1 & Hq2 & Hq3).
        destruct (isPrefix q dest) eqn:E.
        * assert (Hd : isDirectory (fs w1) q = true) by (apply Hdirs1, upTo_elem; auto).
          unfold isDirectory in Hd. rewrite Hn in Hd. destruct n; try discriminate. eauto.
        * rewrite (Hdest1 q Hq1 Hq3 E) in Hn.
          apply (proj1 (freeOrDir_spec _ _) (H6 q Hq) n Hn).
      + rewrite <- app_assoc. simpl. apply freeOrFile_spec. intros n Hn.
        rewrite Hdest1 in Hn; [apply (proj1 (freeOrFile_spec _ _) H7), Hn| | |].
        * destruct dest; discriminate.
        * apply isPrefix_refl.
        * apply Hlonger. discriminate.
      + rewrite <- app_assoc in Hfile. eauto. }
  destruct Hturn as (w2 & -> & Hfile2).
  (* the entries after *)
  destruct (siblings_keep env room src dest ignoreFilter name1
              (fun q => q = dest ++ name1 :: rel') after w2 Hdest Hafter)
    as (w3 & -> & Hw3).
  { intros q -> n Hn. rewrite isPrefix_app_same. simpl.
    apply andb_false_iff. left. apply String.eqb_neq. exact Hn. }
  { intros q ->. left. rewrite Hfile2. eauto. }
  exists w3. split; [reflexivity|]. rewrite Hw3 by reflexivity. exact Hfile2.
Qed.
End CompletenessMain.

Section MirrorCopies.
Import Build Effects Frames Walk.
Local Open Scope script_scope.
Variable env : Env.

Lemma mirror_copies_file w rel st data :
  noFaults env ->
  rel ≠ [] -> head rel ≠ Some BUILD_DIR -> head rel ≠ Some ".git" ->
  (forall pre, isPrefix pre rel = true -> pre ≠ rel -> isDirectory (fs w) pre = true) ->
  fs w !! rel = Some (File st data) ->
  (forall pre, isPrefix pre rel = true -> pre ≠ [] ->
               Ignore.ignores (glob env) (compiledMatcher env w) pre = false) ->
  (S (length rel) <= maxDepth env)%nat ->
  exists w',
    mirrorWorkspace env w = Ok tt w'
    /\ fs w' !! (BUILD_DIR :: rel) = Some (File st data).
Proof.
  intros Hok Hrel Hbuild Hgit H1 H2 H3 Hdepth.
  rewrite mirrorWorkspace_cleaned by apply Hok.
  unfold afterClean.
  destruct (fsMkdir_ok env Hok [BUILD_DIR] (cleaned w)) as (m & Hmk & Hmade & _ & Hother).
  { apply tooLong_false. simpl. lia. }
  { intros d Hd. apply list_elem_of_singleton in Hd as ->.
    unfold freeOrDir. rewrite cleaned_build_empty. reflexivity. }
  unfold bind at 1. rewrite Hmk.
  set (wa := setFs m (cleaned w)).
  destruct (linkStep_resolves env wa) as ([] & wb & Hlink).
  pose proof (linkStep_touches env wa) as Htl. rewrite Hlink in Htl. simpl in Htl.
  unfold bind at 1. rewrite Hlink.
  destruct (createGitignoreFilter_compiled env wb) as (wc & Hig & Hfs & _).
  unfold bind at 1. rewrite Hig.
  (* the store the walk finds *)
  assert (Houtside : forall q, isPrefix [BUILD_DIR] q = false -> fs wc !! q = fs w !! q).
  { intros q Hq. rewrite Hfs. destruct (Htl q) as [-> | ->]; [|discriminate].
    unfold wa. simpl. rewrite Hother; [apply cleaned_elsewhere, Hq|].
    intros Hin. apply list_elem_of_singleton in Hin as ->. discriminate. }
  assert (Hinside : forall r, r ≠ [] -> r ≠ [".git"] -> fs wc !! (BUILD_DIR :: r) = None).
  { intros r Hr Hr'. rewrite Hfs. destruct (Htl (BUILD_DIR :: r)) as [-> | E]; [|congruence].
    unfold wa. simpl. rewrite Hother; [apply cleaned_build_empty|].
    intros Hin. apply list_elem_of_singleton in Hin. congruence. }
  assert (Hdir : isDirectory (fs wc) [BUILD_DIR] = true).
  { unfold isDirectory. rewrite Hfs. destruct (Htl [BUILD_DIR]) as [-> | E]; [|discriminate].
    apply Hmade, list_elem_of_here. }
  assert (Hmatcher : compiledMatcher env wb = compiledMatcher env w).
  { apply compiledMatcher_same. rewrite <- Hfs. apply Houtside. reflexivity. }
  rewrite Hmatcher.
  assert (Hout : forall pre, isPrefix pre rel = true -> isPrefix [BUILD_DIR] pre = false).
  { intros pre Hpre. destruct rel as [|first rest]; [contradiction|].
    destruct pre as [|a pre]; [reflexivity|]. cbn [isPrefix] in Hpre |- *.
    apply andb_true_iff in Hpre as [Ha _]. apply String.eqb_eq in Ha as ->.
    destruct (String.eqb_spec BUILD_DIR first) as [<-|]; [|reflexivity].
    destruct Hbuild. reflexivity. }
  assert (Hnogit : forall pre, isPrefix pre rel = true -> pre ≠ [".git"]).
  { intros pre Hpre ->. destruct rel as [|first rest]; [contradiction|].
    cbn [isPrefix] in Hpre. apply andb_true_iff in Hpre as [Ha _].
    apply String.eqb_eq in Ha as <-. destruct Hgit. reflexivity. }
  destruct (copyDirectoryIn_copies env Hok (Some (compiledMatcher env w)) st data rel
              (maxDepth env - length [BUILD_DIR]) [] [BUILD_DIR] wc) as (wd & Hwalk & Hfile).
  - exact Hrel.
  - discriminate.
  - intros pre Hpre Hp. cbn [app]. unfold isDirectory.
    rewrite Houtside by (apply Hout, Hpre). apply (H1 pre Hpre Hp).
  - cbn [app]. rewrite Houtside by (apply Hout, isPrefix_refl). exact H2.
  - intros pre Hpre Hp. cbn [app]. apply (H3 pre Hpre Hp).
  - cbn [app]. apply Hout, isPrefix_refl.
  - cbn [length]. lia.
  - cbn [length]. lia.
  - cbn [app]. intros q Hq. apply freeOrDir_spec. intros n Hn.
    apply elem_ancestors in Hq as (Hq1 & Hq2 & Hq3).
    destruct q as [|a q]; [contradiction|]. cbn [isPrefix] in Hq3.
    apply andb_true_iff in Hq3 as [Ha Hq3]. apply String.eqb_eq in Ha as ->.
    destruct q as [|b q].
    + unfold isDirectory in Hdir. rewrite Hn in Hdir. destruct n; try discriminate. eauto.
    + rewrite Hinside in Hn; [discriminate|discriminate|]. apply Hnogit, Hq3.
  - cbn [app]. apply freeOrFile_spec. intros n Hn.
    rewrite Hinside in Hn; [discriminate|exact Hrel|].
    apply Hnogit, isPrefix_refl.
  - unfold copyDirectory. unfold bind at 1. rewrite Hwalk.
    eexists. split; [reflexivity|]. exact Hfile.
Qed.

End MirrorCopies.

Section Customizations.
Import Build Effects Frames Walk.
Local Open Scope script_scope.
Variable env : Env.

Lemma isPrefix_app_r (p q r : path) : isPrefix p q = true -> isPrefix p (q ++ r) = true.
Proof. intros H. eapply isPrefix_trans; [exact H|apply isPrefix_app]. Qed.

Lemma quartzRepo_not_nil : quartzRepo env ≠ [].
Proof. unfold quartzRepo. destruct (noBuildDir env); discriminate. Qed.

Lemma copyCustomizations_made :
  respects (madeOrBelow (quartzRepo env)) (copyCustomizations env).
Proof.
  unfold copyCustomizations. fold (quartzRepo env). fold (srcDir env).
  apply respects_bind; [apply _|apply consoleLog_made|intros _].
  apply respects_tryCatch; [apply _| |].
  2:{ intros message. apply respects_bind; [apply _|apply consoleError_made|intros _].
      apply respects_throw. apply _. }
  apply respects_bind; [apply _| |intros srcEntries].
  { intros w. apply madeOrBelow_same_store, fsReaddir_same. }
  apply respects_bind; [apply _| |intros _].
  { apply respects_forEach; [apply _|]. intros entry.
    destruct (String.eqb (name entry) "quartz" || String.eqb (name entry) "quartz_overrides");
      [apply respects_ret; apply _|].
    destruct (isDir entry).
    - eapply respects_madeOrBelow_mono; [apply isPrefix_app|].
      apply copyDirectory_made, snoc_not_nil.
    - eapply respects_madeOrBelow_mono; [apply isPrefix_app|].
      apply copyFile_made. rewrite dirname_snoc. apply quartzRepo_not_nil. }
  apply respects_tryCatch; [apply _| |intros; apply respects_ret; apply _].
  apply respects_bind; [apply _| |intros _].
  { intros w. unfold fsAccess, bind.
    destruct (guard_run env (SysAccess (srcDir env ++ ["quartz_overrides"])) w)
      as [->|[message ->]]; [|reflexivity].
    destruct (fs w !! _); reflexivity. }
  apply respects_bind; [apply _| |intros overridesEntries].
  { intros w. apply madeOrBelow_same_store, fsReaddir_same. }
  apply respects_bind; [apply _| |intros _; apply consoleLog_made].
  apply respects_forEach; [apply _|]. intros entry. cbv zeta.
  assert (Hunder : isPrefix (quartzRepo env) (quartzRepo env ++ ["quartz"; name entry]) = true)
    by apply isPrefix_app.
  assert (Hdirname : dirname (quartzRepo env ++ ["quartz"; name entry])
                     = quartzRepo env ++ ["quartz"]).
  { change ["quartz"; name entry] with (["quartz"] ++ [name entry]).
    rewrite app_assoc. apply dirname_snoc. }
  destruct (isDir entry).
  - eapply respects_madeOrBelow_mono; [exact Hunder|].
    apply copyDirectory_made. destruct (quartzRepo env); discriminate.
  - apply respects_bind; [apply _| |intros _].
    + rewrite Hdirname. eapply respects_madeOrBelow_mono; [apply isPrefix_app|].
      apply fsMkdir_made.
    + eapply respects_madeOrBelow_mono; [exact Hunder|].
      apply copyFile_made. rewrite Hdirname. apply snoc_not_nil.
Qed.

End Customizations.

Section CustomizationsFail.
Import Build Effects Frames Walk Outcomes.
Local Open Scope script_scope.
Variable env : Env.

Lemma copyDirectory_resolves src dest ignoreFilter :
  resolves (copyDirectory env src dest ignoreFilter).
Proof. apply copyDirectoryIn_resolves. Qed.

Lemma copyCustomizations_steps :
  copyCustomizations env
  = (consoleLog (copyingLine env) ;;
     tryCatch
       (srcEntries <- fsReaddir env (srcDir env) ;; customize env srcEntries)
       (fun message =>
          consoleError ("Error copying customizations: " +:+ message) ;;
          throw message)).
Proof. reflexivity. Qed.

(** What [copyCustomizations] does once the source directory is listed
    never rejects. *)
Lemma customize_resolves (srcEntries : list Dirent) : resolves (customize env srcEntries).
Proof.
  apply resolves_bind.
  - apply resolves_forEach. intros entry. cbv zeta.
    destruct (_ || _); [apply resolves_ret|].
    destruct (isDir entry); [apply copyDirectory_resolves|apply copyFile_resolves].
  - intros _. apply resolves_tryCatch. intros _. apply resolves_ret.
Qed.

Lemma copyCustomizations_cases w :
  copyCustomizations env w
  = match fsReaddir env (srcDir env) (print LOG (copyingLine env) w) with
    | Ok srcEntries w1 =>
        match customize env srcEntries w1 with
        | Ok a w2 => Ok a w2
        | Throw message w2 =>
            Throw message (print ERROR ("Error copying customizations: " +:+ message) w2)
        end
    | Throw message w1 =>
        Throw message (print ERROR ("Error copying customizations: " +:+ message) w1)
    end.
Proof.
  rewrite copyCustomizations_steps. unfold bind, tryCatch, consoleLog, consoleError, throw.
  destruct (fsReaddir env (srcDir env) (print LOG (copyingLine env) w)) as [srcEntries w1|e w1];
    [|reflexivity].
  destruct (customize env srcEntries w1); reflexivity.
Qed.

Lemma copyCustomizations_run w :
  (exists message,
      (faulty env (SysReaddir (srcDir env)) = true \/ isDirectory (fs w) (srcDir env) = false)
      /\ copyCustomizations env w
         = Throw message
                 (mkWorld (fs w)
                          (console w ++ [(LOG, copyingLine env);
                                         (ERROR, "Error copying customizations: " +:+ message)])))
  \/ (faulty env (SysReaddir (srcDir env)) = false
      /\ isDirectory (fs w) (srcDir env) = true
      /\ exists w', copyCustomizations env w = Ok tt w').
Proof.
  assert (Hshape : forall message,
             print ERROR ("Error copying customizations: " +:+ message)
                   (print LOG (copyingLine env) w)
             = mkWorld (fs w)
                       (console w ++ [(LOG, copyingLine env);
                                      (ERROR, "Error copying customizations: " +:+ message)])).
  { intros message. unfold print. simpl. rewrite <- app_assoc. reflexivity. }
  rewrite copyCustomizations_cases. unfold fsReaddir, bind, guard.
  destruct (faulty env (SysReaddir (srcDir env))).
  { left. eexists. split; [left; reflexivity|]. rewrite <- Hshape. reflexivity. }
  cbn [fs print].
  destruct (isDirectory (fs w) (srcDir env)).
  2:{ left. destruct (fs w !! srcDir env);
        (eexists; split; [right; reflexivity|]; rewrite <- Hshape; reflexivity). }
  right. split; [reflexivity|]. split; [reflexivity|].
  destruct (customize_resolves (entriesOf (fs w) (srcDir env))
              (print LOG (copyingLine env) w)) as ([] & w' & Hrun).
  exists w'. cbv beta iota. rewrite Hrun. reflexivity.
Qed.
End CustomizationsFail.

Section SyncPass.
Import Build Effects Frames Walk Outcomes Passes.
Local Open Scope script_scope.
Variable env : Env.

Lemma dirname_cons (s : string) (p : path) : p ≠ [] -> dirname (s :: p) = s :: dirname p.
Proof. intros Hp. unfold dirname. destruct p; [contradiction|reflexivity]. Qed.

Lemma head_isPrefix (b : string) (p q : path) :
  q ≠ [] -> isPrefix q (b :: p) = true -> isPrefix [b] q = true.
Proof.
  intros Hq Hpre. destruct q as [|a q]; [contradiction|]. cbn [isPrefix] in Hpre |- *.
  apply andb_true_iff in Hpre as [Ha _]. apply String.eqb_eq in Ha as ->.
  rewrite String.eqb_refl. reflexivity.
Qed.

Lemma upTo_dirname (p q : path) :
  dirname p ≠ [] -> q ∈ ancestors (dirname p) ++ [dirname p] -> q ∈ ancestors p.
Proof.
  intros Hp Hq. destruct p as [|s p _] using rev_ind; [contradiction|].
  rewrite dirname_snoc in Hq, Hp. apply ancestors_snoc; [exact Hp|].
  apply elem_of_app in Hq as [Hq|Hq]; [auto|].
  apply list_elem_of_singleton in Hq. auto.
Qed.

(** A pass for a directory event only logs its first line. *)
Lemma syncChanges_directory ev p w :
  ev = EvAddDir \/ ev = EvUnlinkDir ->
  syncChanges env ev p w = Ok tt (mkWorld (fs w) (console w ++ [syncingLine])).
Proof. intros [-> | ->]; reflexivity. Qed.

(** A pass never rejects. *)
Lemma syncChanges_resolves ev p : resolves (syncChanges env ev p).
Proof. apply resolves_tryCatch. intros message. apply resolves_print. Qed.

End SyncPass.

Section WatcherMore.
Import Build Effects Frames Walk Outcomes Passes.
Local Open Scope script_scope.
Variable env : Env.

(** Before the initial scan is over the listener arms no timer: an event
    is logged in verbose mode and otherwise dropped. *)
Lemma deliver_before_ready now ev fp wt w :
  isReady wt = false -> debounceTimer wt = None ->
  deliver env now (Changed ev fp) wt w
  = Ok wt (if negb (ignored env wt fp) && verbose env
           then print LOG (eventName ev +:+ ": " +:+ showPath fp) w
           else w).
Proof.
  intros Hready Htimer. unfold deliver, fireDue, bind. rewrite Htimer. cbn [ret].
  destruct (ignored env wt fp); [reflexivity|].
  unfold onAll, bind, when. rewrite Hready. cbn [andb negb orb].
  rewrite orb_false_r. destruct (verbose env); reflexivity.
Qed.

(** An event that arrives when the pending timer is due: the pass of the
    pending timer runs first, then the event arms a new timer. *)
Lemma deliver_after_window now ev fp wt t w :
  isReady wt = true ->
  debounceTimer wt = Some t -> (due t <= now)%nat ->
  ignored env wt fp = false ->
  deliver env now (Changed ev fp) wt w
  = (syncChanges env (event t) (filePath t) ;;
     logEvent env ev fp ;;
     ret (mkWatcher (ignoreFilter wt) true (Some (mkTimer (now + 500) ev fp)))) w.
Proof.
  intros Hready Htimer Hdue Hign. unfold deliver, fireDue. rewrite Htimer.
  apply Nat.leb_le in Hdue. rewrite Hdue. unfold bind.
  destruct (syncChanges env (event t) (filePath t) w) as [[] w1|e w1]; [|reflexivity].
  cbn [ret]. unfold ignored in *. cbn [ignoreFilter]. rewrite Hign.
  unfold onAll, logEvent, bind. cbn [isReady ignoreFilter]. rewrite Hready. cbn [andb negb].
  reflexivity.
Qed.

(** An event that arrives when no timer is pending arms one. *)
Lemma deliver_idle now ev fp wt w :
  isReady wt = true -> debounceTimer wt = None ->
  ignored env wt fp = false ->
  deliver env now (Changed ev fp) wt w
  = (logEvent env ev fp ;;
     ret (mkWatcher (ignoreFilter wt) true (Some (mkTimer (now + 500) ev fp)))) w.
Proof.
  intros Hready Htimer Hign. unfold deliver, fireDue. rewrite Htimer. unfold bind.
  cbn [ret]. rewrite Hign. unfold onAll, logEvent, bind. rewrite Hready. cbn [andb negb].
  reflexivity.
Qed.

End WatcherMore.

Section MainMore.
Import Build Effects Frames Walk Outcomes Passes.
Local Open Scope script_scope.
Variable env : Env.

Lemma quartzChild_args :
  quartzChild env = spawn env "node" (quartzArgs (serve env)) (quartzRepo env).
Proof. unfold quartzChild, quartzArgs. destruct (serve env), (watch env); reflexivity. Qed.

(** [runQuartzBuild] when both children close with code 0. *)
Lemma runQuartzBuild_succeeds w :
  ended (installChild env) = Close (Some 0) ->
  ended (quartzChild env) = Close (Some 0) ->
  runQuartzBuild env w
  = Ok tt (mkWorld (fs w)
                   (console w
                    ++ [(LOG, "
Running Quartz build...");
                        (LOG, "Installing dependencies in " +:+ showPath (quartzRepo env)
                              +:+ "...")]
                    ++ map (fun line => (CHILD, line)) (written (installChild env))
                    ++ map (fun line => (CHILD, line)) (written (quartzChild env)))).
Proof.
  intros Hinstall Hquartz.
  unfold runQuartzBuild, installDependencies. fold (quartzRepo env).
  fold (installChild env). fold (quartzChild env).
  unfold bind, consoleLog, inheritStdio, print. cbn [fs console].
  rewrite Hinstall, Hquartz. cbn [awaitChild ret fs console].
  rewrite <- !app_assoc. reflexivity.
Qed.

(** [main] when everything before the build and both children succeed. *)
Lemma main_succeeds w w1 :
  beforeBuild env w = Ok tt w1 ->
  ended (installChild env) = Close (Some 0) ->
  ended (spawn env "node" (quartzArgs (serve env)) (quartzRepo env)) = Close (Some 0) ->
  main env w
  = (mkWorld (fs w1)
             (console w1
              ++ [(LOG, "
Running Quartz build...");
                  (LOG, "Installing dependencies in " +:+ showPath (quartzRepo env)
                        +:+ "...")]
              ++ map (fun line => (CHILD, line)) (written (installChild env))
              ++ map (fun line => (CHILD, line))
                     (written (spawn env "node" (quartzArgs (serve env)) (quartzRepo env)))
              ++ (if negb (watch env) && negb (serve env)
                  then [(LOG, "
Build completed!")]
                  else [])),
     Returned).
Proof.
  intros Hbefore Hinstall Hquartz. rewrite <- quartzChild_args in *.
  rewrite (main_after_beforeBuild env w w1 Hbefore). unfold bind.
  rewrite (runQuartzBuild_succeeds w1 Hinstall Hquartz).
  destruct (negb (watch env) && negb (serve env)); cbn [when ret consoleLog print fs console].
  - unfold print. cbn [fs console]. rewrite <- !app_assoc. reflexivity.
  - rewrite !app_nil_r. reflexivity.
Qed.

(** With [--no-build-dir] the script neither mirrors the workspace nor sets
    up the watcher, whatever the other flags say. *)
Lemma beforeBuild_no_build_dir w :
  noBuildDir env = true -> beforeBuild env w = copyCustomizations env w.
Proof.
  intros Hno. unfold beforeBuild. rewrite Hno, andb_false_r. cbn [negb when].
  unfold bind. cbn [ret]. destruct (copyCustomizations env w) as [[] w'|e w']; reflexivity.
Qed.

(** [mirrorWorkspace] rejects exactly when the build directory cannot be
    made. *)
Lemma mirrorWorkspace_cases w :
  match fsMkdir env [BUILD_DIR] (afterRm env w) with
  | Ok _ _ => exists w', mirrorWorkspace env w = Ok tt w'
  | Throw message w1 => mirrorWorkspace env w = Throw message w1
  end.
Proof.
  unfold mirrorWorkspace, afterRm.
  assert (Hrm : exists w0,
             (consoleLog "Mirroring workspace to build directory..." ;;
              tryCatch (fsRm env [BUILD_DIR]) (fun _ => ret tt)) w = Ok tt w0).
  { unfold bind, consoleLog, tryCatch, fsRm, guard.
    destruct (faulty env (SysRm [BUILD_DIR])); eauto. }
  destruct Hrm as (w0 & Hrm).
  assert (Hsplit : forall (k : M unit),
             (consoleLog "Mirroring workspace to build directory..." ;;
              tryCatch (fsRm env [BUILD_DIR]) (fun _ => ret tt) ;; k) w = k w0).
  { intros k. unfold bind in Hrm |- *. unfold consoleLog in Hrm |- *.
    destruct (tryCatch (fsRm env [BUILD_DIR]) (fun _ => ret tt) _) as [[] wx|e wx];
      [|discriminate].
    injection Hrm as ->. reflexivity. }
  rewrite Hsplit, Hrm. cbn [worldOf].
  destruct (fsMkdir env [BUILD_DIR] w0) as [[] w1|message w1] eqn:Hmk;
    unfold bind at 1; rewrite Hmk; [|reflexivity].
  destruct (linkStep_resolves env w1) as ([] & w2 & Hlink). unfold linkStep in Hlink.
  unfold bind at 1. rewrite Hlink.
  destruct (createGitignoreFilter_compiled env w2) as (w3 & Hig & _).
  unfold bind at 1. rewrite Hig.
  destruct (copyDirectory_resolves env [] [BUILD_DIR] (Some (compiledMatcher env w2)) w3)
    as ([] & w4 & Hcopy).
  unfold bind. rewrite Hcopy. eauto.
Qed.
End MainMore.

(** * Further properties of the build script *)

Section CopyFileProperties.
Import Build Effects Frames Walk Outcomes Passes.
Local Open Scope script_scope.

(** X1. [copyFile] preserves bytes, modification time and permissions: when
    no system call fails, the source is a regular file, the path of the
    destination is within the platform's limit and nothing but directories
    lies above the destination (and nothing but a regular file at it),
    [copyFile] resolves, the destination is a regular file with the bytes,
    the modification time and the mode of the source, and the one line it
    logs, in verbose mode only, is [Copied <src>]. Nothing is said of the
    access time of the copy: it is the one the source has once it was
    read. *)
Theorem X1_copyFile_preserves_bytes_mtime_mode
        (env : Env) (src dest : path) (st : Stats) (data : string) (w : World) :
  noFaults env ->
  fs w !! src = Some (File st data) ->
  src ≠ dest -> dest ≠ [] ->
  Forall (fun d => freeOrDir w d = true) (ancestors (dirname dest) ++ [dirname dest]) ->
  freeOrFile w dest = true ->
  (length dest <= maxDepth env)%nat ->
  exists w',
    copyFile env src dest w = Ok tt w'
    /\ copyOf st data (fs w' !! dest)
    /\ console w'
       = console w ++ (if verbose env then [(LOG, "Copied " +:+ showPath src)] else []).
Proof.
  intros Hok Hsrc Hne Hdest Hdirs Hfree Hdepth.
  assert (Hcopy : forall found, found = Some (File st data) -> copyOf st data found).
  { intros found ->. exists (atime st). destruct st; reflexivity. }
  destruct (copyFile_ok env src dest st data w) as (m & Hrun & Hm); try apply Hok.
  - exact Hsrc.
  - exact Hne.
  - exact Hdest.
  - intros d Hd. apply freeOrDir_spec. rewrite Forall_forall in Hdirs. apply Hdirs, Hd.
  - apply freeOrFile_spec, Hfree.
  - apply tooLong_false, Hdepth.
  - rewrite Hrun. eexists. split; [reflexivity|].
    unfold print_if. destruct (verbose env); cbn [fs console print setFs].
    + split; [apply Hcopy, Hm|reflexivity].
    + split; [apply Hcopy, Hm|]. rewrite app_nil_r. reflexivity.
Qed.

Lemma X1_copyFile_preserves_bytes_mtime_mode_witness :
  noFaults Samples.quiet
  /\ fs Samples.edited !! ["a.md"] = Some (File Samples.plain "A2")
  /\ ["a.md"] ≠ ["build"; "a.md"]
  /\ ["build"; "a.md"] ≠ []
  /\ Forall (fun d => freeOrDir Samples.edited d = true)
            (ancestors (dirname ["build"; "a.md"]) ++ [dirname ["build"; "a.md"]])
  /\ freeOrFile Samples.edited ["build"; "a.md"] = true
  /\ (length ["build"; "a.md"] <= maxDepth Samples.quiet)%nat
  /\ exists w',
      copyFile Samples.quiet ["a.md"] ["build"; "a.md"] Samples.edited = Ok tt w'
      /\ copyOf Samples.plain "A2" (fs w' !! ["build"; "a.md"])
      /\ console w'
         = console Samples.edited
           ++ (if verbose Samples.quiet then [(LOG, "Copied " +:+ showPath ["a.md"])] else []).
Proof.
  assert (H1 : noFaults Samples.quiet) by (intros s; reflexivity).
  assert (H2 : fs Samples.edited !! ["a.md"] = Some (File Samples.plain "A2"))
    by (vm_compute; reflexivity).
  assert (H3 : ["a.md"] ≠ ["build"; "a.md"]) by discriminate.
  assert (H4 : ["build"; "a.md"] ≠ ([] : path)) by discriminate.
  assert (H5 : Forall (fun d => freeOrDir Samples.edited d = true)
                      (ancestors (dirname ["build"; "a.md"]) ++ [dirname ["build"; "a.md"]])).
  { repeat constructor. }
  assert (H6 : freeOrFile Samples.edited ["build"; "a.md"] = true) by (vm_compute; reflexivity).
  assert (H7 : (length ["build"; "a.md"] <= maxDepth Samples.quiet)%nat)
    by (vm_compute; lia).
  repeat (split; [assumption|]).
  exact (X1_copyFile_preserves_bytes_mtime_mode Samples.quiet ["a.md"] ["build"; "a.md"]
           Samples.plain "A2" Samples.edited H1 H2 H3 H4 H5 H6 H7).
Defined.

(** What [fs.mkdir] finds missing is missing afterwards or a new
    directory. *)
Lemma mkdirs_new env dirs : forall m m',
  mkdirs env dirs m = Some m' ->
  forall q, m !! q = None ->
            m' !! q = None \/ m' !! q = Some (Dir (created env)).
Proof.
  induction dirs as [|d dirs IH]; intros m m' Hm q Hq; simpl in Hm.
  - injection Hm as <-. auto.
  - destruct (m !! d) as [[| |]|] eqn:Hd; try discriminate.
    + apply (IH _ _ Hm q Hq).
    + destruct (decide (d = q)) as [<- | Hne].
      * right. destruct (mkdirs_lookup env _ _ _ Hm d) as [-> | [E _]].
        -- apply lookup_insert_eq.
        -- rewrite lookup_insert_eq in E. discriminate.
      * apply (IH _ _ Hm q). rewrite lookup_insert_ne by exact Hne. exact Hq.
Qed.

Lemma fsCopyFile_missing env src dest w :
  readSource env (fs w) src = None ->
  exists message, fsCopyFile env src dest w = Throw message w.
Proof.
  intros Hsrc. unfold fsCopyFile, bind, guard.
  destruct (faulty env (SysCopyFile src dest)); [eauto|]. rewrite Hsrc. eauto.
Qed.

(** X2. A copy of a file that is not there: [copyFile] resolves, logs one
    warning that names the source and carries the message of the error,
    leaves what is at the destination as it was and changes nothing that
    existed. (The directories above the destination are made first, so they
    may be new.) *)
Theorem X2_copyFile_missing_source_warns
        (env : Env) (src dest : path) (w : World) :
  fs w !! src = None ->
  dest ≠ [] ->
  exists message w',
    copyFile env src dest w = Ok tt w'
    /\ console w'
       = console w ++ [(WARN, "Warning: Could not copy " +:+ showPath src
                              +:+ ": " +:+ message)]
    /\ fs w' !! dest = fs w !! dest
    /\ forall q n, fs w !! q = Some n -> fs w' !! q = Some n.
Proof.
  intros Hsrc Hdest. unfold copyFile, tryCatch. unfold bind at 1.
  destruct (fsMkdir_cases env (dirname dest) w) as [(m & -> & Hm)|[message ->]].
  - assert (Hread : readSource env (fs (setFs m w)) src = None).
    { unfold readSource. cbn [fs setFs].
      destruct (mkdirs_new env _ _ _ Hm src Hsrc) as [-> | ->]; reflexivity. }
    destruct (fsCopyFile_missing env src dest _ Hread) as [message Hcopy].
    unfold bind at 1. rewrite Hcopy. exists message. eexists. split; [reflexivity|].
    cbn [console fs consoleWarn print setFs]. split; [reflexivity|].
    assert (Hnot : dest ∉ ancestors (dirname dest) ++ [dirname dest]).
    { intros Hin. apply upTo_isPrefix in Hin. apply isPrefix_length in Hin.
      destruct dest as [|s dest _] using rev_ind; [contradiction|].
      rewrite dirname_snoc, length_app in Hin. simpl in Hin. lia. }
    split.
    + destruct (mkdirs_lookup env _ _ _ Hm dest) as [E | [_ Hin]]; [exact E|contradiction].
    + intros q n Hn. destruct (mkdirs_lookup env _ _ _ Hm q) as [E | [E _]]; congruence.
  - exists message. eexists. split; [reflexivity|].
    cbn [console fs consoleWarn print]. auto.
Qed.

Lemma X2_copyFile_missing_source_warns_witness :
  fs Samples.edited !! ["gone.md"] = None
  /\ ["build"; "gone.md"] ≠ []
  /\ exists message w',
      copyFile Samples.quiet ["gone.md"] ["build"; "gone.md"] Samples.edited = Ok tt w'
      /\ console w'
         = console Samples.edited
           ++ [(WARN, "Warning: Could not copy " +:+ showPath ["gone.md"]
                      +:+ ": " +:+ message)]
      /\ fs w' !! ["build"; "gone.md"] = fs Samples.edited !! ["build"; "gone.md"]
      /\ forall q n, fs Samples.edited !! q = Some n -> fs w' !! q = Some n.
Proof.
  assert (H1 : fs Samples.edited !! ["gone.md"] = None) by (vm_compute; reflexivity).
  assert (H2 : ["build"; "gone.md"] ≠ ([] : path)) by discriminate.
  split; [exact H1|]. split; [exact H2|].
  exact (X2_copyFile_missing_source_warns Samples.quiet ["gone.md"] ["build"; "gone.md"]
           Samples.edited H1 H2).
Defined.
End CopyFileProperties.

Section WalkProperties.
Import Build Effects Frames Walk Outcomes Passes.
Local Open Scope script_scope.

Lemma proper_prefix_cases (pre rel : path) :
  isPrefix pre rel = true -> pre ≠ rel -> pre ∈ [] :: ancestors rel.
Proof.
  intros Hpre Hne. destruct (decide (pre = [])) as [-> | Hnil]; [apply list_elem_of_here|].
  apply elem_of_cons. right. apply elem_ancestors. auto.
Qed.

Lemma prefix_cases (pre rel : path) :
  isPrefix pre rel = true -> pre ≠ [] -> pre ∈ ancestors rel ++ [rel].
Proof.
  intros Hpre Hne. apply elem_of_app. destruct (decide (pre = rel)) as [-> | Hrel].
  - right. apply list_elem_of_here.
  - left. apply elem_ancestors. auto.
Qed.

(** X3. [copyDirectory] copies every file it is not told to skip. Take a
    regular file below the source directory such that the source and every
    directory between it and the file are directories, the filter (if any)
    excludes neither the file nor a directory on the way to it, the file
    does not lie below the destination, its copy is within the platform's
    path limit, nothing but directories is in the way above the copy and
    nothing but a regular file at it. When no system call fails,
    [copyDirectory] resolves and the copy has the bytes, the modification
    time and the mode of the file (nothing is said of its access time). *)
Theorem X3_copyDirectory_copies_included_files
        (env : Env) (ignoreFilter : option (list Ignore.Rule))
        (src dest rel : path) (st : Stats) (data : string) (w : World) :
  noFaults env ->
  dest ≠ [] ->
  Forall (fun pre => isDirectory (fs w) (src ++ pre) = true) ([] :: ancestors rel) ->
  fs w !! (src ++ rel) = Some (File st data) ->
  Forall (fun pre => excluded env ignoreFilter (src ++ pre) = false)
         (ancestors rel ++ [rel]) ->
  isPrefix dest (src ++ rel) = false ->
  (length dest + length rel <= maxDepth env)%nat ->
  Forall (fun q => freeOrDir w q = true) (ancestors (dest ++ rel)) ->
  freeOrFile w (dest ++ rel) = true ->
  exists w',
    copyDirectory env src dest ignoreFilter w = Ok tt w'
    /\ copyOf st data (fs w' !! (dest ++ rel)).
Proof.
  intros Hok Hdest Hdirs Hfile Hincl Hapart Hdepth Hway Hfree.
  rewrite Forall_forall in Hdirs, Hincl, Hway.
  assert (Hrel : rel ≠ []).
  { intros ->. rewrite app_nil_r in Hfile.
    pose proof (Hdirs [] (list_elem_of_here _ _)) as Hd. unfold isDirectory in Hd.
    rewrite app_nil_r, Hfile in Hd. discriminate. }
  destruct (copyDirectoryIn_copies env Hok ignoreFilter st data rel
              (maxDepth env - length dest) src dest w) as (w' & Hrun & Hcopy);
    try assumption.
  - intros pre Hpre Hne. apply Hdirs, proper_prefix_cases; assumption.
  - intros pre Hpre Hne. apply Hincl, prefix_cases; assumption.
  - lia.
  - exists w'. split; [exact Hrun|]. rewrite Hcopy.
    exists (atime st). destruct st; reflexivity.
Qed.

Lemma X3_copyDirectory_copies_included_files_witness :
  noFaults Samples.quiet
  /\ ["out"] ≠ []
  /\ Forall (fun pre => isDirectory (fs Samples.workspace) (["src"] ++ pre) = true)
            ([] :: ancestors ["x.ts"])
  /\ fs Samples.workspace !! (["src"] ++ ["x.ts"]) = Some (File Samples.plain "X")
  /\ Forall (fun pre => excluded Samples.quiet None (["src"] ++ pre) = false)
            (ancestors ["x.ts"] ++ [["x.ts"]])
  /\ isPrefix ["out"] (["src"] ++ ["x.ts"]) = false
  /\ (length ["out"] + length ["x.ts"] <= maxDepth Samples.quiet)%nat
  /\ Forall (fun q => freeOrDir Samples.workspace q = true) (ancestors (["out"] ++ ["x.ts"]))
  /\ freeOrFile Samples.workspace (["out"] ++ ["x.ts"]) = true
  /\ exists w',
      copyDirectory Samples.quiet ["src"] ["out"] None Samples.workspace = Ok tt w'
      /\ copyOf Samples.plain "X" (fs w' !! (["out"] ++ ["x.ts"])).
Proof.
  assert (H1 : noFaults Samples.quiet) by (intros s; reflexivity).
  assert (H2 : ["out"] ≠ ([] : path)) by discriminate.
  assert (H3 : Forall (fun pre => isDirectory (fs Samples.workspace) (["src"] ++ pre) = true)
                      ([] :: ancestors ["x.ts"])) by (repeat constructor).
  assert (H4 : fs Samples.workspace !! (["src"] ++ ["x.ts"]) = Some (File Samples.plain "X"))
    by (vm_compute; reflexivity).
  assert (H5 : Forall (fun pre => excluded Samples.quiet None (["src"] ++ pre) = false)
                      (ancestors ["x.ts"] ++ [["x.ts"]])) by (repeat constructor).
  assert (H6 : isPrefix ["out"] (["src"] ++ ["x.ts"]) = false) by reflexivity.
  assert (H7 : (length ["out"] + length ["x.ts"] <= maxDepth Samples.quiet)%nat)
    by (vm_compute; lia).
  assert (H8 : Forall (fun q => freeOrDir Samples.workspace q = true)
                      (ancestors (["out"] ++ ["x.ts"]))) by (repeat constructor).
  assert (H9 : freeOrFile Samples.workspace (["out"] ++ ["x.ts"]) = true)
    by (vm_compute; reflexivity).
  repeat (split; [assumption|]).
  exact (X3_copyDirectory_copies_included_files Samples.quiet None ["src"] ["out"] ["x.ts"]
           Samples.plain "X" Samples.workspace H1 H2 H3 H4 H5 H6 H7 H8 H9).
Defined.

(** X4. The mirror pass is complete for regular files: when no system call
    fails, a regular file of the workspace that lies in directories, is not
    excluded by the compiled matcher (nor is a directory on the way to it),
    does not lie below [build] or [.git] and whose copy is within the
    platform's path limit is, after [mirrorWorkspace], at the same path below
    [build/] with the same bytes, modification time and mode (nothing is said
    of the access time of the copy). *)
Theorem X4_mirrorWorkspace_copies_included_files
        (env : Env) (rel : path) (st : Stats) (data : string) (w : World) :
  noFaults env ->
  head rel ≠ Some BUILD_DIR -> head rel ≠ Some ".git" ->
  Forall (fun d => isDirectory (fs w) d = true) ([] :: ancestors rel) ->
  fs w !! rel = Some (File st data) ->
  Forall (fun p => Ignore.ignores (glob env) (compiledMatcher env w) p = false)
         (ancestors rel ++ [rel]) ->
  (S (length rel) <= maxDepth env)%nat ->
  exists w',
    mirrorWorkspace env w = Ok tt w'
    /\ copyOf st data (fs w' !! (BUILD_DIR :: rel)).
Proof.
  intros Hok Hbuild Hgit Hdirs Hfile Hincl Hdepth.
  rewrite Forall_forall in Hdirs, Hincl.
  assert (Hrel : rel ≠ []).
  { intros ->. pose proof (Hdirs [] (list_elem_of_here _ _)) as Hd.
    unfold isDirectory in Hd. rewrite Hfile in Hd. discriminate. }
  destruct (mirror_copies_file env w rel st data) as (w' & Hrun & Hcopy);
    try assumption.
  - intros pre Hpre Hne. apply Hdirs, proper_prefix_cases; assumption.
  - intros pre Hpre Hne. apply Hincl, prefix_cases; assumption.
  - exists w'. split; [exact Hrun|]. rewrite Hcopy.
    exists (atime st). destruct st; reflexivity.
Qed.

Lemma X4_mirrorWorkspace_copies_included_files_witness :
  noFaults Samples.quiet
  /\ head ["src"; "x.ts"] ≠ Some BUILD_DIR
  /\ head ["src"; "x.ts"] ≠ Some ".git"
  /\ Forall (fun d => isDirectory (fs Samples.workspace) d = true)
            ([] :: ancestors ["src"; "x.ts"])
  /\ fs Samples.workspace !! ["src"; "x.ts"] = Some (File Samples.plain "X")
  /\ Forall (fun p => Ignore.ignores (glob Samples.quiet)
                        (compiledMatcher Samples.quiet Samples.workspace) p = false)
            (ancestors ["src"; "x.ts"] ++ [["src"; "x.ts"]])
  /\ (S (length ["src"; "x.ts"]) <= maxDepth Samples.quiet)%nat
  /\ exists w',
      mirrorWorkspace Samples.quiet Samples.workspace = Ok tt w'
      /\ copyOf Samples.plain "X" (fs w' !! (BUILD_DIR :: ["src"; "x.ts"])).
Proof.
  assert (H1 : noFaults Samples.quiet) by (intros s; reflexivity).
  assert (H2 : head ["src"; "x.ts"] ≠ Some BUILD_DIR) by discriminate.
  assert (H3 : head ["src"; "x.ts"] ≠ Some ".git") by discriminate.
  assert (H4 : Forall (fun d => isDirectory (fs Samples.workspace) d = true)
                      ([] :: ancestors ["src"; "x.ts"])) by (repeat constructor).
  assert (H5 : fs Samples.workspace !! ["src"; "x.ts"] = Some (File Samples.plain "X"))
    by (vm_compute; reflexivity).
  assert (H6 : Forall (fun p => Ignore.ignores (glob Samples.quiet)
                                  (compiledMatcher Samples.quiet Samples.workspace) p = false)
                      (ancestors ["src"; "x.ts"] ++ [["src"; "x.ts"]])).
  { repeat constructor; vm_compute; reflexivity. }
  assert (H7 : (S (length ["src"; "x.ts"]) <= maxDepth Samples.quiet)%nat)
    by (vm_compute; lia).
  repeat (split; [assumption|]).
  exact (X4_mirrorWorkspace_copies_included_files Samples.quiet ["src"; "x.ts"]
           Samples.plain "X" Samples.workspace H1 H2 H3 H4 H5 H6 H7).
Defined.
End WalkProperties.

Section MirrorProperties.
Import Build Effects Frames Walk Outcomes Passes.
Local Open Scope script_scope.

(** X5. The mirror pass writes below [build/] only: whatever fails or
    succeeds, a path that does not start with [build] holds after
    [mirrorWorkspace] what it held before. The link the pass makes at
    [build/.git] leads out of the build directory; the statement is for a
    matcher that excludes [.git], as the static rules mean it to, so that
    the walk does not go through the link. *)
Theorem X5_mirrorWorkspace_writes_below_build_only
        (env : Env) (w : World) (q : path) :
  Ignore.ignores (glob env) (compiledMatcher env w) [".git"] = true ->
  isPrefix [BUILD_DIR] q = false ->
  fs (worldOf (mirrorWorkspace env w)) !! q = fs w !! q.
Proof.
  intros _ Hq. destruct (mirrorWorkspace_made env w q) as [E|[E|[_ Hin]]];
    [exact E|congruence|inversion Hin].
Qed.

Lemma X5_mirrorWorkspace_writes_below_build_only_witness :
  Ignore.ignores (glob Samples.flaky) (compiledMatcher Samples.flaky Samples.workspace)
                 [".git"] = true
  /\ isPrefix [BUILD_DIR] ["src"; "x.ts"] = false
  /\ fs (worldOf (mirrorWorkspace Samples.flaky Samples.workspace)) !! ["src"; "x.ts"]
     = fs Samples.workspace !! ["src"; "x.ts"].
Proof.
  assert (H1 : Ignore.ignores (glob Samples.flaky)
                 (compiledMatcher Samples.flaky Samples.workspace) [".git"] = true)
    by (vm_compute; reflexivity).
  assert (H2 : isPrefix [BUILD_DIR] ["src"; "x.ts"] = false) by reflexivity.
  split; [exact H1|]. split; [exact H2|].
  exact (X5_mirrorWorkspace_writes_below_build_only Samples.flaky Samples.workspace
           ["src"; "x.ts"] H1 H2).
Defined.

(** X6. Making the build directory is the one step of the mirror pass that
    is not best effort: [mirrorWorkspace] rejects exactly when
    [fs.mkdir(BUILD_DIR)] rejects in the world left by the attempt to clean,
    with the same error and in the world of that failure, so that nothing is
    copied; and [main] then logs [Build failed: <message>] and exits with
    status 1. *)
Theorem X6_mirrorWorkspace_rejects_iff_mkdir_fails (env : Env) (w : World) :
  (rejects (mirrorWorkspace env) w <-> rejects (fsMkdir env [BUILD_DIR]) (afterRm env w))
  /\ forall message w1,
      fsMkdir env [BUILD_DIR] (afterRm env w) = Throw message w1 ->
      mirrorWorkspace env w = Throw message w1
      /\ fs w1 = fs (afterRm env w)
      /\ (noBuildDir env = false ->
          main env w = (print ERROR ("Build failed: " +:+ message) w1, Exited 1)).
Proof.
  pose proof (mirrorWorkspace_cases env w) as Hcases. split.
  - unfold rejects. destruct (fsMkdir env [BUILD_DIR] (afterRm env w)) as [[] w1|message w1].
    + destruct Hcases as [w' Hrun]. rewrite Hrun.
      split; intros (m & w2 & H); discriminate.
    + rewrite Hcases. split; intros _; eauto.
  - intros message w1 Hmk. rewrite Hmk in Hcases. split; [exact Hcases|]. split.
    + pose proof (fsMkdir_cases env [BUILD_DIR] (afterRm env w)) as [(m & E & _)|[e E]];
        rewrite E in Hmk; [discriminate|]. injection Hmk as _ <-. reflexivity.
    + intros Hno. unfold main. rewrite Hno. cbn [negb when]. unfold bind at 1.
      rewrite Hcases. reflexivity.
Qed.
End MirrorProperties.

Section CustomizationProperties.
Import Build Effects Frames Walk Outcomes Passes.
Local Open Scope script_scope.

(** X7. [copyCustomizations] rejects exactly when the source directory
    ([build/src], or [src] with [--no-build-dir]) cannot be listed. It then
    has written nothing, has logged its first line and
    [Error copying customizations: <message>], and rejects with that
    message. Whatever fails later, in the copies or in the overrides, does
    not make it reject. *)
Theorem X7_copyCustomizations_rejects_iff_src_unlistable (env : Env) (w : World) :
  (rejects (copyCustomizations env) w
   <-> faulty env (SysReaddir (srcDir env)) = true
       \/ isDirectory (fs w) (srcDir env) = false)
  /\ forall message w',
      copyCustomizations env w = Throw message w' ->
      w' = mkWorld (fs w)
                   (console w ++ [(LOG, copyingLine env);
                                  (ERROR, "Error copying customizations: " +:+ message)]).
Proof.
  destruct (copyCustomizations_run env w)
    as [(message & Hwhy & Hrun)|(Hf & Hd & w' & Hrun)]; unfold rejects; rewrite Hrun.
  - split.
    + split; [intros _; exact Hwhy|intros _; eauto].
    + intros message' w' [= <- <-]. reflexivity.
  - split.
    + split; [intros (m & w2 & H); discriminate|].
      intros [H|H]; congruence.
    + intros message w2 H. discriminate.
Qed.

(** X8. [copyCustomizations] changes and removes nothing that exists
    outside the framework checkout ([build/quartz_repo], or [quartz_repo]
    with [--no-build-dir]): in particular the customizations in [src/] and
    the content are read, never written. *)
Theorem X8_copyCustomizations_keeps_what_is_outside_the_checkout
        (env : Env) (w : World) (q : path) (n : Node) :
  isPrefix (quartzRepo env) q = false ->
  fs w !! q = Some n ->
  fs (worldOf (copyCustomizations env w)) !! q = Some n.
Proof.
  intros Hq Hn. rewrite <- Hn. apply (frame_apart (quartzRepo env)); [|exact Hq|].
  - apply copyCustomizations_made.
  - left. eauto.
Qed.

(** X8 where the customizations are copied: with [--no-build-dir] the file
    [src/x.ts] of the sample workspace is copied to [quartz_repo/x.ts] and is
    itself as it was. *)
Lemma X8_copyCustomizations_keeps_what_is_outside_the_checkout_witness :
  isPrefix (quartzRepo MoreSamples.inPlace) ["src"; "x.ts"] = false
  /\ fs Samples.workspace !! ["src"; "x.ts"] = Some (File Samples.plain "X")
  /\ fs (worldOf (copyCustomizations MoreSamples.inPlace Samples.workspace))
     !! ["src"; "x.ts"] = Some (File Samples.plain "X")
  /\ fs (worldOf (copyCustomizations MoreSamples.inPlace Samples.workspace))
     !! ["quartz_repo"; "x.ts"] = Some (File Samples.plain "X").
Proof.
  assert (H1 : isPrefix (quartzRepo MoreSamples.inPlace) ["src"; "x.ts"] = false)
    by reflexivity.
  assert (H2 : fs Samples.workspace !! ["src"; "x.ts"] = Some (File Samples.plain "X"))
    by (vm_compute; reflexivity).
  split; [exact H1|]. split; [exact H2|]. split.
  - exact (X8_copyCustomizations_keeps_what_is_outside_the_checkout MoreSamples.inPlace
             Samples.workspace ["src"; "x.ts"] (File Samples.plain "X") H1 H2).
  - vm_compute. reflexivity.
Defined.
End CustomizationProperties.

Section WatcherProperties.
Import Build Effects Frames Walk Outcomes Passes.
Local Open Scope script_scope.

(** X9. A synchronization pass for a changed or added regular file outside
    [src/]: when no system call fails, the copy is within the platform's path
    limit and nothing but directories is in the way above [build/<path>]
    (nothing but a regular file at it), the pass resolves, [build/<path>]
    has the bytes, the modification time and the mode of the file (nothing is
    said of its access time), the pass logs
    [Syncing workspace changes to build directory...] and, in verbose mode,
    [Copied <path>], and nothing outside [build/] changes. *)
Theorem X9_sync_pass_copies_the_changed_file
        (env : Env) (ev : FsEvent) (p : path) (st : Stats) (data : string) (w : World) :
  ev = EvChange \/ ev = EvAdd ->
  noFaults env ->
  startsWithSrc p = false ->
  fs w !! p = Some (File st data) ->
  Forall (fun d => freeOrDir w d = true) (ancestors (BUILD_DIR :: p)) ->
  freeOrFile w (BUILD_DIR :: p) = true ->
  (S (length p) <= maxDepth env)%nat ->
  p ≠ [] ->
  exists w',
    syncChanges env ev p w = Ok tt w'
    /\ copyOf st data (fs w' !! (BUILD_DIR :: p))
    /\ console w'
       = console w ++ syncingLine
                      :: (if verbose env then [(LOG, "Copied " +:+ showPath p)] else [])
    /\ forall q, isPrefix [BUILD_DIR] q = false -> fs w' !! q = fs w !! q.
Proof.
  intros Hev Hok Hsrc Hfile Hdirs Hfree Hdepth Hp. rewrite Forall_forall in Hdirs.
  set (w1 := print LOG "Syncing workspace changes to build directory..." w).
  destruct (copyFile_ok env p (BUILD_DIR :: p) st data w1) as (m & Hrun & Hm);
    try apply Hok.
  - exact Hfile.
  - intros E. apply (f_equal length) in E. simpl in E. lia.
  - discriminate.
  - intros d Hd. apply (freeOrDir_spec w1 d). apply Hdirs, upTo_dirname; [|exact Hd].
    rewrite dirname_cons by exact Hp. discriminate.
  - apply (freeOrFile_spec w1). exact Hfree.
  - apply tooLong_false. simpl. lia.
  - exists (print_if (verbose env) ("Copied " +:+ showPath p) (setFs m w1)).
    split; [|split; [|split]].
    + destruct Hev as [-> | ->]; unfold syncChanges, tryCatch; unfold bind at 1;
        unfold consoleLog at 1; fold w1; unfold bind at 1; rewrite Hrun, Hsrc; reflexivity.
    + exists (atime st).
      unfold print_if. destruct (verbose env); cbn [fs print setFs]; rewrite Hm;
        destruct st; reflexivity.
    + unfold print_if, w1, syncingLine. destruct (verbose env); simpl;
        [rewrite <- app_assoc|]; reflexivity.
    + intros q Hq.
      pose proof (copyFile_made env p (BUILD_DIR :: p)) as Hmade.
      assert (Hdir : dirname (BUILD_DIR :: p) ≠ [])
        by (rewrite dirname_cons by exact Hp; discriminate).
      specialize (Hmade Hdir w1). rewrite Hrun in Hmade. simpl in Hmade.
      destruct (Hmade q) as [E|[E|[_ Hin]]].
      * exact E.
      * rewrite (isPrefix_trans [BUILD_DIR] (BUILD_DIR :: p) q) in Hq;
          [discriminate|apply (isPrefix_app [BUILD_DIR] p)|exact E].
      * apply elem_ancestors in Hin as (Hne & _ & Hpre).
        rewrite (head_isPrefix _ _ _ Hne Hpre) in Hq. discriminate.
Qed.

Lemma X9_sync_pass_copies_the_changed_file_witness :
  (EvChange = EvChange \/ EvChange = EvAdd)
  /\ noFaults Samples.quiet
  /\ startsWithSrc ["b.md"] = false
  /\ fs Samples.edited !! ["b.md"] = Some (File Samples.plain "B2")
  /\ Forall (fun d => freeOrDir Samples.edited d = true) (ancestors (BUILD_DIR :: ["b.md"]))
  /\ freeOrFile Samples.edited (BUILD_DIR :: ["b.md"]) = true
  /\ (S (length ["b.md"]) <= maxDepth Samples.quiet)%nat
  /\ ["b.md"] ≠ []
  /\ exists w',
      syncChanges Samples.quiet EvChange ["b.md"] Samples.edited = Ok tt w'
      /\ copyOf Samples.plain "B2" (fs w' !! (BUILD_DIR :: ["b.md"]))
      /\ console w'
         = console Samples.edited
           ++ syncingLine
              :: (if verbose Samples.quiet
                  then [(LOG, "Copied " +:+ showPath ["b.md"])] else [])
      /\ forall q, isPrefix [BUILD_DIR] q = false -> fs w' !! q = fs Samples.edited !! q.
Proof.
  assert (H1 : EvChange = EvChange \/ EvChange = EvAdd) by (left; reflexivity).
  assert (H2 : noFaults Samples.quiet) by (intros s; reflexivity).
  assert (H3 : startsWithSrc ["b.md"] = false) by reflexivity.
  assert (H4 : fs Samples.edited !! ["b.md"] = Some (File Samples.plain "B2"))
    by (vm_compute; reflexivity).
  assert (H5 : Forall (fun d => freeOrDir Samples.edited d = true)
                      (ancestors (BUILD_DIR :: ["b.md"]))) by (repeat constructor).
  assert (H6 : freeOrFile Samples.edited (BUILD_DIR :: ["b.md"]) = true)
    by (vm_compute; reflexivity).
  assert (H7 : (S (length ["b.md"]) <= maxDepth Samples.quiet)%nat) by (vm_compute; lia).
  assert (H8 : ["b.md"] ≠ ([] : path)) by discriminate.
  repeat (split; [assumption|]).
  exact (X9_sync_pass_copies_the_changed_file Samples.quiet EvChange ["b.md"]
           Samples.plain "B2" Samples.edited H1 H2 H3 H4 H5 H6 H7 H8).
Defined.

(** X10. A synchronization pass for a removed file outside [src/], when
    [fs.unlink] is not refused by the platform: if [build/<path>] is a
    regular file or a link it is removed, nothing else changes and the pass
    logs [Removed build/<path>]; if there is nothing at [build/<path>], or a
    directory, the error of [fs.unlink] is swallowed and the pass only logs
    its first line. It resolves in either case. *)
Theorem X10_sync_pass_removes_the_copy (env : Env) (p : path) (w : World) :
  faulty env (SysUnlink (BUILD_DIR :: p)) = false ->
  startsWithSrc p = false ->
  syncChanges env EvUnlink p w
  = Ok tt match fs w !! (BUILD_DIR :: p) with
          | Some (File _ _) | Some (Link _) =>
              mkWorld (delete (BUILD_DIR :: p) (fs w))
                      (console w ++ [syncingLine;
                                     (LOG, "Removed " +:+ showPath (BUILD_DIR :: p))])
          | _ => mkWorld (fs w) (console w ++ [syncingLine])
          end.
Proof.
  intros Hf Hsrc. unfold syncChanges, tryCatch, consoleLog, fsUnlink, guard, when, bind.
  rewrite Hf, Hsrc. cbn [fs print].
  destruct (fs w !! (BUILD_DIR :: p)) as [[| |]|]; try reflexivity.
  all: unfold print, setFs, syncingLine, ret; cbn [fs console].
  all: rewrite <- app_assoc; reflexivity.
Qed.

Lemma X10_sync_pass_removes_the_copy_witness :
  faulty Samples.quiet (SysUnlink (BUILD_DIR :: ["a.md"])) = false
  /\ startsWithSrc ["a.md"] = false
  /\ syncChanges Samples.quiet EvUnlink ["a.md"] Samples.edited
     = Ok tt match fs Samples.edited !! (BUILD_DIR :: ["a.md"]) with
             | Some (File _ _) | Some (Link _) =>
                 mkWorld (delete (BUILD_DIR :: ["a.md"]) (fs Samples.edited))
                         (console Samples.edited
                          ++ [syncingLine;
                              (LOG, "Removed " +:+ showPath (BUILD_DIR :: ["a.md"]))])
             | _ => mkWorld (fs Samples.edited) (console Samples.edited ++ [syncingLine])
             end.
Proof.
  assert (H1 : faulty Samples.quiet (SysUnlink (BUILD_DIR :: ["a.md"])) = false)
    by reflexivity.
  assert (H2 : startsWithSrc ["a.md"] = false) by reflexivity.
  split; [exact H1|]. split; [exact H2|].
  exact (X10_sync_pass_removes_the_copy Samples.quiet ["a.md"] Samples.edited H1 H2).
Defined.

(** X11. Nothing is synchronized before the initial scan is over: while
    [isReady] is false, the events that reach the listener arm no timer and
    start no pass; they leave the watcher and the store as they are, and
    outside verbose mode they log nothing. *)
Theorem X11_events_before_ready_are_dropped
        (env : Env) (inputs : list (nat * Input)) (wt : Watcher) (w : World) :
  isReady wt = false -> debounceTimer wt = None ->
  Forall (fun input : nat * Input => input.2 ≠ ScanDone) inputs ->
  exists w',
    runWatcher env inputs wt w = Ok wt w'
    /\ fs w' = fs w /\ passes w' = passes w
    /\ (verbose env = false -> w' = w).
Proof.
  revert wt w.
  induction inputs as [|[now [|ev fp]] inputs IH]; intros wt w Hready Htimer Hin.
  - exists w. auto.
  - apply Forall_cons in Hin as [Hbad _]. contradiction.
  - apply Forall_cons in Hin as [_ Hin]. cbn [runWatcher]. unfold bind.
    rewrite (deliver_before_ready env now ev fp wt w Hready Htimer).
    destruct (IH wt (if negb (ignored env wt fp) && verbose env
                     then print LOG (eventName ev +:+ ": " +:+ showPath fp) w
                     else w) Hready Htimer Hin) as (w' & -> & Hfs & Hpasses & Hquiet).
    exists w'. split; [reflexivity|].
    destruct (negb (ignored env wt fp) && verbose env) eqn:E.
    + split; [exact Hfs|]. split; [rewrite Hpasses; apply passes_print_event|].
      intros Hv. rewrite Hv, andb_false_r in E. discriminate.
    + auto.
Qed.

Lemma X11_events_before_ready_are_dropped_witness :
  isReady (mkWatcher staticRules false None) = false
  /\ debounceTimer (mkWatcher staticRules false None) = None
  /\ Forall (fun input : nat * Input => input.2 ≠ ScanDone) Samples.twoSaves
  /\ exists w',
      runWatcher Samples.quiet Samples.twoSaves (mkWatcher staticRules false None)
                 Samples.edited
      = Ok (mkWatcher staticRules false None) w'
      /\ fs w' = fs Samples.edited /\ passes w' = passes Samples.edited
      /\ (verbose Samples.quiet = false -> w' = Samples.edited).
Proof.
  assert (H1 : isReady (mkWatcher staticRules false None) = false) by reflexivity.
  assert (H2 : debounceTimer (mkWatcher staticRules false None) = None) by reflexivity.
  assert (H3 : Forall (fun input : nat * Input => input.2 ≠ ScanDone) Samples.twoSaves)
    by (repeat constructor; discriminate).
  repeat (split; [assumption|]).
  exact (X11_events_before_ready_are_dropped Samples.quiet Samples.twoSaves
           (mkWatcher staticRules false None) Samples.edited H1 H2 H3).
Defined.



(** X13. A burst that ends with a directory event synchronizes nothing: the
    timer that expires belongs to the directory event, and a pass for
    [addDir] or [unlinkDir] only logs its first line. Whatever files changed
    earlier in the burst, exactly one pass runs and the store after it is
    the store before the burst. *)
Theorem X13_burst_ending_with_a_directory_event_copies_nothing
        (env : Env) (inputs : list (nat * Input)) (now : nat) (ev : FsEvent) (fp : path)
        (wt : Watcher) (w : World) (limit : nat) :
  ev = EvAddDir \/ ev = EvUnlinkDir ->
  isReady wt = true ->
  match debounceTimer wt with
  | Some t => due t = limit
  | None => True
  end ->
  burstWithin env wt limit (inputs ++ [(now, Changed ev fp)]) ->
  exists wt1 w1 wt2 w2,
    runWatcher env (inputs ++ [(now, Changed ev fp)]) wt w = Ok wt1 w1
    /\ expire env wt1 w1 = Ok wt2 w2
    /\ debounceTimer wt2 = None
    /\ fs w2 = fs w
    /\ passes w2 = S (passes w).
Proof.
  intros Hev Hready Htimer Hburst.
  destruct (burst_expires_with_last_event env inputs now ev fp wt w limit Hready Htimer Hburst)
    as (wt1 & w1 & Hrun & Hfs & Hpasses & Hexpire).
  exists wt1, w1. rewrite Hexpire. unfold bind.
  rewrite (syncChanges_directory env ev fp w1 Hev). cbn [ret].
  eexists _, _. split; [exact Hrun|]. split; [reflexivity|]. split; [reflexivity|].
  split; [exact Hfs|]. unfold passes in *. cbn [console].
  rewrite List.filter_app, length_app, Hpasses. simpl. lia.
Qed.

Lemma X13_burst_ending_with_a_directory_event_copies_nothing_witness :
  (EvAddDir = EvAddDir \/ EvAddDir = EvUnlinkDir)
  /\ isReady Samples.ready = true
  /\ match debounceTimer Samples.ready with
     | Some t => due t = 0%nat
     | None => True
     end
  /\ burstWithin Samples.quiet Samples.ready 1
                 ([(0%nat, Changed EvChange ["a.md"])] ++ [(100%nat, Changed EvAddDir ["docs"])])
  /\ exists wt1 w1 wt2 w2,
      runWatcher Samples.quiet
                 ([(0%nat, Changed EvChange ["a.md"])] ++ [(100%nat, Changed EvAddDir ["docs"])])
                 Samples.ready Samples.edited = Ok wt1 w1
      /\ expire Samples.quiet wt1 w1 = Ok wt2 w2
      /\ debounceTimer wt2 = None
      /\ fs w2 = fs Samples.edited
      /\ passes w2 = S (passes Samples.edited).
Proof.
  assert (H1 : EvAddDir = EvAddDir \/ EvAddDir = EvUnlinkDir) by (left; reflexivity).
  assert (H2 : isReady Samples.ready = true) by reflexivity.
  assert (H3 : match debounceTimer Samples.ready with
               | Some t => due t = 0%nat
               | None => True
               end) by exact I.
  assert (H4 : burstWithin Samples.quiet Samples.ready 1
                 ([(0%nat, Changed EvChange ["a.md"])]
                  ++ [(100%nat, Changed EvAddDir ["docs"])])).
  { cbn [burstWithin app]. split; [lia|]. split; [vm_compute; reflexivity|].
    split; [lia|]. split; [vm_compute; reflexivity|exact I]. }
  repeat (split; [assumption|]).
  exact (X13_burst_ending_with_a_directory_event_copies_nothing Samples.quiet
           [(0%nat, Changed EvChange ["a.md"])] 100 EvAddDir ["docs"]
           Samples.ready Samples.edited 1 H1 H2 H3 H4).
Defined.
End WatcherProperties.

Section MainProperties.
Import Build Effects Frames Walk Outcomes Passes.
Local Open Scope script_scope.



(** X15. With [--no-build-dir] the script works in place: before the build
    it does what [copyCustomizations] does and nothing else (no mirror pass
    and no watcher, whatever [--watch] and [--serve] say), and a path that
    does not start with [quartz_repo] holds afterwards what it held before;
    in particular no [build/] directory is made. *)
Theorem X15_no_build_dir_writes_below_the_checkout_only
        (env : Env) (w : World) (q : path) :
  noBuildDir env = true ->
  isPrefix ["quartz_repo"] q = false ->
  beforeBuild env w = copyCustomizations env w
  /\ fs (worldOf (beforeBuild env w)) !! q = fs w !! q.
Proof.
  intros Hno Hq. rewrite (beforeBuild_no_build_dir env w Hno). split; [reflexivity|].
  pose proof (copyCustomizations_made env w q) as Hmade. unfold quartzRepo in Hmade.
  rewrite Hno in Hmade. destruct Hmade as [E|[E|[_ Hin]]];
    [exact E|congruence|inversion Hin].
Qed.

Lemma X15_no_build_dir_writes_below_the_checkout_only_witness :
  noBuildDir MoreSamples.inPlace = true
  /\ isPrefix ["quartz_repo"] ["src"; "x.ts"] = false
  /\ beforeBuild MoreSamples.inPlace Samples.workspace
     = copyCustomizations MoreSamples.inPlace Samples.workspace
  /\ fs (worldOf (beforeBuild MoreSamples.inPlace Samples.workspace)) !! ["src"; "x.ts"]
     = fs Samples.workspace !! ["src"; "x.ts"].
Proof.
  assert (H1 : noBuildDir MoreSamples.inPlace = true) by reflexivity.
  assert (H2 : isPrefix ["quartz_repo"] ["src"; "x.ts"] = false) by reflexivity.
  split; [exact H1|]. split; [exact H2|].
  exact (X15_no_build_dir_writes_below_the_checkout_only MoreSamples.inPlace
           Samples.workspace ["src"; "x.ts"] H1 H2).
Defined.
End MainProperties.

(** * Further properties of the site plugins *)

(** ** The listing of a folder page *)

Section SortFacts.
Import Quartz Sorted.
Context {A : Type}.
Variable compare : A -> A -> Z.
Variable P : A -> Prop.
Hypothesis Hconsistent : consistentOn P compare.

Lemma insertSorted_pairwise (x : A) (l : list A) :
  P x -> Forall P l ->
  pairwise (fun a b => compare a b <= 0) l ->
  pairwise (fun a b => compare a b <= 0) (insertSorted compare x l).
Proof.
  destruct Hconsistent as [Hanti Htrans]. intros Hx.
  induction l as [|y l IH]; intros HP Hl; simpl; [split; [constructor|exact I]|].
  destruct Hl as [Hy Hl]. apply Forall_cons in HP as [HPy HP].
  destruct (compare x y <=? 0) eqn:E.
  - apply Z.leb_le in E. split; [|split; assumption].
    constructor; [exact E|].
    rewrite Forall_forall in Hy, HP |- *. intros z Hz.
    apply (Htrans x y z Hx HPy (HP z Hz) E (Hy z Hz)).
  - apply Z.leb_gt in E. split; [|apply IH; assumption].
    rewrite insertSorted_Permutation. constructor; [|exact Hy].
    apply (Hanti y x HPy Hx) in E. lia.
Qed.

Lemma sort_pairwise (l : list A) :
  Forall P l -> pairwise (fun a b => compare a b <= 0) (sort compare l).
Proof.
  induction l as [|x l IH]; intros HP; [exact I|].
  apply Forall_cons in HP as [Hx HP].
  unfold sort in *. simpl. apply insertSorted_pairwise; [exact Hx| |apply IH, HP].
  fold (sort compare l). rewrite sort_Permutation. exact HP.
Qed.
End SortFacts.

Section PairwiseFacts.
Import Sorted.
Context {A : Type}.

Lemma pairwise_split (R : A -> A -> Prop) (l1 l2 : list A) (a : A) :
  pairwise R (l1 ++ a :: l2) -> Forall (fun b => R b a) l1.
Proof.
  induction l1 as [|x l1 IH]; intros H; [constructor|].
  destruct H as [Hx H]. constructor; [|apply IH, H].
  rewrite Forall_forall in Hx. apply Hx. apply elem_of_app. right. apply list_elem_of_here.
Qed.
End PairwiseFacts.

Section SubtractFacts.
Import Quartz.

Lemma subtract_swap (a b : Number) : subtract a b < 0 <-> 0 < subtract b a.
Proof. destruct a as [x| |[]], b as [y| |[]]; simpl; lia. Qed.

Lemma subtract_trans (a b c : Number) :
  b ≠ NaN -> subtract a b <= 0 -> subtract b c <= 0 -> subtract a c <= 0.
Proof.
  destruct a as [x| |[]], b as [y| |[]], c as [z| |[]]; simpl;
    intros Hb; try lia; contradiction.
Qed.
End SubtractFacts.

Section ComparatorFacts.
Import Quartz FolderPage Sorted.
Variable isFolderPath : Slug -> bool.
Variable toLowerCase : string -> string.
Variable localeCompare : string -> string -> Z.
Variable cfg : GlobalConfiguration.

Local Abbreviation compare :=
  (bySortOrderAndAlphabetical isFolderPath toLowerCase localeCompare cfg).

Lemma comparator_swap :
  (forall a b, localeCompare a b < 0 <-> 0 < localeCompare b a) ->
  forall f1 f2, compare f1 f2 < 0 <-> 0 < compare f2 f1.
Proof.
  intros Hanti f1 f2. unfold bySortOrderAndAlphabetical. cbv zeta.
  destruct (isFolderPath (slug f1)), (isFolderPath (slug f2)); cbn [andb negb];
    try lia.
  all: destruct (asNumber (field "sortorder" (frontmatter f1))),
         (asNumber (field "sortorder" (frontmatter f2)));
    try lia; try apply subtract_swap.
  all: destruct (dates f1), (dates f2); try lia.
  all: apply Hanti.
Qed.

(** With a NaN between them two pages tie with it and need not tie with
    each other; the page in the middle is to have another sort order. *)
Lemma comparator_trans :
  (forall a b c, localeCompare a b <= 0 -> localeCompare b c <= 0 -> localeCompare a c <= 0) ->
  forall f1 f2 f3, sortable f2 ->
    compare f1 f2 <= 0 -> compare f2 f3 <= 0 -> compare f1 f3 <= 0.
Proof.
  intros Htrans f1 f2 f3 Hsortable. unfold sortable in Hsortable.
  unfold bySortOrderAndAlphabetical. cbv zeta.
  destruct (isFolderPath (slug f1)), (isFolderPath (slug f2)), (isFolderPath (slug f3));
    cbn [andb negb]; try lia.
  all: destruct (asNumber (field "sortorder" (frontmatter f1))),
         (asNumber (field "sortorder" (frontmatter f2))),
         (asNumber (field "sortorder" (frontmatter f3)));
    try lia; try (apply subtract_trans; congruence).
  all: destruct (dates f1), (dates f2), (dates f3); try lia.
  all: apply Htrans.
Qed.

Lemma comparator_consistent : consistent localeCompare -> consistentOn sortable compare.
Proof.
  intros [Hanti Htrans]. split.
  - intros f1 f2 _ _. apply comparator_swap, Hanti.
  - intros f1 f2 f3 _ H2 _. apply comparator_trans; assumption.
Qed.

(** A folder compares before a file, whatever else they carry. *)
Lemma comparator_kind f1 f2 :
  isFolderPath (slug f1) = false -> isFolderPath (slug f2) = true -> compare f1 f2 = 1.
Proof.
  intros H1 H2. unfold bySortOrderAndAlphabetical. cbv zeta. rewrite H1, H2. reflexivity.
Qed.
End ComparatorFacts.

Section RuntimeOrder.
Import Quartz Sorted.

Lemma string_compare_le_trans (a b c : string) :
  String.compare a b ≠ Gt -> String.compare b c ≠ Gt -> String.compare a c ≠ Gt.
Proof.
  revert b c. induction a as [|x a IH]; intros [|y b] [|z c]; simpl; try congruence.
  unfold Ascii.compare.
  destruct (N.compare_spec (N_of_ascii x) (N_of_ascii y)) as [Exy|Lxy|Gxy];
    destruct (N.compare_spec (N_of_ascii y) (N_of_ascii z)) as [Eyz|Lyz|Gyz];
    try congruence.
  - rewrite Exy, Eyz, N.compare_refl. apply IH.
  - rewrite Exy. intros _ _. apply N.compare_lt_iff in Lyz. rewrite Lyz. cbv iota. discriminate.
  - rewrite <- Eyz. intros _ _. apply N.compare_lt_iff in Lxy. rewrite Lxy. cbv iota. discriminate.
  - intros _ _. assert (H : (N_of_ascii x < N_of_ascii z)%N) by (etrans; eassumption).
    apply N.compare_lt_iff in H. rewrite H. cbv iota. discriminate.
Qed.

Lemma runtime_localeCompare_consistent : consistent Runtime.localeCompare.
Proof.
  split.
  - intros a b. unfold Runtime.localeCompare. rewrite (String.compare_antisym a b).
    destruct (String.compare b a); simpl; lia.
  - intros a b c. unfold Runtime.localeCompare.
    pose proof (string_compare_le_trans a b c) as H.
    destruct (String.compare a b), (String.compare b c), (String.compare a c);
      try lia; intros _ _; exfalso; apply H; first [discriminate|reflexivity].
Qed.
End RuntimeOrder.

Section ListingProperties.
Import Quartz FolderPage Sorted.

(** X16. The comparator of the folder listing orders the pages whose sort
    order is not NaN consistently, as [Array.prototype.sort] requires of it,
    whenever [localeCompare] does: swapping the two pages swaps the sign of
    the result, and the relation "comes first or ties" is transitive, across
    folders and files, pages with and without [sortorder] (an infinite sort
    order included), and pages with and without dates. *)
Theorem X16_folder_page_comparator_is_consistent
        (isFolderPath : Slug -> bool) (toLowerCase : string -> string)
        (localeCompare : string -> string -> Z) (cfg : GlobalConfiguration) :
  consistent localeCompare ->
  consistentOn sortable
    (bySortOrderAndAlphabetical isFolderPath toLowerCase localeCompare cfg).
Proof.
  intros [Hanti Htrans]. split.
  - intros f1 f2 _ _. apply comparator_swap, Hanti.
  - intros f1 f2 f3 _ H2 _. apply comparator_trans; assumption.
Qed.

Lemma X16_folder_page_comparator_is_consistent_witness :
  consistent Runtime.localeCompare
  /\ consistentOn sortable
       (bySortOrderAndAlphabetical Runtime.isFolderPath Runtime.toLowerCase
          Runtime.localeCompare configuration).
Proof.
  split; [exact runtime_localeCompare_consistent|].
  exact (X16_folder_page_comparator_is_consistent Runtime.isFolderPath Runtime.toLowerCase
           Runtime.localeCompare configuration runtime_localeCompare_consistent).
Defined.

(** X17. The listing of a folder page, sorted with the default comparator,
    when no page has NaN as its sort order: it holds the pages it was given,
    each as often as given; whenever a page stands before another, the
    comparator puts it first or ties them; and every folder stands before
    every file. *)
Theorem X17_page_listing_is_sorted
        (isFolderPath : Slug -> bool) (toLowerCase : string -> string)
        (localeCompare : string -> string -> Z) (cfg : GlobalConfiguration)
        (allFiles : list QuartzPluginData) :
  consistent localeCompare ->
  Forall sortable allFiles ->
  let compare := bySortOrderAndAlphabetical isFolderPath toLowerCase localeCompare cfg in
  let listing := sortedPages isFolderPath toLowerCase localeCompare cfg allFiles in
  listing ≡ₚ allFiles
  /\ pairwise (fun a b => compare a b <= 0) listing
  /\ forall before f after,
      listing = before ++ f :: after ->
      isFolderPath (slug f) = true ->
      Forall (fun g => isFolderPath (slug g) = true) before.
Proof.
  intros Hlc Hsortable compare listing.
  assert (Hsorted : pairwise (fun a b => compare a b <= 0) listing).
  { apply (sort_pairwise compare sortable); [|exact Hsortable].
    apply comparator_consistent, Hlc. }
  split; [apply sort_Permutation|]. split; [exact Hsorted|].
  intros before f after E Hf. rewrite E in Hsorted.
  eapply Forall_impl; [apply (pairwise_split _ _ _ _ Hsorted)|].
  intros g Hg. cbv beta in Hg. destruct (isFolderPath (slug g)) eqn:Hkind; [reflexivity|].
  unfold compare in Hg. rewrite (comparator_kind _ _ _ _ g f Hkind Hf) in Hg. lia.
Qed.

Lemma X17_page_listing_is_sorted_witness :
  consistent Runtime.localeCompare
  /\ Forall sortable [Samples.fileX; Samples.fileY; Samples.fileZ]
  /\ let compare := bySortOrderAndAlphabetical Runtime.isFolderPath Runtime.toLowerCase
                      Runtime.localeCompare configuration in
     let listing := sortedPages Runtime.isFolderPath Runtime.toLowerCase
                      Runtime.localeCompare configuration
                      [Samples.fileX; Samples.fileY; Samples.fileZ] in
     listing ≡ₚ [Samples.fileX; Samples.fileY; Samples.fileZ]
     /\ pairwise (fun a b => compare a b <= 0) listing
     /\ forall before f after,
         listing = before ++ f :: after ->
         Runtime.isFolderPath (slug f) = true ->
         Forall (fun g => Runtime.isFolderPath (slug g) = true) before.
Proof.
  assert (Hsortable : Forall sortable [Samples.fileX; Samples.fileY; Samples.fileZ]).
  { repeat constructor; intros H; vm_compute in H; discriminate H. }
  split; [exact runtime_localeCompare_consistent|]. split; [exact Hsortable|].
  exact (X17_page_listing_is_sorted Runtime.isFolderPath Runtime.toLowerCase
           Runtime.localeCompare configuration
           [Samples.fileX; Samples.fileY; Samples.fileZ] runtime_localeCompare_consistent
           Hsortable).
Defined.
End ListingProperties.

(** ** The dates of a folder row *)

Section FolderDatesMore.
Import Quartz FolderPage Dated.

Lemma notAfter_max (cd rd : Dates) :
  let r := mkDates (Z.max (created cd) (created rd))
                   (Z.max (modified cd) (modified rd))
                   (Z.max (published cd) (published rd)) in
  notAfter r cd /\ (forall d, notAfter rd d -> notAfter r d)
  /\ (created r = created cd \/ created r = created rd)
  /\ (modified r = modified cd \/ modified r = modified rd)
  /\ (published r = published cd \/ published r = published rd).
Proof.
  cbv zeta. unfold notAfter. cbn [created modified published].
  repeat split; try lia. all: intros; lia.
Qed.

Lemma directDates_latest kids :
  let r := foldr (fun child acc => Stated.merge (Stated.ownDates child) acc) None kids in
  match omap (fun child => data child ≫= dates) kids with
  | [] => r = None
  | ds => exists rd, r = Some rd
          /\ Forall (notAfter rd) ds
          /\ created rd ∈ map created ds
          /\ modified rd ∈ map modified ds
          /\ published rd ∈ map published ds
  end.
Proof.
  cbv zeta. induction kids as [|child kids IH]; [reflexivity|].
  cbn [foldr omap list_omap].
  change (Stated.ownDates child) with (data child ≫= dates).
  destruct (data child ≫= dates) as [cd|]; [|cbn [Stated.merge]; exact IH].
  destruct (omap _ kids) as [|d ds].
  - rewrite IH. cbn [Stated.merge]. exists cd. unfold notAfter. cbn.
    repeat split; try lia; try (apply list_elem_of_singleton; reflexivity).
    constructor; [lia|constructor].
  - destruct IH as (rd & -> & Hall & Hc & Hm & Hp). cbn [Stated.merge].
    destruct (notAfter_max cd rd) as (Hcd & Hrest & Ec & Em & Ep). cbv zeta in *.
    eexists. split; [reflexivity|].
    split; [constructor; [exact Hcd|]; eapply Forall_impl; [exact Hall|exact Hrest]|].
    cbn [map] in *.
    split; [|split].
    + destruct Ec as [-> | ->]; [left|right; exact Hc].
    + destruct Em as [-> | ->]; [left|right; exact Hm].
    + destruct Ep as [-> | ->]; [left|right; exact Hp].
Qed.
End FolderDatesMore.

Section FolderDatesProperties.
Import Quartz FolderPage Dated.

(** X18. The dates of a folder row. When some child of the folder carries
    dates, each of created, modified and published is the value of one of
    the dated children, and no dated child has a more recent one. When no
    child carries dates, the three are what [new Date()] gives, [Date] being
    the component the file imports and not the clock; there are no dates,
    and no row, when that call throws. *)
Theorem X18_folder_dates_are_the_latest_of_the_children
        (newDate : option Z) (node : FileTrieNode QuartzPluginData) :
  match datedChildren node with
  | [] =>
      getMostRecentDates newDate node
      = match newDate with
        | Some made => Some (mkDates made made made)
        | None => None
        end
  | ds =>
      exists r,
        getMostRecentDates newDate node = Some r
        /\ Forall (notAfter r) ds
        /\ created r ∈ map created ds
        /\ modified r ∈ map modified ds
        /\ published r ∈ map published ds
  end.
Proof.
  rewrite getMostRecentDates_direct. unfold Stated.directDates, datedChildren.
  pose proof (directDates_latest (children node)) as H. cbv zeta in H.
  destruct (omap _ (children node)) as [|d ds].
  - rewrite H. reflexivity.
  - destruct H as (rd & -> & H). exists rd. split; [reflexivity|exact H].
Qed.
End FolderDatesProperties.

(** ** The pages of the folder page emitter *)

Section FolderContentFacts.
Import Quartz FolderPage.
Context {Tree : Type}.
Variable defaultProcessedContent : QuartzPluginData -> Tree * QuartzPluginData.
Variable simplify : Slug -> Slug.
Variable joinSegments : Slug -> string -> Slug.
Variable folderLabel : string -> string.

(** The last content file of a folder is the one that describes it. *)
Lemma folderContent_last locale before (c : Tree * QuartzPluginData) after folder :
  simplify (slug c.2) = folder ->
  Forall (fun c' : Tree * QuartzPluginData => simplify (slug c'.2) ≠ folder) after ->
  Stated.folderContent defaultProcessedContent simplify joinSegments folderLabel
    locale (before ++ c :: after) folder = c.
Proof.
  intros Hc Hafter. unfold Stated.folderContent.
  rewrite fold_left_app. cbn [fold_left].
  rewrite bool_decide_eq_true_2 by exact Hc.
  clear Hc. generalize c.
  induction after as [|c' after IH]; intros current; [reflexivity|].
  inversion Hafter as [|? ? Hc' Hrest]; subst. cbn [fold_left].
  rewrite bool_decide_eq_false_2 by exact Hc'. apply IH, Hrest.
Qed.
End FolderContentFacts.

Section FolderPageProperties.
Import Quartz FolderPage Folders.
Context {Tree Html : Type}.
Variable defaultProcessedContent : QuartzPluginData -> Tree * QuartzPluginData.
Variable simplify : Slug -> Slug.
Variable joinSegments : Slug -> string -> Slug.
Variable folderLabel : string -> string.
Variable renderPage :
  GlobalConfiguration -> Slug -> Tree -> QuartzPluginData ->
  list QuartzPluginData -> Html.



(** X21. A folder that has a content file of its own (one whose simplified
    slug is the folder) is described by that file, the last one in the
    collection should there be several, and not by the default description;
    the entries of the description object have one key per folder of the
    folder set, and no other. *)
Theorem X21_folder_with_an_index_file_is_described_by_it
        (folders : list Slug) (before after : list (Tree * QuartzPluginData))
        (c : Tree * QuartzPluginData) (locale : string) :
  NoDup folders ->
  simplify (slug c.2) ∈ folders ->
  Forall (fun c' : Tree * QuartzPluginData => simplify (slug c'.2) ≠ simplify (slug c.2))
         after ->
  let folderInfo :=
    computeFolderInfo defaultProcessedContent simplify joinSegments folderLabel
      folders (before ++ c :: after) locale in
  getKey (simplify (slug c.2)) folderInfo = Some c
  /\ map fst (entries folderInfo) ≡ₚ folders.
Proof.
  intros Hnd Hin Hafter. cbv zeta.
  rewrite computeFolderInfo_entries by exact Hnd. split.
  - rewrite (getKey_map _ folders _ Hin). f_equal.
    apply folderContent_last; [reflexivity|exact Hafter].
  - rewrite entries_Permutation, map_map. simpl. rewrite map_id. reflexivity.
Qed.
End FolderPageProperties.


Lemma X21_folder_with_an_index_file_is_described_by_it_witness :
  let folderInfo :=
    FolderPage.computeFolderInfo Runtime.defaultProcessedContent Runtime.simplify
      Runtime.joinSegments Runtime.folderLabel
      [["docs"; "guide"]; ["docs"]] Samples.docs "en-US" in
  Quartz.getKey ["docs"] folderInfo = Some (tt, Samples.docsIndex)
  /\ map fst (Quartz.entries folderInfo) ≡ₚ [["docs"; "guide"]; ["docs"]].
Proof.
  apply (X21_folder_with_an_index_file_is_described_by_it
           Runtime.defaultProcessedContent Runtime.simplify Runtime.joinSegments
           Runtime.folderLabel [["docs"; "guide"]; ["docs"]]
           [(tt, Samples.intro)] [] (tt, Samples.docsIndex) "en-US").
  - apply (bool_decide_unpack _). vm_compute. reflexivity.
  - apply (bool_decide_unpack _). vm_compute. reflexivity.
  - constructor.
Defined.

(** ** The frontmatter index, files sharing a slug included *)

Section IndexFactsMore.
Import Quartz FrontmatterIndex.
Context {Tree : Type}.
Implicit Types (content : list (Tree * QuartzPluginData))
         (index : gmap Slug (gmap string Json)).

Lemma fold_indexStep_keeps content index s :
  Forall (fun c : Tree * QuartzPluginData => included c.2 = true -> slug c.2 ≠ s) content ->
  fold_left indexStep content index !! s = index !! s.
Proof.
  revert index. induction content as [|c content IH]; intros index Hall; [reflexivity|].
  inversion Hall as [|? ? Hc Hrest]; subst. cbn [fold_left].
  rewrite IH by exact Hrest. unfold indexStep.
  destruct (included c.2) eqn:E; [|reflexivity].
  apply lookup_insert_ne. apply Hc. reflexivity.
Qed.

Lemma fold_indexStep_keys content index s :
  is_Some (fold_left indexStep content index !! s)
  <-> is_Some (index !! s)
      \/ exists c, c ∈ content /\ slug c.2 = s /\ included c.2 = true.
Proof.
  revert index. induction content as [|c content IH]; intros index; cbn [fold_left].
  - split; [auto|]. intros [H|(c & Hin & _)]; [exact H|inversion Hin].
  - rewrite IH. unfold indexStep. destruct (included c.2) eqn:E.
    + destruct (decide (slug c.2 = s)) as [Hs|Hs].
      * rewrite <- Hs, lookup_insert_eq. split; [|eauto].
        intros _. right. exists c. split; [apply elem_of_cons; auto|auto].
      * rewrite lookup_insert_ne by exact Hs. split.
        -- intros [H|(c' & Hin & Hc')]; [auto|].
           right. exists c'. split; [apply elem_of_cons; auto|exact Hc'].
        -- intros [H|(c' & Hin & Hs' & Hi)]; [auto|].
           apply elem_of_cons in Hin as [-> | Hin]; [contradiction|]. right. eauto.
    + split.
      * intros [H|(c' & Hin & Hc')]; [auto|].
        right. exists c'. split; [apply elem_of_cons; auto|exact Hc'].
      * intros [H|(c' & Hin & Hs' & Hi)]; [auto|].
        apply elem_of_cons in Hin as [-> | Hin]; [congruence|]. right. eauto.
Qed.
End IndexFactsMore.

(** X22. In the frontmatter index a slug has the entry of the last file of
    the collection that carries it and has frontmatter or headings, other
    files of that slug notwithstanding; and the keys of the index are the
    slugs of the files with frontmatter or headings, no other. *)
Theorem X22_frontmatter_index_keeps_the_last_file_of_a_slug {Tree : Type}
        (before after : list (Tree * Quartz.QuartzPluginData))
        (c : Tree * Quartz.QuartzPluginData) :
  FrontmatterIndex.included c.2 = true ->
  Forall (fun c' : Tree * Quartz.QuartzPluginData =>
            FrontmatterIndex.included c'.2 = true -> Quartz.slug c'.2 ≠ Quartz.slug c.2)
         after ->
  let index := FrontmatterIndex.frontmatterIndexOf (before ++ c :: after) in
  index !! Quartz.slug c.2 = Some (FrontmatterIndex.entryOf c.2)
  /\ forall s,
      is_Some (index !! s)
      <-> exists c', c' ∈ before ++ c :: after /\ Quartz.slug c'.2 = s
                     /\ FrontmatterIndex.included c'.2 = true.
Proof.
  intros Hc Hafter. cbv zeta. unfold FrontmatterIndex.frontmatterIndexOf. split.
  - rewrite fold_left_app. cbn [fold_left].
    rewrite fold_indexStep_keeps by exact Hafter.
    rewrite indexStep_at, Hc. reflexivity.
  - intros s. rewrite fold_indexStep_keys, lookup_empty. split.
    + intros [[? H]|H]; [discriminate|exact H].
    + auto.
Qed.

Lemma X22_frontmatter_index_keeps_the_last_file_of_a_slug_witness :
  let rewritten : unit * Quartz.QuartzPluginData :=
    (tt, Quartz.mkData ["guide"] (Some {[ "title" := Quartz.JStr "Guide, again" ]})
                       None None None) in
  let index :=
    FrontmatterIndex.frontmatterIndexOf
      ([(tt, Samples.tocFile)] ++ rewritten :: [(tt, Samples.bare)]) in
  index !! ["guide"] = Some (FrontmatterIndex.entryOf rewritten.2)
  /\ forall s,
      is_Some (index !! s)
      <-> exists c', c' ∈ [(tt, Samples.tocFile)] ++ rewritten :: [(tt, Samples.bare)]
                     /\ Quartz.slug c'.2 = s
                     /\ FrontmatterIndex.included c'.2 = true.
Proof.
  cbv zeta.
  apply (X22_frontmatter_index_keeps_the_last_file_of_a_slug
           [(tt, Samples.tocFile)] [(tt, Samples.bare)]
           (tt, Quartz.mkData ["guide"] (Some {[ "title" := Quartz.JStr "Guide, again" ]})
                              None None None)).
  - vm_compute. reflexivity.
  - repeat constructor. vm_compute. discriminate.
Defined.

(** ** The comparator of the explorer *)

Section ExplorerOrder.
Import Quartz Explorer Sorted Cached.
Context {ContentDetails : Type}.
Variable frontmatterCache : gmap Slug (gmap string Json).
Variable localeCompareBase : string -> string -> Z.
Variable coerceMinus : Json -> Json -> Z.
Hypothesis Hnumeric : numericSortOrders frontmatterCache.

Local Abbreviation node := (FileTrieNode ContentDetails).

(** With numeric sort orders the comparator reads a number or nothing. *)
Lemma getSortOrder_numeric (a : node) :
  getSortOrder frontmatterCache a = None
  \/ exists n, getSortOrder frontmatterCache a = Some (JNum n).
Proof.
  unfold getSortOrder. destruct (isFolder a); [left; reflexivity|].
  destruct (frontmatterCache !! nodeSlug a) as [entry|] eqn:E; [|left; reflexivity].
  specialize (Hnumeric _ _ E). cbv beta in Hnumeric.
  unfold numericSortOrder in Hnumeric. cbn [field].
  destruct (entry !! "sortorder") as [[]|]; try discriminate; eauto.
Qed.

Lemma getSortOrder_folder (a : node) :
  isFolder a = true -> getSortOrder frontmatterCache a = None.
Proof. intros H. unfold getSortOrder. rewrite H. reflexivity. Qed.

Lemma customSortFn_swap :
  (forall a b, localeCompareBase a b < 0 <-> 0 < localeCompareBase b a) ->
  forall a b : node,
    customSortFn frontmatterCache localeCompareBase coerceMinus a b < 0
    <-> 0 < customSortFn frontmatterCache localeCompareBase coerceMinus b a.
Proof.
  intros Hanti a b. unfold customSortFn. cbv zeta.
  destruct (getSortOrder_numeric a) as [Ea|[na Ea]], (getSortOrder_numeric b) as [Eb|[nb Eb]];
    rewrite Ea, Eb.
  all: destruct (isFolder a), (isFolder b); cbn [andb orb negb minus]; try lia.
  all: apply Hanti.
Qed.

Lemma customSortFn_trans :
  (forall a b c, localeCompareBase a b <= 0 -> localeCompareBase b c <= 0 ->
                 localeCompareBase a c <= 0) ->
  forall a b c : node,
    customSortFn frontmatterCache localeCompareBase coerceMinus a b <= 0 ->
    customSortFn frontmatterCache localeCompareBase coerceMinus b c <= 0 ->
    customSortFn frontmatterCache localeCompareBase coerceMinus a c <= 0.
Proof.
  intros Htrans a b c. unfold customSortFn. cbv zeta.
  destruct (getSortOrder_numeric a) as [Ea|[na Ea]], (getSortOrder_numeric b) as [Eb|[nb Eb]],
    (getSortOrder_numeric c) as [Ec|[nc Ec]]; rewrite Ea, Eb, Ec.
  all: destruct (isFolder a), (isFolder b), (isFolder c); cbn [andb orb negb minus]; try lia.
  all: apply Htrans.
Qed.
End ExplorerOrder.

(** X23. The comparator of the explorer orders consistently when the sort
    orders of the cache are numbers (or null, or absent) and the comparison
    of display names is consistent: swapping the two nodes swaps the sign of
    the result, and "comes first or ties" is transitive, across folders and
    files and nodes with and without a sort order. *)
Theorem X23_explorer_comparator_is_consistent {ContentDetails : Type}
        (frontmatterCache : gmap Quartz.Slug (gmap string Quartz.Json))
        (localeCompareBase : string -> string -> Z)
        (coerceMinus : Quartz.Json -> Quartz.Json -> Z) :
  Cached.numericSortOrders frontmatterCache ->
  Sorted.consistent localeCompareBase ->
  Sorted.consistent
    (Explorer.customSortFn (ContentDetails := ContentDetails)
       frontmatterCache localeCompareBase coerceMinus).
Proof.
  intros Hnumeric [Hanti Htrans]. split.
  - apply customSortFn_swap; assumption.
  - apply customSortFn_trans; assumption.
Qed.

Lemma X23_explorer_comparator_is_consistent_witness :
  Sorted.consistent
    (Explorer.customSortFn (ContentDetails := Quartz.QuartzPluginData)
       (FrontmatterIndex.frontmatterIndexOf Samples.threeFiles)
       Runtime.localeCompare Runtime.coerceMinus).
Proof.
  apply (X23_explorer_comparator_is_consistent
           (FrontmatterIndex.frontmatterIndexOf Samples.threeFiles)
           Runtime.localeCompare Runtime.coerceMinus).
  - apply (bool_decide_unpack _). vm_compute. reflexivity.
  - exact runtime_localeCompare_consistent.
Defined.

(** ** The folder state of the explorer *)

Section ExplorerStateFacts.
Import Quartz ExplorerState.
Implicit Types (state : list FolderState) (folderPath : Slug).

Lemma findState_None state folderPath :
  findState state folderPath = None <-> folderPath ∉ map path state.
Proof.
  unfold findState. induction state as [|item state IH]; cbn [List.find map].
  - split; [intros _ H; inversion H|reflexivity].
  - rewrite not_elem_of_cons. case_bool_decide as E.
    + split; [discriminate|]. intros [Hne _]. congruence.
    + rewrite IH. split; [intros H; split; [congruence|exact H]|intros [_ H]; exact H].
Qed.

Lemma findState_unique state item :
  NoDup (map path state) -> item ∈ state -> findState state (path item) = Some item.
Proof.
  unfold findState. induction state as [|item' state IH]; intros Hnd Hin; [inversion Hin|].
  cbn [map] in Hnd. apply NoDup_cons in Hnd as [Hfresh Hnd]. cbn [List.find].
  apply elem_of_cons in Hin as [-> | Hin].
  - rewrite bool_decide_eq_true_2 by reflexivity. reflexivity.
  - rewrite bool_decide_eq_false_2; [apply IH; assumption|].
    intros E. apply Hfresh. rewrite E. apply list_elem_of_fmap_2, Hin.
Qed.

Lemma findState_app state state' folderPath :
  findState (state ++ state') folderPath
  = match findState state folderPath with
    | Some item => Some item
    | None => findState state' folderPath
    end.
Proof.
  unfold findState. induction state as [|item state IH]; [reflexivity|].
  cbn [app List.find]. case_bool_decide; [reflexivity|exact IH].
Qed.

Lemma setCollapsed_paths state folderPath isCollapsed :
  map path (setCollapsed state folderPath isCollapsed) = map path state.
Proof.
  induction state as [|item state IH]; [reflexivity|].
  cbn [setCollapsed]. case_bool_decide; cbn [map path]; [reflexivity|].
  rewrite IH. reflexivity.
Qed.

Lemma setCollapsed_find state folderPath isCollapsed q :
  findState (setCollapsed state folderPath isCollapsed) q
  = if bool_decide (q = folderPath)
    then (fun _ => mkFolderState folderPath isCollapsed) <$> findState state folderPath
    else findState state q.
Proof.
  unfold findState. destruct (decide (q = folderPath)) as [-> | Hq].
  - rewrite bool_decide_eq_true_2 by reflexivity.
    induction state as [|item state IH]; [reflexivity|].
    cbn [setCollapsed List.find]. case_bool_decide as E.
    + cbn [List.find path]. rewrite bool_decide_eq_true_2 by exact E.
      rewrite E. reflexivity.
    + cbn [List.find]. rewrite bool_decide_eq_false_2 by exact E. exact IH.
  - rewrite bool_decide_eq_false_2 by exact Hq.
    induction state as [|item state IH]; [reflexivity|].
    cbn [setCollapsed List.find]. case_bool_decide as E.
    + cbn [List.find path]. rewrite bool_decide_eq_false_2 by congruence. reflexivity.
    + cbn [List.find]. rewrite IH. reflexivity.
Qed.

(** The state after a click on [folderPath]. *)
Local Abbreviation recorded state folderPath isCollapsed :=
  (match findState state folderPath with
   | Some _ => setCollapsed state folderPath isCollapsed
   | None => state ++ [mkFolderState folderPath isCollapsed]
   end).

Lemma recorded_NoDup state folderPath isCollapsed :
  NoDup (map path state) -> NoDup (map path (recorded state folderPath isCollapsed)).
Proof.
  intros Hnd. destruct (findState state folderPath) eqn:E.
  - rewrite setCollapsed_paths. exact Hnd.
  - apply findState_None in E. rewrite map_app. apply NoDup_app.
    split; [exact Hnd|]. split; [|apply NoDup_singleton].
    intros q Hq Hq'. apply list_elem_of_singleton in Hq'. subst q. contradiction.
Qed.

Lemma recorded_find_same state folderPath isCollapsed :
  findState (recorded state folderPath isCollapsed) folderPath
  = Some (mkFolderState folderPath isCollapsed).
Proof.
  destruct (findState state folderPath) eqn:E.
  - rewrite setCollapsed_find, bool_decide_eq_true_2 by reflexivity. rewrite E. reflexivity.
  - rewrite findState_app, E. unfold findState. cbn.
    rewrite bool_decide_eq_true_2 by reflexivity. reflexivity.
Qed.

Lemma recorded_find_other state folderPath isCollapsed q :
  q ≠ folderPath ->
  findState (recorded state folderPath isCollapsed) q = findState state q.
Proof.
  intros Hq. destruct (findState state folderPath) eqn:E.
  - rewrite setCollapsed_find, bool_decide_eq_false_2 by exact Hq. reflexivity.
  - rewrite findState_app. destruct (findState state q); [reflexivity|].
    unfold findState. cbn. rewrite bool_decide_eq_false_2 by congruence. reflexivity.
Qed.

(** With one entry per path the index holds what [find] finds. *)
Lemma oldIndex_lookup state q :
  NoDup (map path state) ->
  oldIndex state !! q = collapsed <$> findState state q.
Proof.
  unfold oldIndex.
  enough (H : forall index : gmap Slug bool,
             NoDup (map path state) ->
             fold_left (fun index entry => <[path entry := collapsed entry]> index)
               state index !! q
             = match findState state q with
               | Some item => Some (collapsed item)
               | None => index !! q
               end).
  { intros Hnd. rewrite H by exact Hnd. rewrite lookup_empty.
    destruct (findState state q); reflexivity. }
  induction state as [|item state IH]; intros index Hnd; [reflexivity|].
  cbn [map] in Hnd. apply NoDup_cons in Hnd as [Hfresh Hnd].
  cbn [fold_left]. rewrite IH by exact Hnd.
  unfold findState at 2. cbn [List.find]. case_bool_decide as E.
  - subst q. apply findState_None in Hfresh. rewrite Hfresh. apply lookup_insert_eq.
  - fold (findState state q). destruct (findState state q); [reflexivity|].
    apply lookup_insert_ne, E.
Qed.

Lemma findState_map (g : Slug -> bool) (folderPaths : list Slug) q :
  q ∈ folderPaths ->
  findState (map (fun p => mkFolderState p (g p)) folderPaths) q
  = Some (mkFolderState q (g q)).
Proof.
  unfold findState. induction folderPaths as [|p folderPaths IH]; intros Hin; [inversion Hin|].
  cbn [map List.find path]. case_bool_decide as E; [subst; reflexivity|].
  apply IH. apply elem_of_cons in Hin as [-> | Hin]; [contradiction|exact Hin].
Qed.
End ExplorerStateFacts.

Section ExplorerStateProperties.
Import Quartz ExplorerState.
Variable simplifySlug : Slug -> string.

(** X24. A click on a folder is remembered: when the explorer is set up
    again with saved state, for a trie that still has the folder, the state of
    the folder is the one the click left (collapsed exactly when its children
    were hidden), so that the folder is rendered as it was left unless the
    current page lies below it; the other folders of the state keep their
    state, and the state keeps one entry per path. *)
Theorem X24_toggled_folder_state_is_restored
        (view : FolderView) (store : Store) (folderPaths : list Slug)
        (defaultCollapsed : bool) (currentSlug : string) :
  NoDup (map path (currentExplorerState store)) ->
  folderpath view ∈ folderPaths ->
  let clicked := toggleFolder view store in
  let restored := setupState folderPaths true defaultCollapsed clicked.2 in
  isOpen clicked.1 = negb (isOpen view)
  /\ NoDup (map path (currentExplorerState clicked.2))
  /\ findState (currentExplorerState restored) (folderpath view)
     = Some (mkFolderState (folderpath view) (negb (isOpen clicked.1)))
  /\ opensFolder simplifySlug currentSlug defaultCollapsed restored (folderpath view)
     = isOpen clicked.1
       || folderIsPrefixOfCurrentSlug simplifySlug currentSlug (folderpath view)
  /\ forall item,
      item ∈ currentExplorerState store ->
      path item ≠ folderpath view ->
      path item ∈ folderPaths ->
      findState (currentExplorerState restored) (path item) = Some item.
Proof.
  intros Hnd Hin. cbv zeta.
  unfold toggleFolder, setupState. cbv zeta.
  cbn [fst snd isOpen folderpath currentExplorerState fileTree serializedExplorerState].
  set (state := currentExplorerState store) in *.
  set (p := folderpath view) in *.
  assert (Hshown : setFolderState (negb (negb (isOpen view))) = negb (isOpen view))
    by (destruct (isOpen view); reflexivity).
  rewrite Hshown.
  pose proof (recorded_NoDup state p (negb (negb (isOpen view))) Hnd) as Hnd'.
  assert (Hp : findState
                 (map (fun path =>
                         mkFolderState path
                           match oldIndex
                                   match findState state p with
                                   | Some _ => setCollapsed state p (negb (negb (isOpen view)))
                                   | None => state ++ [mkFolderState p (negb (negb (isOpen view)))]
                                   end !! path with
                           | Some previousState => previousState
                           | None => defaultCollapsed
                           end) folderPaths) p
               = Some (mkFolderState p (negb (negb (isOpen view))))).
  { rewrite (findState_map _ folderPaths p Hin).
    rewrite oldIndex_lookup by exact Hnd'. rewrite recorded_find_same. reflexivity. }
  split; [reflexivity|]. split; [exact Hnd'|]. split; [exact Hp|]. split.
  - unfold opensFolder. cbv zeta. cbn [currentExplorerState]. rewrite Hp.
    cbn [collapsed]. rewrite !negb_involutive. reflexivity.
  - intros item Hitem Hne Hpaths.
    rewrite (findState_map _ folderPaths (path item) Hpaths).
    rewrite oldIndex_lookup by exact Hnd'.
    rewrite recorded_find_other by exact Hne.
    rewrite (findState_unique state item Hnd Hitem). destruct item; reflexivity.
Qed.
End ExplorerStateProperties.

Lemma X24_toggled_folder_state_is_restored_witness :
  let view := ExplorerState.mkFolderView ["docs"; "index"] true in
  let store :=
    ExplorerState.mkStore
      [ExplorerState.mkFolderState ["docs"; "index"] false;
       ExplorerState.mkFolderState ["blog"; "index"] true]
      None in
  let clicked := ExplorerState.toggleFolder view store in
  let restored :=
    ExplorerState.setupState [["blog"; "index"]; ["docs"; "index"]] true false clicked.2 in
  ExplorerState.findState (ExplorerState.currentExplorerState restored) ["docs"; "index"]
  = Some (ExplorerState.mkFolderState ["docs"; "index"] true).
Proof.
  cbv zeta.
  apply (X24_toggled_folder_state_is_restored showPath
           (ExplorerState.mkFolderView ["docs"; "index"] true)
           (ExplorerState.mkStore
              [ExplorerState.mkFolderState ["docs"; "index"] false;
               ExplorerState.mkFolderState ["blog"; "index"] true]
              None)
           [["blog"; "index"]; ["docs"; "index"]] false "blog/post").
  - apply (bool_decide_unpack _). vm_compute. reflexivity.
  - apply (bool_decide_unpack _). vm_compute. reflexivity.
Defined.

(** ** The frontmatter cache of the explorer *)

Section CacheFacts.
Import Quartz FrontmatterCache.

Lemma cacheAll_entries (entries : list (Slug * gmap string Json)) (s : State) slug :
  NoDup (map fst entries) ->
  frontmatterCache
    (fold_left (fun s (entry : Slug * gmap string Json) => cacheSet entry.1 entry.2 s)
               entries s) !! slug
  = match list_to_map (M := gmap Slug (gmap string Json)) entries !! slug with
    | Some data => Some data
    | None => frontmatterCache s !! slug
    end.
Proof.
  revert s. induction entries as [|[k v] entries IH]; intros s Hnd.
  - cbn. rewrite lookup_empty. reflexivity.
  - cbn [map fst] in Hnd. apply NoDup_cons in Hnd as [Hfresh Hnd].
    cbn [fold_left list_to_map foldr]. rewrite IH by exact Hnd.
    cbn [cacheSet frontmatterCache fst snd uncurry].
    destruct (decide (k = slug)) as [-> | Hk].
    + rewrite lookup_insert_eq.
      rewrite (not_elem_of_list_to_map_1 _ slug) by exact Hfresh.
      rewrite lookup_insert_eq. reflexivity.
    + rewrite !lookup_insert_ne by exact Hk. reflexivity.
Qed.

(** After the loop the cache has the entries of the index, and what it
    had under the other keys. *)
Lemma cacheAll_lookup (frontmatterIndex : gmap Slug (gmap string Json)) (s : State) slug :
  frontmatterCache (cacheAll frontmatterIndex s) !! slug
  = match frontmatterIndex !! slug with
    | Some data => Some data
    | None => frontmatterCache s !! slug
    end.
Proof.
  unfold cacheAll. rewrite cacheAll_entries by apply NoDup_fst_map_to_list.
  rewrite list_to_map_to_list. reflexivity.
Qed.
End CacheFacts.

(** X25. What fetching does to the frontmatter cache of the explorer: it
    never drops a key the cache had; when the content index does not come
    (the request rejects, the response is not ok or its body does not parse)
    the cache is left as it was, the frontmatter index notwithstanding; and
    when both come, every entry of the frontmatter index is in the cache
    afterwards. *)
Theorem X25_frontmatter_cache_after_fetching
        (contentIndex : FrontmatterCache.Fetched unit)
        (document : FrontmatterCache.Document)
        (frontmatterIndex : FrontmatterCache.Fetched (gmap Quartz.Slug (gmap string Quartz.Json)))
        (s : FrontmatterCache.State) :
  let cache := FrontmatterCache.frontmatterCache s in
  let cache' :=
    FrontmatterCache.frontmatterCache
      (FrontmatterCache.fetchFrontmatterData contentIndex document frontmatterIndex s) in
  (forall slug, is_Some (cache !! slug) -> is_Some (cache' !! slug))
  /\ (if FrontmatterCache.arrived contentIndex
      then match frontmatterIndex with
           | FrontmatterCache.Responds true (inr index) => index ⊆ cache'
           | _ => forall slug, slug ≠ FrontmatterCache.locationSlug document ->
                               cache' !! slug = cache !! slug
           end
      else cache' = cache).
Proof.
  cbv zeta. unfold FrontmatterCache.fetchFrontmatterData, FrontmatterCache.arrived.
  destruct contentIndex as [error|[] [error|[]]]; cbn [FrontmatterCache.print FrontmatterCache.frontmatterCache];
    try (split; [intros slug H; exact H|reflexivity]).
  set (s1 := match FrontmatterCache.frontmatterMeta document with
             | Some (Some frontmatter) =>
                 FrontmatterCache.cacheSet (FrontmatterCache.locationSlug document) frontmatter s
             | _ => s
             end).
  assert (Hmeta : forall slug,
             slug ≠ FrontmatterCache.locationSlug document ->
             FrontmatterCache.frontmatterCache s1 !! slug
             = FrontmatterCache.frontmatterCache s !! slug).
  { intros slug Hne. unfold s1.
    destruct (FrontmatterCache.frontmatterMeta document) as [[frontmatter|]|]; try reflexivity.
    cbn. apply lookup_insert_ne. congruence. }
  assert (Hgrow : forall slug,
             is_Some (FrontmatterCache.frontmatterCache s !! slug) ->
             is_Some (FrontmatterCache.frontmatterCache s1 !! slug)).
  { intros slug H. destruct (decide (slug = FrontmatterCache.locationSlug document)) as [-> | Hne].
    - unfold s1.
      destruct (FrontmatterCache.frontmatterMeta document) as [[frontmatter|]|]; try exact H.
      cbn. rewrite lookup_insert_eq. eauto.
    - rewrite Hmeta by exact Hne. exact H. }
  change (match FrontmatterCache.frontmatterMeta document with
          | Some (Some frontmatter) =>
              FrontmatterCache.cacheSet (FrontmatterCache.locationSlug document) frontmatter s
          | Some None => s
          | None => s
          end) with s1.
  destruct frontmatterIndex as [error|[] [error|index]];
    cbn [FrontmatterCache.print FrontmatterCache.frontmatterCache];
    try (split; [exact Hgrow|exact Hmeta]).
  split.
  - intros slug H. rewrite cacheAll_lookup.
    destruct (index !! slug); [eauto|apply Hgrow, H].
  - apply map_subseteq_spec. intros slug data Hdata.
    rewrite cacheAll_lookup, Hdata. reflexivity.
Qed.
